(** * NetworkXStorage: the graph storage backend of LightRAG

    A shallow embedding of [lightrag/kg/networkx_impl.py].  The storage
    keeps one [networkx.Graph] per namespace, reloads it from a GraphML
    file when a peer process has persisted, and writes it back at
    checkpoints.  The networkx calls made by the storage are embedded
    together with it, data structure by data structure:

    - a Python [dict] is an insertion-ordered association list;
    - [nx.Graph] is the pair of dictionaries [_node] and [_adj] of the
      class, [nx.DiGraph] has [_succ] and [_pred] instead of [_adj];
    - a Python [str] is a [string] holding its UTF-8 encoding, on which
      byte-wise lexicographic order is the order of code points;
    - a coroutine of the storage is a function from the state of the
      storage object to a result (a value or a raised exception) and a
      new state. *)

From Stdlib Require Import List String Ascii Bool Arith ZArith Lia.
From Stdlib Require Import Permutation Sorted OrdersEx DecimalString.
Import ListNotations.

Local Open Scope string_scope.
Local Open Scope list_scope.

Set Implicit Arguments.

(** ** Python runtime *)

Module Py.

(** The exception classes that the modelled code can raise. *)
Inductive exn : Type :=
| KeyError (msg : string)
| TypeError (msg : string)
| NetworkXError (msg : string)
| IOFailure (msg : string).

Inductive result (A : Type) : Type :=
| Ok (a : A)
| Raise (e : exn).
Arguments Ok {A} a.
Arguments Raise {A} e.

(** [dict]: keys in insertion order. *)
Definition dict (V : Type) : Type := list (string * V).

Section Dict.
Variable V : Type.

(** [d.get(k)] *)
Fixpoint dict_get (d : dict V) (k : string) : option V :=
  match d with
  | [] => None
  | (k', v) :: d' => if String.eqb k' k then Some v else dict_get d' k
  end.

(** [k in d] *)
Definition dict_mem (d : dict V) (k : string) : bool :=
  match dict_get d k with Some _ => true | None => false end.

(** [d[k] = v]: an existing key keeps its place, a new one goes last. *)
Fixpoint dict_set (d : dict V) (k : string) (v : V) : dict V :=
  match d with
  | [] => [(k, v)]
  | (k', v') :: d' =>
      if String.eqb k' k then (k', v) :: d' else (k', v') :: dict_set d' k v
  end.

(** [del d[k]] for a key that is present. *)
Definition dict_del (d : dict V) (k : string) : dict V :=
  filter (fun kv => negb (String.eqb (fst kv) k)) d.

(** [d.update(e)] *)
Definition dict_update (d e : dict V) : dict V :=
  fold_left (fun acc kv => dict_set acc (fst kv) (snd kv)) e d.

Definition dict_keys (d : dict V) : list string := map fst d.

(** [d.get(k, default)] *)
Definition dict_get_default (d : dict V) (k : string) (default : V) : V :=
  match dict_get d k with Some v => v | None => default end.
End Dict.

(** [x in l] for a list or a set of strings. *)
Definition str_in (x : string) (l : list string) : bool :=
  existsb (String.eqb x) l.

(** [sub in s] for strings. *)
Fixpoint str_contains (sub s : string) : bool :=
  String.prefix sub s
  || match s with
     | EmptyString => false
     | String _ s' => str_contains sub s'
     end.

(** The characters of a string, each one as a string: a byte of the form
    10xxxxxx continues the UTF-8 encoding of the character before it. *)
Definition is_continuation (a : ascii) : bool :=
  match a with Ascii _ _ _ _ _ _ b6 b7 => b7 && negb b6 end.

Fixpoint str_chars (s : string) : list string :=
  match s with
  | EmptyString => []
  | String a s' =>
      let rest := str_chars s' in
      let continued :=
        match s' with
        | String b _ => is_continuation b
        | EmptyString => false
        end in
      match rest with
      | c :: l =>
          if continued then String a c :: l
          else String a EmptyString :: rest
      | [] => [String a EmptyString]
      end
  end.

(** [str(n)] for an [int]. *)
Definition str_of_nat (n : nat) : string := NilZero.string_of_uint (Nat.to_uint n).
Definition str_of_Z (z : Z) : string := NilZero.string_of_int (Z.to_int z).

(** [sorted(l, key=key, reverse=reverse)], a stable sort: elements whose
    keys compare equal keep their relative order, also when reversed.
    [lt] is [<] on the keys. *)
Section Sorted.
Variables (A K : Type) (key : A -> K) (lt : K -> K -> bool) (reverse : bool).

Definition strictly_before (x y : A) : bool :=
  if reverse then lt (key y) (key x) else lt (key x) (key y).

Fixpoint insert_sorted (x : A) (l : list A) : list A :=
  match l with
  | [] => [x]
  | y :: l' => if strictly_before y x then y :: insert_sorted x l' else x :: l
  end.

Definition sorted (l : list A) : list A := fold_right insert_sorted [] l.

(** [x] may stand before [y] in the result: [y] does not have to come
    first. *)
Definition may_precede (x y : A) : Prop := strictly_before y x = false.
End Sorted.

(** A Python [set] built from the sequence [l].  Its length is the number
    of distinct elements; its iteration order depends on the hashes and on
    the history of the table, so it is taken from [set_order], which may
    be any function: an answer that is not an arrangement of the elements
    is ignored. *)
Definition set_elements (l : list string) : list string := nodup string_dec l.

Definition is_arrangement (p l : list string) : bool :=
  (List.length p =? List.length l)%nat
  && forallb (fun x => str_in x l) p
  && forallb (fun x => str_in x p) l.

Definition set_iter (set_order : list string -> list string)
           (l : list string) : list string :=
  let elements := set_elements l in
  let p := nodup string_dec (set_order elements) in
  if is_arrangement p elements then p else elements.

End Py.
Import Py.


(** ** networkx: the calls made by the storage *)

Module NX.

(** Attribute dictionaries of nodes and edges: [dict[str, str]]. *)
Definition attrs : Type := dict string.

(** [nx.Graph]: [_node] maps a node to its attributes, [_adj] maps a node
    to the dictionary of its neighbours, each with the attributes of the
    edge.  The class keeps the keys of both in step and stores every edge
    under both of its ends. *)
Record Graph : Type := mkGraph {
  _node : dict attrs;
  _adj : dict (dict attrs)
}.

(** [nx.Graph()] *)
Definition empty_graph : Graph := mkGraph [] [].

(** [self._adj[u]] for a node of the graph. *)
Definition adj_of (adj : dict (dict attrs)) (u : string) : dict attrs :=
  dict_get_default adj u [].

(** [len(G)], [G.number_of_nodes()] *)
Definition number_of_nodes (g : Graph) : nat := List.length (_node g).

(** [G.has_node(n)]: [n in self._node]. *)
Definition has_node (g : Graph) (n : string) : bool := dict_mem (_node g) n.

(** [G.has_edge(u, v)]: [v in self._adj[u]], [False] on [KeyError]. *)
Definition has_edge (g : Graph) (u v : string) : bool :=
  match dict_get (_adj g) u with
  | Some nbrs => dict_mem nbrs v
  | None => false
  end.

(** [G.add_node(n, **attr)] *)
Definition add_node (g : Graph) (n : string) (attr : attrs) : Graph :=
  match dict_get (_node g) n with
  | None => mkGraph (dict_set (_node g) n (dict_update [] attr))
                    (dict_set (_adj g) n [])
  | Some d => mkGraph (dict_set (_node g) n (dict_update d attr)) (_adj g)
  end.

(** The first lines of [add_edge]: an end that is not a node becomes one,
    with no attributes. *)
Definition ensure_node (g : Graph) (n : string) : Graph :=
  if dict_mem (_node g) n then g
  else mkGraph (dict_set (_node g) n []) (dict_set (_adj g) n []).

(** [G.add_edge(u, v, **attr)] *)
Definition add_edge (g : Graph) (u v : string) (attr : attrs) : Graph :=
  let g1 := ensure_node (ensure_node g u) v in
  let datadict := dict_update (dict_get_default (adj_of (_adj g1) u) v []) attr in
  let adj1 := dict_set (_adj g1) u (dict_set (adj_of (_adj g1) u) v datadict) in
  let adj2 := dict_set adj1 v (dict_set (adj_of adj1 v) u datadict) in
  mkGraph (_node g1) adj2.

(** [G.add_nodes_from(nodes)] for a sequence of pairs [(n, attr)]. *)
Definition add_nodes_from (g : Graph) (nodes : list (string * attrs)) : Graph :=
  fold_left (fun acc nd => add_node acc (fst nd) (snd nd)) nodes g.

(** [G.add_edges_from(edges)] for a sequence of triples [(u, v, attr)]. *)
Definition add_edges_from (g : Graph)
           (edges : list (string * string * attrs)) : Graph :=
  fold_left (fun acc e => add_edge acc (fst (fst e)) (snd (fst e)) (snd e)) edges g.

(** [G.remove_node(n)] *)
Definition remove_node (g : Graph) (n : string) : result Graph :=
  match dict_get (_adj g) n, dict_get (_node g) n with
  | Some nbrs, Some _ =>
      let adj1 :=
        fold_left (fun adj u => dict_set adj u (dict_del (adj_of adj u) n))
                  (dict_keys nbrs) (_adj g) in
      Ok (mkGraph (dict_del (_node g) n) (dict_del adj1 n))
  | _, _ => Raise (NetworkXError (String.append "The node " (String.append n " is not in the graph.")))
  end.

Definition edge_not_in_graph (u v : string) : exn :=
  NetworkXError
    (String.append "The edge "
       (String.append u (String.append "-" (String.append v " is not in the graph")))).

(** [G.remove_edge(u, v)] *)
Definition remove_edge (g : Graph) (u v : string) : result Graph :=
  match dict_get (_adj g) u with
  | Some nbrs_u =>
      if dict_mem nbrs_u v then
        let adj1 := dict_set (_adj g) u (dict_del nbrs_u v) in
        if String.eqb u v then Ok (mkGraph (_node g) adj1)
        else
          match dict_get adj1 v with
          | Some nbrs_v =>
              if dict_mem nbrs_v u
              then Ok (mkGraph (_node g) (dict_set adj1 v (dict_del nbrs_v u)))
              else Raise (edge_not_in_graph u v)
          | None => Raise (edge_not_in_graph u v)
          end
      else Raise (edge_not_in_graph u v)
  | None => Raise (edge_not_in_graph u v)
  end.

(** [G.nodes.get(n)]: [Mapping.get] over [NodeView.__getitem__]. *)
Definition nodes_get (g : Graph) (n : string) : option attrs := dict_get (_node g) n.

(** [G.edges[(u, v)]]: [self._adjdict[u][v]]. *)
Definition edges_getitem (g : Graph) (u v : string) : result attrs :=
  match dict_get (_adj g) u with
  | Some nbrs =>
      match dict_get nbrs v with
      | Some dd => Ok dd
      | None => Raise (KeyError v)
      end
  | None => Raise (KeyError u)
  end.

(** [Mapping.get(key)]: [None] when [__getitem__] raises [KeyError]. *)
Definition mapping_get (A : Type) (getitem : result A) : result (option A) :=
  match getitem with
  | Ok a => Ok (Some a)
  | Raise (KeyError _) => Ok None
  | Raise e => Raise e
  end.

(** [G.edges.get((u, v))] *)
Definition edges_get (g : Graph) (u v : string) : result (option attrs) :=
  mapping_get (edges_getitem g u v).

(** [DegreeView.__getitem__]: a self-loop counts twice. *)
Definition degree_of (adj : dict (dict attrs)) (n : string) : nat :=
  let nbrs := adj_of adj n in
  List.length nbrs + (if dict_mem nbrs n then 1 else 0).

(** [G.nbunch_iter(nbunch)] for a string that is not a node: the string is
    iterated as a sequence, and its characters that are nodes are kept. *)
Definition nbunch_iter_str (g : Graph) (nbunch : string) : list string :=
  if dict_mem (_node g) nbunch then [nbunch]
  else filter (dict_mem (_adj g)) (str_chars nbunch).

(** [G.nbunch_iter(nbunch)] for a list or a dictionary of nodes. *)
Definition nbunch_iter (g : Graph) (nbunch : list string) : list string :=
  filter (dict_mem (_adj g)) nbunch.

(** What [G.degree(n)] evaluates to: the degree, an [int], when [n] is a
    node, and otherwise a new [DegreeView] over [nbunch_iter(n)]. *)
Inductive degree_value : Type :=
| DegreeInt (d : nat)
| DegreeView (items : list (string * nat)).

Definition degree_call (g : Graph) (n : string) : degree_value :=
  if dict_mem (_adj g) n then DegreeInt (degree_of (_adj g) n)
  else DegreeView (map (fun m => (m, degree_of (_adj g) m)) (nbunch_iter_str g n)).

(** [x + y] on two results of [G.degree]. *)
Definition degree_add (x y : degree_value) : result nat :=
  match x, y with
  | DegreeInt a, DegreeInt b => Ok (a + b)
  | DegreeInt _, DegreeView _ =>
      Raise (TypeError "unsupported operand type(s) for +: 'int' and 'DegreeView'")
  | DegreeView _, DegreeInt _ =>
      Raise (TypeError "unsupported operand type(s) for +: 'DegreeView' and 'int'")
  | DegreeView _, DegreeView _ =>
      Raise (TypeError "unsupported operand type(s) for +: 'DegreeView' and 'DegreeView'")
  end.

(** [G.degree()]: the pairs [(n, degree)] in the order of [_adj]. *)
Definition degree_items (g : Graph) : list (string * nat) :=
  map (fun n => (n, degree_of (_adj g) n)) (dict_keys (_adj g)).

(** The iteration of an edge view of an undirected graph over the items
    [(n, nbrs)] of an adjacency: an edge is reported from the first of its
    ends that is visited. *)
Fixpoint iter_edges (items : list (string * dict attrs)) (seen : list string)
  : list (string * string * attrs) :=
  match items with
  | [] => []
  | (n, nbrs) :: rest =>
      map (fun nd => (n, fst nd, snd nd))
          (filter (fun nd => negb (str_in (fst nd) seen)) nbrs)
      ++ iter_edges rest (n :: seen)
  end.

(** [G.edges(data=True)] *)
Definition edges_data (g : Graph) : list (string * string * attrs) :=
  iter_edges (_adj g) [].

(** [G.edges()] *)
Definition edges (g : Graph) : list (string * string) := map fst (edges_data g).

(** [G.edges(n)] for a node [n] of the graph. *)
Definition edges_of (g : Graph) (n : string) : list (string * string) :=
  map fst (iter_edges (map (fun m => (m, adj_of (_adj g) m))
                           (nodup string_dec (nbunch_iter_str g n))) []).

(** [G.number_of_edges()]: half the sum of the degrees. *)
Definition number_of_edges (g : Graph) : nat :=
  Nat.div (list_sum (map snd (degree_items g))) 2.

(** [G.copy()] *)
Definition copy (g : Graph) : Graph :=
  add_edges_from
    (add_nodes_from empty_graph (_node g))
    (flat_map (fun un => map (fun vd => (fst un, fst vd, snd vd)) (snd un)) (_adj g)).


(** *** Subgraph views

    [G.subgraph(nodes)] is a view of [G] filtered by the set of the given
    nodes that are in [G].  [FilterAtlas.__iter__] and
    [FilterAdjacency.__iter__] run over the set when it has fewer than half
    as many elements as the dictionary under the view, and over the
    dictionary otherwise. *)
Record SubgraphView : Type := mkView {
  view_graph : Graph;
  view_shown : list string
}.

Definition subgraph (g : Graph) (nodes : list string) : SubgraphView :=
  mkView g (nbunch_iter g nodes).

Section Views.
Variable set_order : list string -> list string.

Definition view_keys (V : Type) (v : SubgraphView) (atlas : dict V) : list string :=
  if (2 * List.length (set_elements (view_shown v)) <? List.length atlas)%nat
  then filter (dict_mem atlas) (set_iter set_order (view_shown v))
  else filter (fun n => str_in n (view_shown v)) (dict_keys atlas).

Definition view_items (V : Type) (v : SubgraphView) (atlas : dict V)
  : list (string * V) :=
  flat_map (fun n => match dict_get atlas n with
                     | Some x => [(n, x)]
                     | None => []
                     end)
           (view_keys v atlas).

(** The items of [view.nodes]: each shown node with its attributes. *)
Definition view_nodes_data (v : SubgraphView) : list (string * attrs) :=
  view_items v (_node (view_graph v)).

(** The items of the adjacency of the view: the neighbours of a shown node
    are filtered in the order of the dictionary of the graph. *)
Definition view_adj_items (v : SubgraphView) : list (string * dict attrs) :=
  map (fun un => (fst un, filter (fun vd => str_in (fst vd) (view_shown v)) (snd un)))
      (view_items v (_adj (view_graph v))).

(** [view.edges(data=True)] *)
Definition view_edges_data (v : SubgraphView) : list (string * string * attrs) :=
  iter_edges (view_adj_items v) [].

(** [view.copy()] *)
Definition view_copy (v : SubgraphView) : Graph :=
  add_edges_from
    (add_nodes_from empty_graph (view_nodes_data v))
    (flat_map (fun un => map (fun vd => (fst un, fst vd, snd vd)) (snd un))
              (view_adj_items v)).

(** One step of the breadth-first search of
    [single_source_shortest_path_length]: the neighbours of [v] that were
    not seen join the next level. *)
Definition bfs_visit (adj : dict (dict attrs))
           (acc : list string * list string) (v : string)
  : list string * list string :=
  fold_left (fun a w => if str_in w (fst a) then a
                        else (fst a ++ [w], snd a ++ [w]))
            (dict_keys (adj_of adj v)) acc.

(** The levels of the search up to [cutoff]: the nodes seen, in the order
    in which they are reached. *)
Fixpoint bfs_levels (adj : dict (dict attrs)) (seen thislevel : list string)
         (cutoff : nat) : list string :=
  match cutoff with
  | O => seen
  | S c =>
      match thislevel with
      | [] => seen
      | _ :: _ =>
          let next := fold_left (bfs_visit adj) thislevel (seen, []) in
          bfs_levels adj (fst next) (snd next) c
      end
  end.

(** The keys of [single_source_shortest_path_length(G, source, cutoff)]. *)
Definition single_source_shortest_path_length (g : Graph) (source : string)
           (cutoff : Z) : list string :=
  bfs_levels (_adj g) [source] [source] (Z.to_nat cutoff).

(** [nx.ego_graph(G, n, radius=radius)] *)
Definition ego_graph (g : Graph) (n : string) (radius : Z) : Graph :=
  view_copy (subgraph g (single_source_shortest_path_length g n radius)).

End Views.

(** *** Directed graphs

    [nx.DiGraph] keeps the successors and the predecessors of each node. *)
Record DiGraph : Type := mkDiGraph {
  di_node : dict attrs;
  _succ : dict (dict attrs);
  _pred : dict (dict attrs)
}.

Definition empty_digraph : DiGraph := mkDiGraph [] [] [].

Definition di_add_node (g : DiGraph) (n : string) (attr : attrs) : DiGraph :=
  match dict_get (di_node g) n with
  | None => mkDiGraph (dict_set (di_node g) n (dict_update [] attr))
                      (dict_set (_succ g) n []) (dict_set (_pred g) n [])
  | Some d => mkDiGraph (dict_set (di_node g) n (dict_update d attr))
                        (_succ g) (_pred g)
  end.

Definition di_ensure_node (g : DiGraph) (n : string) : DiGraph :=
  if dict_mem (di_node g) n then g
  else mkDiGraph (dict_set (di_node g) n [])
                 (dict_set (_succ g) n []) (dict_set (_pred g) n []).

Definition di_add_edge (g : DiGraph) (u v : string) (attr : attrs) : DiGraph :=
  let g1 := di_ensure_node (di_ensure_node g u) v in
  let datadict := dict_update (dict_get_default (adj_of (_succ g1) u) v []) attr in
  mkDiGraph (di_node g1)
            (dict_set (_succ g1) u (dict_set (adj_of (_succ g1) u) v datadict))
            (dict_set (_pred g1) v (dict_set (adj_of (_pred g1) v) u datadict)).

Definition di_add_nodes_from (g : DiGraph) (nodes : list (string * attrs)) : DiGraph :=
  fold_left (fun acc nd => di_add_node acc (fst nd) (snd nd)) nodes g.

Definition di_add_edges_from (g : DiGraph)
           (edges : list (string * string * attrs)) : DiGraph :=
  fold_left (fun acc e => di_add_edge acc (fst (fst e)) (snd (fst e)) (snd e)) edges g.

(** [G.edges(data=True)] of a directed graph: every successor of every node. *)
Definition di_edges_data (g : DiGraph) : list (string * string * attrs) :=
  flat_map (fun un => map (fun vd => (fst un, fst vd, snd vd)) (snd un)) (_succ g).

(** A graph of either class, as [_stabilize_graph] receives it. *)
Inductive AnyGraph : Type :=
| Undirected (g : Graph)
| Directed (g : DiGraph).

Definition is_directed (g : AnyGraph) : bool :=
  match g with Undirected _ => false | Directed _ => true end.

(** [G.nodes(data=True)] *)
Definition nodes_data (g : AnyGraph) : list (string * attrs) :=
  match g with Undirected u => _node u | Directed d => di_node d end.

(** [G.edges(data=True)] *)
Definition any_edges_data (g : AnyGraph) : list (string * string * attrs) :=
  match g with Undirected u => edges_data u | Directed d => di_edges_data d end.

(** *** The invariant of the classes

    What every [nx.Graph] satisfies: no node occurs twice, [_adj] has the
    keys of [_node] in the same order, no neighbour occurs twice under a
    node, and an edge is stored under both ends with the same attributes. *)
Definition graph_ok (g : Graph) : Prop :=
  NoDup (dict_keys (_node g))
  /\ dict_keys (_adj g) = dict_keys (_node g)
  /\ (forall u, NoDup (dict_keys (adj_of (_adj g) u)))
  /\ (forall u v, dict_get (adj_of (_adj g) u) v = dict_get (adj_of (_adj g) v) u).

(** The part of the invariant of [nx.DiGraph] that concerns the
    successors: every successor is a node. *)
Definition digraph_ok (g : DiGraph) : Prop :=
  NoDup (dict_keys (di_node g))
  /\ dict_keys (_succ g) = dict_keys (di_node g)
  /\ (forall u, NoDup (dict_keys (adj_of (_succ g) u)))
  /\ (forall u v, In v (dict_keys (adj_of (_succ g) u)) -> In v (dict_keys (di_node g))).

Definition any_graph_ok (g : AnyGraph) : Prop :=
  match g with Undirected u => graph_ok u | Directed d => digraph_ok d end.

(** The invariants as checks. *)
Fixpoint nodupb (l : list string) : bool :=
  match l with
  | [] => true
  | x :: l' => negb (str_in x l') && nodupb l'
  end.

Fixpoint keys_eqb (l1 l2 : list string) : bool :=
  match l1, l2 with
  | [], [] => true
  | x :: l1', y :: l2' => String.eqb x y && keys_eqb l1' l2'
  | _, _ => false
  end.

Fixpoint attrs_eqb (d1 d2 : attrs) : bool :=
  match d1, d2 with
  | [], [] => true
  | (k1, v1) :: d1', (k2, v2) :: d2' =>
      String.eqb k1 k2 && String.eqb v1 v2 && attrs_eqb d1' d2'
  | _, _ => false
  end.

Definition mirroredb (adj : dict (dict attrs)) (u : string) (vd : string * attrs) : bool :=
  match dict_get (adj_of adj (fst vd)) u with
  | Some d => attrs_eqb d (snd vd)
  | None => false
  end.

Definition graph_okb (g : Graph) : bool :=
  nodupb (dict_keys (_node g))
  && keys_eqb (dict_keys (_adj g)) (dict_keys (_node g))
  && forallb (fun un => nodupb (dict_keys (snd un))) (_adj g)
  && forallb (fun un => forallb (mirroredb (_adj g) (fst un)) (snd un)) (_adj g).

Definition digraph_okb (g : DiGraph) : bool :=
  nodupb (dict_keys (di_node g))
  && keys_eqb (dict_keys (_succ g)) (dict_keys (di_node g))
  && forallb (fun un => nodupb (dict_keys (snd un))
                        && forallb (fun v => str_in v (dict_keys (di_node g)))
                                   (dict_keys (snd un)))
             (_succ g).

Definition any_graph_okb (g : AnyGraph) : bool :=
  match g with Undirected u => graph_okb u | Directed d => digraph_okb d end.

(** What [add_edges_from] stores for a list of edges that are all
    different: under the node [n], the other end of every edge at [n];
    under [n] in the successors of a directed graph, the second end of
    every edge that starts at [n].  The attributes are copied into a new
    dictionary. *)
Definition copy_edge_attrs (e : string * string * attrs) : string * string * attrs :=
  (fst e, dict_update [] (snd e)).

Definition incident (n : string) (edges : list (string * string * attrs)) : dict attrs :=
  flat_map (fun e => if String.eqb (fst (fst e)) n
                     then [(snd (fst e), dict_update [] (snd e))]
                     else if String.eqb (snd (fst e)) n
                          then [(fst (fst e), dict_update [] (snd e))]
                          else [])
           edges.

Definition outgoing (n : string) (edges : list (string * string * attrs)) : dict attrs :=
  flat_map (fun e => if String.eqb (fst (fst e)) n
                     then [(snd (fst e), dict_update [] (snd e))]
                     else [])
           edges.

(** The edges grouped by their first end, the groups in the order of the
    nodes [nodes], each group in the order of the list. *)
Definition by_source (nodes : list string) (edges : list (string * string * attrs))
  : list (string * string * attrs) :=
  flat_map (fun n => filter (fun e => String.eqb (fst (fst e)) n) edges) nodes.

(** An edge between nodes of [nodes], and an edge whose first end is not
    after its second end. *)
Definition edge_between (nodes : list string) (e : string * string * attrs) : Prop :=
  In (fst (fst e)) nodes /\ In (snd (fst e)) nodes.

Definition oriented (e : string * string * attrs) : Prop :=
  String.ltb (snd (fst e)) (fst (fst e)) = false.

(** The pair [e] names the edge between [a] and [b], in one orientation
    or the other. *)
Definition names_edge (a b : string) (e : string * string) : bool :=
  (String.eqb a (fst e) && String.eqb b (snd e))
  || (String.eqb a (snd e) && String.eqb b (fst e)).

(** [x] occurs before [y] in [l]. *)
Definition occurs_before (A : Type) (x y : A) (l : list A) : Prop :=
  exists l1 l2 l3, l = l1 ++ x :: l2 ++ y :: l3.

End NX.

(** ** The storage: [NetworkXStorage] *)

Module Storage.
Import NX.

(** Records of [lightrag.types], as the storage fills them. *)
Record KnowledgeGraphNode : Type := mkKGNode {
  node_id : string;
  node_labels : list string;
  node_properties : attrs
}.

Record KnowledgeGraphEdge : Type := mkKGEdge {
  edge_id : string;
  edge_type : string;
  edge_source : string;
  edge_target : string;
  edge_properties : attrs
}.

Record KnowledgeGraph : Type := mkKG {
  kg_nodes : list KnowledgeGraphNode;
  kg_edges : list KnowledgeGraphEdge
}.

(** What [logger] receives. *)
Inductive level : Type := DEBUG | INFO | WARNING | ERROR.

Definition log_record : Type := (level * string)%type.

(** The storage object together with what it shares with its peers: the
    GraphML file of the namespace, here the graph that was last handed to
    [nx.write_graphml] ([None] while the file does not exist), and the
    update flags of the other processes. *)
Record State : Type := mkState {
  _graph : Graph;
  storage_updated : bool;
  graphml_file : option Graph;
  peer_flags : list bool;
  logged : list log_record
}.

(** Concatenation of the pieces of an f-string. *)
Definition fstring (pieces : list string) : string := String.concat EmptyString pieces.

(** *** [_stabilize_graph] *)

Definition _sort_source_target (edge : string * string * attrs)
  : string * string * attrs :=
  let source := fst (fst edge) in
  let target := snd (fst edge) in
  let edge_data := snd edge in
  if String.ltb target source then (target, source, edge_data)
  else (source, target, edge_data).

Definition _get_edge_key (source target : string) : string :=
  fstring [source; " -> "; target].

Definition _stabilize_graph (graph : AnyGraph) : AnyGraph :=
  let sorted_nodes := sorted fst String.ltb false (nodes_data graph) in
  let edges := any_edges_data graph in
  let edges :=
    if negb (is_directed graph) then map _sort_source_target edges else edges in
  let edges :=
    sorted (fun x => _get_edge_key (fst (fst x)) (snd (fst x))) String.ltb false edges in
  match graph with
  | Directed _ =>
      Directed (di_add_edges_from (di_add_nodes_from empty_digraph sorted_nodes) edges)
  | Undirected _ =>
      Undirected (add_edges_from (add_nodes_from empty_graph sorted_nodes) edges)
  end.

(** What the GraphML writer serializes: the class of the graph, its nodes
    and its edges, each with its attributes, in the order of iteration. *)
Definition graphml_content (g : AnyGraph)
  : bool * list (string * attrs) * list (string * string * attrs) :=
  (is_directed g, nodes_data g, any_edges_data g).

(** *** Coroutines *)

Definition M (A : Type) : Type := State -> result A * State.

Definition ret (A : Type) (a : A) : M A := fun st => (Ok a, st).

Definition bind (A B : Type) (m : M A) (f : A -> M B) : M B :=
  fun st =>
    match m st with
    | (Ok a, st') => f a st'
    | (Raise e, st') => (Raise e, st')
    end.

Definition raise (A : Type) (e : exn) : M A := fun st => (Raise e, st).

Definition lift (A : Type) (r : result A) : M A := fun st => (r, st).

(** [st] with a record more in the log, and [st] with [self._graph]
    bound to [g]. *)
Definition with_logged (st : State) (l : level) (message : string) : State :=
  mkState (_graph st) (storage_updated st) (graphml_file st)
          (peer_flags st) (logged st ++ [(l, message)]).

Definition with_graph (st : State) (g : Graph) : State :=
  mkState g (storage_updated st) (graphml_file st) (peer_flags st) (logged st).

Definition logger (l : level) (pieces : list string) : M unit :=
  fun st => (Ok tt, with_logged st l (fstring pieces)).

Definition set_graph (g : Graph) : M unit :=
  fun st => (Ok tt, with_graph st g).

Definition set_storage_updated (b : bool) : M unit :=
  fun st =>
    (Ok tt, mkState (_graph st) b (graphml_file st) (peer_flags st) (logged st)).

Notation "x <- m ;; k" := (bind m (fun x => k))
  (at level 61, m at next level, right associativity).
Notation "m ;;; k" := (bind m (fun _ => k))
  (at level 61, right associativity).

(** Binding of [**kwargs] in a call: a key that names a positional
    parameter of the callee is a [TypeError]. *)
Definition bind_kwargs (A : Type) (params : list string) (kwargs : attrs) (call : A)
  : result A :=
  if existsb (fun k => str_in k params) (dict_keys kwargs)
  then Raise (TypeError "got multiple values for argument")
  else Ok call.

(** A dictionary that can be passed as [**kwargs] to a callee with the
    positional parameters [params]. *)
Definition kwargs_ok (params : list string) (kwargs : attrs) : bool :=
  nodupb (dict_keys kwargs)
  && negb (existsb (fun k => str_in k params) (dict_keys kwargs)).

(** The calls that the pipeline makes on a storage. *)
Inductive operation : Type :=
| HasNode (node_id : string)
| HasEdge (source_node_id target_node_id : string)
| GetNode (node_id : string)
| NodeDegree (node_id : string)
| EdgeDegree (src_id tgt_id : string)
| GetEdge (source_node_id target_node_id : string)
| GetNodeEdges (source_node_id : string)
| UpsertNode (node_id : string) (node_data : attrs)
| UpsertEdge (source_node_id target_node_id : string) (edge_data : attrs)
| DeleteNode (node_id : string)
| RemoveNodes (nodes : list string)
| RemoveEdges (edges : list (string * string))
| GetAllLabels
| GetKnowledgeGraph (node_label : string) (max_depth : Z)
| IndexDoneCallback (write_error : option string).

(** The processes that share a namespace: each has its graph and its flag,
    all have the same file. *)
Record Process : Type := mkProcess {
  proc_graph : Graph;
  proc_flag : bool
}.

Record System : Type := mkSystem {
  sys_file : option Graph;
  sys_procs : list Process
}.

(** The state of the storage of process [i]. *)
Definition sys_view (sys : System) (i : nat) : option State :=
  match nth_error (sys_procs sys) i with
  | Some p =>
      Some (mkState (proc_graph p) (proc_flag p) (sys_file sys)
                    (map proc_flag (firstn i (sys_procs sys) ++ skipn (S i) (sys_procs sys)))
                    [])
  | None => None
  end.

Definition with_flags (procs : list Process) (flags : list bool) : list Process :=
  map (fun pf => mkProcess (proc_graph (fst pf)) (snd pf)) (combine procs flags).

(** The system after process [i] has reached the state [st']. *)
Definition sys_update (sys : System) (i : nat) (st' : State) : System :=
  mkSystem (graphml_file st')
           (with_flags (firstn i (sys_procs sys)) (firstn i (peer_flags st'))
            ++ mkProcess (_graph st') (storage_updated st')
            :: with_flags (skipn (S i) (sys_procs sys)) (skipn i (peer_flags st'))).

Section Namespace.
Variable namespace : string.
Variable _graphml_xml_file : string.
Variable is_multiprocess : bool.
(** The graph that [nx.read_graphml] builds from the file written for a
    graph: the parser and the writer are outside the storage. *)
Variable read_graphml : Graph -> Graph.
Variable set_order : list string -> list string.

(** [load_nx_graph] *)
Definition load_nx_graph (st : State) : option Graph :=
  match graphml_file st with
  | Some written => Some (read_graphml written)
  | None => None
  end.

(** [load_nx_graph(...) or nx.Graph()]: a graph without nodes is false. *)
Definition or_new_graph (loaded : option Graph) : Graph :=
  match loaded with
  | Some g => if (number_of_nodes g =? 0)%nat then empty_graph else g
  | None => empty_graph
  end.

(** [__post_init__] followed by [initialize], on a working directory whose
    file is [file] and with [peers] as the flags of the other processes. *)
Definition post_init (file : option Graph) (peers : list bool) : State :=
  let st := mkState empty_graph false file peers [] in
  let preloaded_graph := load_nx_graph st in
  let message :=
    match preloaded_graph with
    | Some g =>
        fstring ["Loaded graph from "; _graphml_xml_file; " with ";
                 str_of_nat (number_of_nodes g); " nodes, ";
                 str_of_nat (number_of_edges g); " edges"]
    | None => "Created new empty graph"
    end in
  mkState (or_new_graph preloaded_graph) false file peers [(INFO, message)].

(** [_get_graph] *)
Definition _get_graph : M Graph :=
  fun st =>
    if (is_multiprocess && storage_updated st)
       || (negb is_multiprocess && storage_updated st)
    then
      (logger INFO ["Reloading graph for "; namespace;
                    " due to update by another process"] ;;;
       set_graph (or_new_graph (load_nx_graph st)) ;;;
       set_storage_updated false ;;;
       ret (or_new_graph (load_nx_graph st))) st
    else (Ok (_graph st), st).

Definition has_node (node_id : string) : M bool :=
  graph <- _get_graph ;;
  ret (NX.has_node graph node_id).

Definition has_edge (source_node_id target_node_id : string) : M bool :=
  graph <- _get_graph ;;
  ret (NX.has_edge graph source_node_id target_node_id).

Definition get_node (node_id : string) : M (option attrs) :=
  graph <- _get_graph ;;
  ret (nodes_get graph node_id).

Definition node_degree (node_id : string) : M degree_value :=
  graph <- _get_graph ;;
  ret (degree_call graph node_id).

Definition edge_degree (src_id tgt_id : string) : M nat :=
  graph <- _get_graph ;;
  lift (degree_add (degree_call graph src_id) (degree_call graph tgt_id)).

Definition get_edge (source_node_id target_node_id : string) : M (option attrs) :=
  graph <- _get_graph ;;
  lift (edges_get graph source_node_id target_node_id).

Definition get_node_edges (source_node_id : string)
  : M (option (list (string * string))) :=
  graph <- _get_graph ;;
  if NX.has_node graph source_node_id
  then ret (Some (edges_of graph source_node_id))
  else ret None.

Definition upsert_node (node_id : string) (node_data : attrs) : M unit :=
  graph <- _get_graph ;;
  graph' <- lift (bind_kwargs ["self"; "node_for_adding"] node_data
                              (add_node graph node_id node_data)) ;;
  set_graph graph'.

Definition upsert_edge (source_node_id target_node_id : string)
           (edge_data : attrs) : M unit :=
  graph <- _get_graph ;;
  graph' <- lift (bind_kwargs ["self"; "u_of_edge"; "v_of_edge"] edge_data
                              (add_edge graph source_node_id target_node_id edge_data)) ;;
  set_graph graph'.

Definition delete_node (node_id : string) : M unit :=
  graph <- _get_graph ;;
  if NX.has_node graph node_id then
    graph' <- lift (remove_node graph node_id) ;;
    set_graph graph' ;;;
    logger DEBUG ["Node "; node_id; " deleted from the graph."]
  else
    logger WARNING ["Node "; node_id; " not found in the graph for deletion."].

(** The loop of [remove_nodes] on the graph that [_get_graph] returned. *)
Fixpoint remove_nodes_loop (nodes : list string) : M unit :=
  match nodes with
  | [] => ret tt
  | node :: rest =>
      (fun st =>
         (if NX.has_node (_graph st) node
          then (graph' <- lift (remove_node (_graph st) node) ;; set_graph graph')
          else ret tt) st) ;;;
      remove_nodes_loop rest
  end.

Definition remove_nodes (nodes : list string) : M unit :=
  _get_graph ;;; remove_nodes_loop nodes.

Fixpoint remove_edges_loop (edges : list (string * string)) : M unit :=
  match edges with
  | [] => ret tt
  | (source, target) :: rest =>
      (fun st =>
         (if NX.has_edge (_graph st) source target
          then (graph' <- lift (remove_edge (_graph st) source target) ;; set_graph graph')
          else ret tt) st) ;;;
      remove_edges_loop rest
  end.

Definition remove_edges (edges : list (string * string)) : M unit :=
  _get_graph ;;; remove_edges_loop edges.

(** [get_all_labels]: the sorted list of the set of the node ids. *)
Definition get_all_labels : M (list string) :=
  graph <- _get_graph ;;
  ret (sorted (fun x => x) String.ltb false
              (set_iter set_order (dict_keys (_node graph)))).

(** *** [get_knowledge_graph] *)

Definition max_graph_nodes : nat := 500.

(** The value of [subgraph] after the check of the number of nodes: the
    graph itself, or the view of it that keeps the top nodes. *)
Inductive Subgraph : Type :=
| Whole (g : Graph)
| Reduced (v : SubgraphView).

(** [sorted(node_degrees.items(), key=lambda x: x[1], reverse=True)[:max_graph_nodes]]
    and the ids of these nodes. *)
Definition top_node_ids (subgraph : Graph) : list string :=
  let node_degrees := dict_update [] (degree_items subgraph) in
  let top_nodes := firstn max_graph_nodes (sorted snd Nat.ltb true node_degrees) in
  map fst top_nodes.

Definition reduce (subgraph : Graph) : Subgraph :=
  if (max_graph_nodes <? number_of_nodes subgraph)%nat
  then Reduced (NX.subgraph subgraph (top_node_ids subgraph))
  else Whole subgraph.

(** [subgraph.nodes()] with [subgraph.nodes[node]] for each node. *)
Definition subgraph_nodes (sub : Subgraph) : list (string * attrs) :=
  match sub with
  | Whole g => _node g
  | Reduced v => view_nodes_data set_order v
  end.

(** [subgraph.edges()] with [subgraph.edges[edge]] for each edge. *)
Definition subgraph_edges (sub : Subgraph) : list (string * string * attrs) :=
  match sub with
  | Whole g => edges_data g
  | Reduced v => view_edges_data set_order v
  end.

(** The loop over the nodes: [seen_nodes] and [result.nodes]. *)
Definition add_result_node (acc : list string * list KnowledgeGraphNode)
           (nd : string * attrs) : list string * list KnowledgeGraphNode :=
  if str_in (fst nd) (fst acc) then acc
  else (fst nd :: fst acc,
        snd acc ++ [mkKGNode (fst nd) [fst nd] (snd nd)]).

(** The loop over the edges: [seen_edges] and [result.edges]. *)
Definition add_result_edge (acc : list string * list KnowledgeGraphEdge)
           (e : string * string * attrs) : list string * list KnowledgeGraphEdge :=
  let source := fst (fst e) in
  let target := snd (fst e) in
  let edge_id := fstring [source; "-"; target] in
  if str_in edge_id (fst acc) then acc
  else (edge_id :: fst acc,
        snd acc ++ [mkKGEdge edge_id "DIRECTED" source target (snd e)]).

Definition project (sub : Subgraph) : KnowledgeGraph :=
  mkKG (snd (fold_left add_result_node (subgraph_nodes sub) ([], [])))
       (snd (fold_left add_result_edge (subgraph_edges sub) ([], []))).

(** [nodes_to_explore]: the nodes whose id contains the label. *)
Definition nodes_to_explore (graph : Graph) (node_label : string) : list string :=
  filter (str_contains node_label) (dict_keys (_node graph)).

(** The candidate subgraph, [None] when no node matches the label. *)
Definition candidate (graph : Graph) (node_label : string) (max_depth : Z)
  : option Graph :=
  if String.eqb node_label "*" then Some (copy graph)
  else
    match nodes_to_explore graph node_label with
    | [] => None
    | start :: _ => Some (ego_graph set_order graph start max_depth)
    end.

Definition get_knowledge_graph (node_label : string) (max_depth : Z)
  : M KnowledgeGraph :=
  graph <- _get_graph ;;
  match candidate graph node_label max_depth with
  | None =>
      logger WARNING ["No nodes found with label "; node_label] ;;;
      ret (mkKG [] [])
  | Some subgraph =>
      (if (max_graph_nodes <? number_of_nodes subgraph)%nat
       then logger INFO ["Reduced graph from "; str_of_nat (number_of_nodes subgraph);
                         " nodes to "; str_of_nat max_graph_nodes;
                         " nodes (depth="; str_of_Z max_depth; ")"]
       else ret tt) ;;;
      let result := project (reduce subgraph) in
      logger INFO ["Subgraph query successful | Node count: ";
                   str_of_nat (List.length (kg_nodes result));
                   " | Edge count: ";
                   str_of_nat (List.length (kg_edges result))] ;;;
      ret result
  end.

(** *** [index_done_callback] *)

(** [write_nx_graph]: [write_error] is the exception that
    [nx.write_graphml] raises in this call, if it raises one; the file is
    then taken to be as it was. *)
Definition write_nx_graph (graph : Graph) (write_error : option string) : M unit :=
  logger INFO ["Writing graph with "; str_of_nat (number_of_nodes graph);
               " nodes, "; str_of_nat (number_of_edges graph); " edges"] ;;;
  match write_error with
  | Some msg => raise unit (IOFailure msg)
  | None =>
      fun st => (Ok tt, mkState (_graph st) (storage_updated st) (Some graph)
                                (peer_flags st) (logged st))
  end.

(** Modelled from the spec: [set_all_update_flags] of
    [lightrag/kg/shared_storage.py], which is not part of the sources at
    hand, marks the flag of every other process of the namespace. *)
Definition set_all_update_flags : M unit :=
  fun st =>
    (Ok tt, mkState (_graph st) (storage_updated st) (graphml_file st)
                    (map (fun _ => true) (peer_flags st)) (logged st)).

(** [try: ... except Exception as e: handler(e)] *)
Definition try_except (A : Type) (body : M A) (handler : exn -> M A) : M A :=
  fun st =>
    match body st with
    | (Ok a, st') => (Ok a, st')
    | (Raise e, st') => handler e st'
    end.

Definition exn_message (e : exn) : string :=
  match e with
  | KeyError m | TypeError m | NetworkXError m | IOFailure m => m
  end.

Definition index_done_callback (write_error : option string) : M bool :=
  fun st =>
    if is_multiprocess && storage_updated st then
      (logger WARNING ["Graph for "; namespace;
                       " was updated by another process, reloading..."] ;;;
       set_graph (or_new_graph (load_nx_graph st)) ;;;
       set_storage_updated false ;;;
       ret false) st
    else
      (graph <- _get_graph ;;
       try_except
         (write_nx_graph graph write_error ;;;
          set_all_update_flags ;;;
          set_storage_updated false ;;;
          ret true)
         (fun e =>
            logger ERROR ["Error saving graph for "; namespace; ": "; exn_message e] ;;;
            ret false)) st.

(** The flag as [_get_graph] reads it in either mode, and the graph that
    [_get_graph] returns: the graph in memory, or the graph of the file
    when the flag is set. *)
Definition stale (st : State) : bool :=
  (is_multiprocess && storage_updated st)
  || (negb is_multiprocess && storage_updated st).

Definition current_graph (st : State) : Graph :=
  if stale st then or_new_graph (load_nx_graph st) else _graph st.

(** The state in which [_get_graph] leaves the storage. *)
Definition refreshed (st : State) : State :=
  if stale st
  then mkState (or_new_graph (load_nx_graph st)) false (graphml_file st)
               (peer_flags st)
               (logged st ++ [(INFO, fstring ["Reloading graph for "; namespace;
                                             " due to update by another process"])])
  else st.

(** *** The processes of a namespace *)

Definition call (op : operation) (st : State) : State :=
  match op with
  | HasNode n => snd (has_node n st)
  | HasEdge s t => snd (has_edge s t st)
  | GetNode n => snd (get_node n st)
  | NodeDegree n => snd (node_degree n st)
  | EdgeDegree s t => snd (edge_degree s t st)
  | GetEdge s t => snd (get_edge s t st)
  | GetNodeEdges n => snd (get_node_edges n st)
  | UpsertNode n d => snd (upsert_node n d st)
  | UpsertEdge s t d => snd (upsert_edge s t d st)
  | DeleteNode n => snd (delete_node n st)
  | RemoveNodes l => snd (remove_nodes l st)
  | RemoveEdges l => snd (remove_edges l st)
  | GetAllLabels => snd (get_all_labels st)
  | GetKnowledgeGraph label depth => snd (get_knowledge_graph label depth st)
  | IndexDoneCallback write_error => snd (index_done_callback write_error st)
  end.

(** A new process creates its storage on the file as it is. *)
Definition sys_spawn (sys : System) : System :=
  let st := post_init (sys_file sys) (map proc_flag (sys_procs sys)) in
  mkSystem (sys_file sys)
           (sys_procs sys ++ [mkProcess (_graph st) (storage_updated st)]).

(** Process [i] makes the call [op]. *)
Definition sys_call (sys : System) (i : nat) (op : operation) : System :=
  match sys_view sys i with
  | Some st => sys_update sys i (call op st)
  | None => sys
  end.

(** The states of the system that the processes can reach from a working
    directory without a file. *)
Inductive sys_reachable : System -> Prop :=
| reach_start : sys_reachable (mkSystem None [])
| reach_spawn (sys : System) :
    sys_reachable sys -> sys_reachable (sys_spawn sys)
| reach_call (sys : System) (i : nat) (op : operation) :
    sys_reachable sys -> sys_reachable (sys_call sys i op).

End Namespace.

End Storage.

(** ** Node embeddings: [embed_nodes] *)

Module Embedding.
Import NX Storage.

(** How a call of [embed_nodes] ends: with a value, with the [ValueError]
    that it raises itself, or with what the embedding raises. *)
Inductive outcome (A : Type) : Type :=
| Returned (a : A)
| ValueError (msg : string)
| Raised (e : exn).
Arguments Returned {A} a.
Arguments ValueError {A} msg.
Arguments Raised {A} e.

Section Algorithms.
Variable namespace : string.
Variable is_multiprocess : bool.
Variable read_graphml : Graph -> Graph.
(** [embed.node2vec_embed(graph, **node2vec_params)] of graspologic, a
    library outside the storage: the embeddings and the nodes of their
    rows, or an exception. *)
Variable Embeddings : Type.
Variable node2vec_embed : Graph -> result (Embeddings * list string).

(** [graph.nodes[node_id]["id"]] *)
Definition node_id_attribute (graph : Graph) (node_id : string) : result string :=
  match dict_get (_node graph) node_id with
  | Some node_data =>
      match dict_get node_data "id" with
      | Some v => Ok v
      | None => Raise (KeyError "id")
      end
  | None => Raise (KeyError node_id)
  end.

(** [[graph.nodes[node_id]["id"] for node_id in nodes]] *)
Fixpoint nodes_ids (graph : Graph) (nodes : list string) : result (list string) :=
  match nodes with
  | [] => Ok []
  | node_id :: rest =>
      match node_id_attribute graph node_id with
      | Ok v =>
          match nodes_ids graph rest with
          | Ok l => Ok (v :: l)
          | Raise e => Raise e
          end
      | Raise e => Raise e
      end
  end.

Definition _node2vec_embed : M (Embeddings * list string) :=
  graph <- _get_graph namespace is_multiprocess read_graphml ;;
  embedded <- lift (node2vec_embed graph) ;;
  ids <- lift (nodes_ids graph (snd embedded)) ;;
  ret (fst embedded, ids).

(** [self._node_embed_algorithms] *)
Definition _node_embed_algorithms : dict (M (Embeddings * list string)) :=
  [("node2vec", _node2vec_embed)].

Definition embed_nodes (algorithm : string)
  : State -> outcome (Embeddings * list string) * State :=
  fun st =>
    match dict_get _node_embed_algorithms algorithm with
    | None =>
        (ValueError (fstring ["Node embedding algorithm "; algorithm; " not supported"]),
         st)
    | Some embed =>
        match embed st with
        | (Ok r, st') => (Returned r, st')
        | (Raise e, st') => (Raised e, st')
        end
    end.

End Algorithms.

End Embedding.

(** ** Example states *)

Module Examples.
Import NX Storage.

(** A reader that returns the graph that was written. *)
Definition read_back (g : Graph) : Graph := g.

(** A set that iterates in the order of insertion. *)
Definition insertion_order (l : list string) : list string := l.

Definition run (A : Type) (m : M A) (st : State) : State := snd (m st).

(** A storage on an empty working directory, with one peer. *)
Definition fresh : State := post_init "graph_ns.graphml" read_back None [false].

(** The edge [b - a], added in this order. *)
Definition state_ba : State :=
  run (upsert_edge "ns" false read_back "b" "a" []) fresh.

(** Nodes [A], [B], [C] with the edges [A - B] and [B - C]. *)
Definition state_abc : State :=
  run (upsert_edge "ns" false read_back "B" "C" [])
    (run (upsert_edge "ns" false read_back "A" "B" [])
       (run (upsert_node "ns" false read_back "C" [])
          (run (upsert_node "ns" false read_back "B" [])
             (run (upsert_node "ns" false read_back "A" []) fresh)))).

(** A peer has written [state_abc]; this process holds [state_ba] and has
    been notified. *)
Definition state_conflict : State :=
  mkState (_graph state_ba) true (Some (_graph state_abc)) [false] [].

(** Two processes on an empty directory; the first adds the edge [b - a]
    and persists, the second then adds the edge [c - b]. *)
Definition two_processes : System :=
  sys_call "ns" true read_back insertion_order
    (sys_call "ns" true read_back insertion_order
       (sys_call "ns" true read_back insertion_order
          (sys_spawn "graph_ns.graphml" read_back
             (sys_spawn "graph_ns.graphml" read_back (mkSystem None [])))
          0 (UpsertEdge "b" "a" [("weight", "1")]))
       0 (IndexDoneCallback None))
    1 (UpsertEdge "c" "b" []).

(** The storage of the second of them. *)
Definition second_process : State :=
  mkState (add_edge (add_edge empty_graph "b" "a" [("weight", "1")]) "c" "b" [])
          false
          (Some (add_edge empty_graph "b" "a" [("weight", "1")]))
          [false] [].

(** What [get_knowledge_graph] returns for the whole of [state_abc]. *)
Definition abc_result : KnowledgeGraph :=
  mkKG [mkKGNode "A" ["A"] []; mkKGNode "B" ["B"] []; mkKGNode "C" ["C"] []]
       [mkKGEdge "A-B" "DIRECTED" "A" "B" []; mkKGEdge "B-C" "DIRECTED" "B" "C" []].

(** 501 nodes, named by the numbers from 0 to 500, and one edge between
    the last two of them. *)
Definition many_nodes : Graph :=
  add_edge (add_nodes_from empty_graph (map (fun i => (str_of_nat i, [])) (seq 0 501)))
           "500" "499" [].

Definition state_many : State := mkState many_nodes false None [] [].

(** A directed graph with the edges [b -> a] and [a -> b], added in this
    order. *)
Definition digraph_ba : DiGraph :=
  di_add_edges_from empty_digraph
    [("b", "a", [("weight", "1")]); ("a", "b", [("weight", "2")])].

(** The nodes [a] and [b], each with an ["id"], and the edge from [a] to
    the new node [c]. *)
Definition state_ids : State :=
  run (upsert_edge "ns" false read_back "a" "c" [("weight", "1")])
    (run (upsert_node "ns" false read_back "b" [("id", "B")])
       (run (upsert_node "ns" false read_back "a" [("id", "A"); ("kind", "x")]) fresh)).

(** An embedding of one row per node, in the order of the nodes. *)
Definition row_per_node (g : Graph) : result (list nat * list string) :=
  Ok (map (fun n => String.length n) (dict_keys (_node g)), dict_keys (_node g)).

(** The edge [a - b], added in this order. *)
Definition graph_ab : Graph := add_edge empty_graph "a" "b" [].

(** The same as [state_ids], with the update flag set and a file that
    holds the graph of [state_abc]. *)
Definition state_notified : State :=
  mkState (_graph state_ids) true (Some (_graph state_abc)) [false] [].

End Examples.

(** * Properties *)

(** ** Dictionaries *)

Module PyFacts.

Lemma str_in_iff (x : string) (l : list string) : str_in x l = true <-> In x l.
Proof.
  unfold str_in. rewrite existsb_exists. split.
  - intros [y [Hy E]]. apply String.eqb_eq in E. now subst.
  - intros H. exists x. split; [assumption | apply String.eqb_refl].
Qed.

Lemma str_in_false_iff (x : string) (l : list string) : str_in x l = false <-> ~ In x l.
Proof.
  rewrite <- str_in_iff. destruct (str_in x l); split; congruence.
Qed.

Lemma In_firstn (A : Type) (n : nat) (l : list A) (x : A) :
  In x (firstn n l) -> In x l.
Proof.
  intros H. rewrite <- (firstn_skipn n l). apply in_or_app. now left.
Qed.

Lemma In_skipn (A : Type) (n : nat) (l : list A) (x : A) :
  In x (skipn n l) -> In x l.
Proof.
  intros H. rewrite <- (firstn_skipn n l). apply in_or_app. now right.
Qed.

Section DictFacts.
Variable V : Type.
Implicit Types (d e : dict V) (k : string) (v : V).

Lemma dict_get_set d k v k' :
  dict_get (dict_set d k v) k' = if String.eqb k k' then Some v else dict_get d k'.
Proof.
  induction d as [|[k0 v0] d IH]; simpl.
  - destruct (String.eqb_spec k k'); reflexivity.
  - destruct (String.eqb_spec k0 k) as [->|N]; simpl.
    + destruct (String.eqb_spec k k'); reflexivity.
    + rewrite IH. destruct (String.eqb_spec k0 k') as [->|N'].
      * destruct (String.eqb_spec k k'); [congruence | reflexivity].
      * reflexivity.
Qed.

Lemma dict_mem_set d k v k' :
  dict_mem (dict_set d k v) k' = String.eqb k k' || dict_mem d k'.
Proof.
  unfold dict_mem. rewrite dict_get_set. now destruct (String.eqb k k').
Qed.

Lemma dict_get_del d k k' :
  dict_get (dict_del d k) k' = if String.eqb k k' then None else dict_get d k'.
Proof.
  unfold dict_del. induction d as [|[k0 v0] d IH]; simpl.
  - now destruct (String.eqb k k').
  - destruct (String.eqb_spec k0 k) as [->|N]; simpl.
    + rewrite IH. destruct (String.eqb_spec k k'); reflexivity.
    + rewrite IH. destruct (String.eqb_spec k0 k') as [->|N'].
      * destruct (String.eqb_spec k k'); [congruence | reflexivity].
      * reflexivity.
Qed.

Lemma dict_mem_del d k k' :
  dict_mem (dict_del d k) k' = negb (String.eqb k k') && dict_mem d k'.
Proof.
  unfold dict_mem. rewrite dict_get_del. now destruct (String.eqb k k').
Qed.

Lemma dict_get_In d k v : dict_get d k = Some v -> In (k, v) d.
Proof.
  induction d as [|[k0 v0] d IH]; simpl; [discriminate|].
  destruct (String.eqb_spec k0 k) as [->|N]; intros H.
  - left. congruence.
  - right. auto.
Qed.

Lemma dict_mem_iff d k : dict_mem d k = true <-> In k (dict_keys d).
Proof.
  unfold dict_mem, dict_keys. induction d as [|[k0 v0] d IH]; simpl.
  - split; [discriminate | tauto].
  - destruct (String.eqb_spec k0 k) as [->|N].
    + split; auto.
    + rewrite IH. split; [auto | intros [E|H]; [congruence | assumption]].
Qed.

Lemma dict_get_None_iff d k : dict_get d k = None <-> ~ In k (dict_keys d).
Proof.
  rewrite <- dict_mem_iff. unfold dict_mem.
  destruct (dict_get d k); split; congruence.
Qed.

Lemma dict_get_NoDup_In d k v :
  NoDup (dict_keys d) -> In (k, v) d -> dict_get d k = Some v.
Proof.
  unfold dict_keys. induction d as [|[k0 v0] d IH]; simpl; [tauto|].
  intros ND [E|H]; inversion ND as [|? ? Hn ND']; subst.
  - inversion E; subst. now rewrite String.eqb_refl.
  - destruct (String.eqb_spec k0 k) as [->|N]; [|auto].
    exfalso. apply Hn. change k with (fst (k, v)). now apply in_map.
Qed.

Lemma dict_set_absent d k v : dict_get d k = None -> dict_set d k v = d ++ [(k, v)].
Proof.
  induction d as [|[k0 v0] d IH]; simpl; [reflexivity|].
  destruct (String.eqb k0 k); [discriminate|]. intros H. now rewrite IH.
Qed.

Lemma dict_keys_set_present d k v :
  dict_mem d k = true -> dict_keys (dict_set d k v) = dict_keys d.
Proof.
  unfold dict_mem, dict_keys. induction d as [|[k0 v0] d IH]; simpl; [discriminate|].
  destruct (String.eqb k0 k); simpl; [reflexivity|]. intros H. now rewrite IH.
Qed.

Lemma dict_keys_set d k v :
  dict_keys (dict_set d k v) = if dict_mem d k then dict_keys d else dict_keys d ++ [k].
Proof.
  destruct (dict_mem d k) eqn:E.
  - now apply dict_keys_set_present.
  - unfold dict_mem in E. rewrite dict_set_absent.
    + unfold dict_keys. now rewrite map_app.
    + now destruct (dict_get d k).
Qed.

Lemma dict_keys_del d k :
  dict_keys (dict_del d k) = filter (fun x => negb (String.eqb x k)) (dict_keys d).
Proof.
  unfold dict_keys, dict_del. induction d as [|[k0 v0] d IH]; simpl; [reflexivity|].
  destruct (String.eqb k0 k); simpl; now rewrite IH.
Qed.

Lemma NoDup_keys_set d k v : NoDup (dict_keys d) -> NoDup (dict_keys (dict_set d k v)).
Proof.
  intros ND. rewrite dict_keys_set. destruct (dict_mem d k) eqn:E; [assumption|].
  apply NoDup_app; [assumption | repeat constructor; simpl; tauto |].
  intros x Hx [<-|[]]. apply dict_mem_iff in Hx. congruence.
Qed.

Lemma NoDup_keys_del d k : NoDup (dict_keys d) -> NoDup (dict_keys (dict_del d k)).
Proof.
  intros ND. rewrite dict_keys_del. now apply NoDup_filter.
Qed.

Lemma dict_get_update_other d e k :
  ~ In k (dict_keys e) -> dict_get (dict_update d e) k = dict_get d k.
Proof.
  unfold dict_update. revert d. induction e as [|[k0 v0] e IH]; simpl; intros d H.
  - reflexivity.
  - rewrite IH by tauto. rewrite dict_get_set.
    destruct (String.eqb_spec k0 k); [tauto | reflexivity].
Qed.

Lemma dict_get_update_In d e k v :
  NoDup (dict_keys e) -> In (k, v) e -> dict_get (dict_update d e) k = Some v.
Proof.
  unfold dict_update. revert d. induction e as [|[k0 v0] e IH]; simpl; intros d ND H.
  - tauto.
  - inversion ND as [|? ? Hn ND']; subst. destruct H as [E|H].
    + inversion E; subst. fold (dict_update (dict_set d k v) e).
      rewrite dict_get_update_other by assumption.
      now rewrite dict_get_set, String.eqb_refl.
    + now apply IH.
Qed.

End DictFacts.

End PyFacts.

(** ** [sorted] is a stable sort *)

Module SortedFacts.

(** The order of strings. *)
Lemma compare_as_OT (a b : string) : String.compare a b = String_as_OT.compare a b.
Proof.
  revert b. induction a as [|c a IH]; destruct b as [|d b]; simpl; reflexivity.
Qed.

Lemma ltb_lt (a b : string) : String.ltb a b = true <-> String_as_OT.lt a b.
Proof.
  unfold String.ltb, String_as_OT.lt. rewrite compare_as_OT.
  destruct (String_as_OT.compare a b); split; congruence.
Qed.

Lemma ltb_irrefl (a : string) : String.ltb a a = false.
Proof.
  destruct (String.ltb a a) eqn:E; [|reflexivity].
  apply ltb_lt in E. exfalso. revert E. apply String_as_OT.lt_strorder.
Qed.

Lemma ltb_trans (a b c : string) :
  String.ltb a b = true -> String.ltb b c = true -> String.ltb a c = true.
Proof.
  rewrite !ltb_lt. apply String_as_OT.lt_strorder.
Qed.

Lemma ltb_asym (a b : string) : String.ltb a b = true -> String.ltb b a = false.
Proof.
  intros H. destruct (String.ltb b a) eqn:E; [|reflexivity].
  rewrite <- (ltb_irrefl a). symmetry. eapply ltb_trans; eassumption.
Qed.

Lemma ltb_total (a b : string) :
  String.ltb a b = false -> String.ltb b a = false -> a = b.
Proof.
  unfold String.ltb. rewrite (String.compare_antisym a b).
  destruct (String.compare b a) eqn:E; simpl; try discriminate.
  intros _ _. symmetry. now apply String.compare_eq_iff.
Qed.

Lemma ltb_not_trans (a b c : string) :
  String.ltb b a = false -> String.ltb c b = false -> String.ltb c a = false.
Proof.
  intros H1 H2. destruct (String.ltb c a) eqn:E; [|reflexivity].
  destruct (String.ltb b c) eqn:E'.
  - rewrite <- H1. symmetry. eapply ltb_trans; eassumption.
  - assert (b = c) by now apply ltb_total. subst. congruence.
Qed.

Section Sorting.
Variables (A K : Type) (key : A -> K) (lt : K -> K -> bool) (reverse : bool).

Local Abbreviation before := (strictly_before key lt reverse).
Local Abbreviation insert := (insert_sorted key lt reverse).
Local Abbreviation sort := (sorted key lt reverse).

Local Abbreviation may_precede := (may_precede key lt reverse).

Hypothesis before_asym : forall x y, before x y = true -> before y x = false.
Hypothesis may_precede_trans :
  forall x y z, may_precede x y -> may_precede y z -> may_precede x z.

Lemma insert_sorted_perm (x : A) (l : list A) : Permutation (insert x l) (x :: l).
Proof.
  induction l as [|y l IH]; simpl; [reflexivity|].
  destruct (before y x); [|reflexivity].
  rewrite IH. apply perm_swap.
Qed.

Lemma sorted_perm (l : list A) : Permutation (sort l) l.
Proof.
  induction l as [|x l IH]; simpl; [reflexivity|].
  fold (sort l). rewrite insert_sorted_perm. now apply perm_skip.
Qed.

Lemma insert_strongly_sorted (x : A) (l : list A) :
  StronglySorted may_precede l -> StronglySorted may_precede (insert x l).
Proof.
  induction 1 as [|y l S IH F]; simpl.
  - repeat constructor.
  - destruct (before y x) eqn:E.
    + constructor; [assumption|].
      eapply Permutation_Forall;
        [apply Permutation_sym, insert_sorted_perm|].
      constructor; [now apply before_asym | assumption].
    + constructor; [now constructor|].
      constructor; [exact E|].
      eapply Forall_impl; [|exact F]. intros z Hz.
      eapply may_precede_trans; [exact E | exact Hz].
Qed.

Lemma sorted_strongly_sorted (l : list A) : StronglySorted may_precede (sort l).
Proof.
  induction l as [|x l IH]; simpl; [constructor|].
  now apply insert_strongly_sorted.
Qed.

Lemma insert_at_head (x : A) (l : list A) :
  Forall (may_precede x) l -> insert x l = x :: l.
Proof.
  destruct l as [|y l]; simpl; [reflexivity|].
  intros F. inversion F as [|? ? Hy _]; subst. unfold may_precede in Hy. now rewrite Hy.
Qed.

(** A sorted list is left as it is. *)
Lemma sorted_fixpoint (l : list A) : StronglySorted may_precede l -> sort l = l.
Proof.
  induction 1 as [|x l S IH F]; simpl; [reflexivity|].
  fold (sort l). rewrite IH. now apply insert_at_head.
Qed.

Lemma strongly_sorted_filter (p : A -> bool) (l : list A) :
  StronglySorted may_precede l -> StronglySorted may_precede (filter p l).
Proof.
  induction 1 as [|x l S IH F]; simpl; [constructor|].
  destruct (p x); [|assumption].
  constructor; [assumption|].
  rewrite Forall_forall in *. intros z Hz. apply F.
  apply filter_In in Hz. tauto.
Qed.

Lemma filter_insert (p : A -> bool) (x : A) (l : list A) :
  StronglySorted may_precede l ->
  filter p (insert x l) = if p x then insert x (filter p l) else filter p l.
Proof.
  induction 1 as [|y l S IH F]; simpl.
  - now destruct (p x).
  - destruct (before y x) eqn:E; simpl.
    + rewrite IH. destruct (p y), (p x); simpl; rewrite ?E; reflexivity.
    + destruct (p x) eqn:Px; [|reflexivity].
      symmetry. apply insert_at_head.
      assert (Fx : Forall (may_precede x) (y :: l)).
      { constructor; [exact E|].
        eapply Forall_impl; [|exact F]. intros z Hz.
        eapply may_precede_trans; [exact E | exact Hz]. }
      rewrite Forall_forall in *. intros z Hz. apply Fx.
      change (In z (filter p (y :: l))) in Hz. apply filter_In in Hz. tauto.
Qed.

(** Stability: what [sorted] does to a part of the list selected by a
    predicate is to sort that part. *)
Lemma filter_sorted (p : A -> bool) (l : list A) :
  filter p (sort l) = sort (filter p l).
Proof.
  induction l as [|x l IH]; simpl; [reflexivity|].
  fold (sort l). rewrite filter_insert by apply sorted_strongly_sorted.
  rewrite IH. now destruct (p x).
Qed.

Lemma strongly_sorted_app (l1 l2 : list A) :
  StronglySorted may_precede (l1 ++ l2) ->
  forall x y, In x l1 -> In y l2 -> may_precede x y.
Proof.
  induction l1 as [|a l1 IH]; simpl; intros S x y Hx Hy; [tauto|].
  inversion S as [|? ? S' F]; subst. destruct Hx as [->|Hx].
  - rewrite Forall_forall in F. apply F. apply in_or_app. now right.
  - now apply IH.
Qed.

End Sorting.

(** [sorted] commutes with a map that keeps the keys. *)
Lemma sorted_map (A B K : Type) (key : A -> K) (key' : B -> K)
      (lt : K -> K -> bool) (reverse : bool) (f : A -> B) (l : list A) :
  (forall x, key' (f x) = key x) ->
  map f (sorted key lt reverse l) = sorted key' lt reverse (map f l).
Proof.
  intros H. induction l as [|x l IH]; simpl; [reflexivity|].
  fold (sorted key lt reverse l). fold (sorted key' lt reverse (map f l)).
  rewrite <- IH. generalize (sorted key lt reverse l). clear IH.
  intros s. induction s as [|y s IHs]; simpl; [reflexivity|].
  unfold strictly_before. rewrite !H.
  destruct (if reverse then lt (key x) (key y) else lt (key y) (key x)); simpl;
    now rewrite ?IHs.
Qed.

(** The two orders that the storage sorts by. *)
Lemma ascending_asym (A : Type) (key : A -> string) (x y : A) :
  strictly_before key String.ltb false x y = true ->
  strictly_before key String.ltb false y x = false.
Proof. apply ltb_asym. Qed.

Lemma ascending_trans (A : Type) (key : A -> string) (x y z : A) :
  may_precede key String.ltb false x y -> may_precede key String.ltb false y z ->
  may_precede key String.ltb false x z.
Proof. unfold may_precede, strictly_before. apply ltb_not_trans. Qed.

Lemma descending_asym (A : Type) (key : A -> nat) (x y : A) :
  strictly_before key Nat.ltb true x y = true ->
  strictly_before key Nat.ltb true y x = false.
Proof.
  unfold strictly_before. rewrite Nat.ltb_lt, Nat.ltb_ge. lia.
Qed.

Lemma descending_trans (A : Type) (key : A -> nat) (x y z : A) :
  may_precede key Nat.ltb true x y -> may_precede key Nat.ltb true y z ->
  may_precede key Nat.ltb true x z.
Proof.
  unfold may_precede, strictly_before. rewrite !Nat.ltb_ge. lia.
Qed.

End SortedFacts.

(** ** The graph classes *)

Module NXFacts.
Import NX PyFacts.

Lemma adj_of_set (adj : dict (dict attrs)) (u w : string) (x : dict attrs) :
  adj_of (dict_set adj u x) w = if String.eqb u w then x else adj_of adj w.
Proof.
  unfold adj_of, dict_get_default. rewrite dict_get_set.
  now destruct (String.eqb u w).
Qed.

Lemma adj_of_del (adj : dict (dict attrs)) (u w : string) :
  adj_of (dict_del adj u) w = if String.eqb u w then [] else adj_of adj w.
Proof.
  unfold adj_of, dict_get_default. rewrite dict_get_del.
  now destruct (String.eqb u w).
Qed.

Lemma adj_of_absent (adj : dict (dict attrs)) (u : string) :
  dict_mem adj u = false -> adj_of adj u = [].
Proof.
  unfold adj_of, dict_get_default, dict_mem. now destruct (dict_get adj u).
Qed.

Lemma adj_of_In (adj : dict (dict attrs)) (u : string) (nbrs : dict attrs) :
  NoDup (dict_keys adj) -> In (u, nbrs) adj -> adj_of adj u = nbrs.
Proof.
  intros ND H. unfold adj_of, dict_get_default.
  now rewrite (dict_get_NoDup_In _ _ _ ND H).
Qed.

Lemma neighbour_is_key (adj : dict (dict attrs)) (u v : string) :
  dict_mem (adj_of adj u) v = true -> dict_mem adj u = true.
Proof.
  destruct (dict_mem adj u) eqn:E; [reflexivity|].
  rewrite (adj_of_absent _ _ E). discriminate.
Qed.

Lemma nodupb_sound (l : list string) : nodupb l = true -> NoDup l.
Proof.
  induction l as [|x l IH]; simpl; [constructor|].
  intros H. apply andb_prop in H. destruct H as [H1 H2].
  constructor; [|auto].
  apply str_in_false_iff. now destruct (str_in x l).
Qed.

Lemma keys_eqb_sound (l1 l2 : list string) : keys_eqb l1 l2 = true -> l1 = l2.
Proof.
  revert l2. induction l1 as [|x l1 IH]; destruct l2 as [|y l2]; simpl;
    try discriminate; [reflexivity|].
  intros H. apply andb_prop in H. destruct H as [H1 H2].
  apply String.eqb_eq in H1. subst. f_equal. auto.
Qed.

Lemma attrs_eqb_sound (d1 d2 : attrs) : attrs_eqb d1 d2 = true -> d1 = d2.
Proof.
  revert d2. induction d1 as [|[k1 v1] d1 IH]; destruct d2 as [|[k2 v2] d2]; simpl;
    try discriminate; [reflexivity|].
  intros H. apply andb_prop in H. destruct H as [H H3].
  apply andb_prop in H. destruct H as [H1 H2].
  apply String.eqb_eq in H1, H2. subst. f_equal. auto.
Qed.

(** An entry of [adj_of adj u] lies under an item of [adj]. *)
Lemma adj_of_entry (adj : dict (dict attrs)) (u v : string) (dd : attrs) :
  dict_get (adj_of adj u) v = Some dd ->
  exists nbrs, In (u, nbrs) adj /\ In (v, dd) nbrs.
Proof.
  unfold adj_of, dict_get_default. destruct (dict_get adj u) as [nbrs|] eqn:E.
  - intros H. exists nbrs. split; now apply dict_get_In.
  - discriminate.
Qed.

Lemma graph_okb_sound (g : Graph) : graph_okb g = true -> graph_ok g.
Proof.
  unfold graph_okb, graph_ok. intros H.
  apply andb_prop in H. destruct H as [H H4].
  apply andb_prop in H. destruct H as [H H3].
  apply andb_prop in H. destruct H as [H1 H2].
  split; [now apply nodupb_sound|]. split; [now apply keys_eqb_sound|].
  rewrite forallb_forall in H3, H4.
  assert (Half : forall u v dd, dict_get (adj_of (_adj g) u) v = Some dd ->
                                dict_get (adj_of (_adj g) v) u = Some dd).
  { intros u v dd E. destruct (adj_of_entry _ _ _ E) as [nbrs [Hu Hv]].
    specialize (H4 _ Hu). simpl in H4. rewrite forallb_forall in H4.
    specialize (H4 _ Hv). unfold mirroredb in H4. simpl in H4.
    destruct (dict_get (adj_of (_adj g) v) u) as [d|]; [|discriminate].
    apply attrs_eqb_sound in H4. now subst. }
  split.
  - intros u. unfold adj_of, dict_get_default.
    destruct (dict_get (_adj g) u) as [nbrs|] eqn:E; [|constructor].
    apply nodupb_sound. exact (H3 _ (dict_get_In _ _ E)).
  - intros u v.
    destruct (dict_get (adj_of (_adj g) u) v) as [dd|] eqn:E.
    + symmetry. now apply Half.
    + destruct (dict_get (adj_of (_adj g) v) u) as [dd|] eqn:E'; [|reflexivity].
      apply Half in E'. congruence.
Qed.

Lemma digraph_okb_sound (g : DiGraph) : digraph_okb g = true -> digraph_ok g.
Proof.
  unfold digraph_okb, digraph_ok. intros H.
  apply andb_prop in H. destruct H as [H H3].
  apply andb_prop in H. destruct H as [H1 H2].
  split; [now apply nodupb_sound|]. split; [now apply keys_eqb_sound|].
  rewrite forallb_forall in H3.
  split.
  - intros u. unfold adj_of, dict_get_default.
    destruct (dict_get (_succ g) u) as [nbrs|] eqn:E; [|constructor].
    specialize (H3 _ (dict_get_In _ _ E)). simpl in H3.
    apply andb_prop in H3. apply nodupb_sound. tauto.
  - intros u v. unfold adj_of, dict_get_default.
    destruct (dict_get (_succ g) u) as [nbrs|] eqn:E; [|simpl; tauto].
    specialize (H3 _ (dict_get_In _ _ E)). simpl in H3.
    apply andb_prop in H3. destruct H3 as [_ H3]. rewrite forallb_forall in H3.
    intros Hv. apply str_in_iff. auto.
Qed.

Lemma any_graph_okb_sound (g : AnyGraph) : any_graph_okb g = true -> any_graph_ok g.
Proof.
  destruct g; simpl; [apply graph_okb_sound | apply digraph_okb_sound].
Qed.

(** *** The operations keep the invariant *)

Lemma empty_graph_ok : graph_ok empty_graph.
Proof.
  unfold graph_ok, empty_graph; simpl. repeat split; intros; constructor.
Qed.

Lemma absent_in_adj (g : Graph) (n : string) :
  dict_keys (_adj g) = dict_keys (_node g) ->
  dict_mem (_adj g) n = dict_mem (_node g) n.
Proof.
  intros K. apply eq_true_iff_eq. rewrite !dict_mem_iff. now rewrite K.
Qed.

Lemma ensure_node_adj_of (g : Graph) (n w : string) :
  dict_keys (_adj g) = dict_keys (_node g) ->
  adj_of (_adj (ensure_node g n)) w = adj_of (_adj g) w.
Proof.
  intros K. unfold ensure_node. destruct (dict_mem (_node g) n) eqn:E; [reflexivity|].
  simpl. rewrite adj_of_set. destruct (String.eqb_spec n w) as [<-|]; [|reflexivity].
  symmetry. apply adj_of_absent. now rewrite absent_in_adj.
Qed.

Lemma ensure_node_keys (g : Graph) (n : string) :
  dict_keys (_adj g) = dict_keys (_node g) ->
  dict_keys (_adj (ensure_node g n)) = dict_keys (_node (ensure_node g n)).
Proof.
  intros K. unfold ensure_node. destruct (dict_mem (_node g) n) eqn:E; [assumption|].
  simpl. rewrite !dict_keys_set, absent_in_adj, E by assumption. now rewrite K.
Qed.

Lemma ensure_node_has (g : Graph) (n m : string) :
  dict_mem (_node (ensure_node g n)) m = String.eqb n m || dict_mem (_node g) m.
Proof.
  unfold ensure_node. destruct (dict_mem (_node g) n) eqn:E.
  - destruct (String.eqb_spec n m) as [<-|]; [now rewrite E | reflexivity].
  - simpl. apply dict_mem_set.
Qed.

Lemma ensure_node_ok (g : Graph) (n : string) : graph_ok g -> graph_ok (ensure_node g n).
Proof.
  intros [N [K [D S]]]. unfold graph_ok.
  split; [|split; [now apply ensure_node_keys|split]].
  - unfold ensure_node. destruct (dict_mem (_node g) n); [assumption|].
    simpl. now apply NoDup_keys_set.
  - intros u. now rewrite ensure_node_adj_of.
  - intros u v. now rewrite !ensure_node_adj_of.
Qed.

Lemma add_node_ok (g : Graph) (n : string) (attr : attrs) :
  graph_ok g -> graph_ok (add_node g n attr).
Proof.
  intros [N [K [D S]]]. unfold add_node.
  destruct (dict_get (_node g) n) as [d|] eqn:E; unfold graph_ok; simpl.
  - assert (M : dict_mem (_node g) n = true) by (unfold dict_mem; now rewrite E).
    rewrite dict_keys_set_present by assumption.
    repeat split; auto using NoDup_keys_set.
  - assert (M : dict_mem (_node g) n = false) by (unfold dict_mem; now rewrite E).
    assert (A : forall w, adj_of (dict_set (_adj g) n []) w = adj_of (_adj g) w).
    { intros w. rewrite adj_of_set. destruct (String.eqb_spec n w) as [<-|]; [|reflexivity].
      symmetry. apply adj_of_absent. now rewrite absent_in_adj. }
    split; [now apply NoDup_keys_set|]. split.
    + rewrite !dict_keys_set, absent_in_adj, M by assumption. now rewrite K.
    + split; intros; rewrite ?A; auto.
Qed.

(** The entry of an edge after [add_edge]: the two orientations of the new
    edge carry the merged attributes, every other entry is as before. *)
Lemma add_edge_entry (g : Graph) (u v : string) (attr : attrs) (a b : string) :
  dict_keys (_adj g) = dict_keys (_node g) ->
  dict_get (adj_of (_adj (add_edge g u v attr)) a) b
  = if (String.eqb a u && String.eqb b v) || (String.eqb a v && String.eqb b u)
    then Some (dict_update (dict_get_default (adj_of (_adj g) u) v []) attr)
    else dict_get (adj_of (_adj g) a) b.
Proof.
  intros K. unfold add_edge. cbv zeta. simpl _adj.
  assert (K1 := ensure_node_keys g u K).
  assert (A : forall w, adj_of (_adj (ensure_node (ensure_node g u) v)) w
                        = adj_of (_adj g) w).
  { intros w. rewrite ensure_node_adj_of by assumption. now apply ensure_node_adj_of. }
  rewrite !adj_of_set, !A.
  set (dd := dict_update (dict_get_default (adj_of (_adj g) u) v []) attr).
  rewrite (String.eqb_sym a u), (String.eqb_sym a v),
    (String.eqb_sym b u), (String.eqb_sym b v).
  destruct (String.eqb_spec v a) as [Eva|Nva]; simpl.
  - rewrite dict_get_set. destruct (String.eqb_spec u b) as [Eub|Nub]; simpl.
    + now rewrite orb_true_r.
    + rewrite orb_false_r. subst a.
      destruct (String.eqb_spec u v) as [Euv|Nuv]; simpl.
      * rewrite dict_get_set. subst u. now destruct (String.eqb_spec v b).
      * reflexivity.
  - rewrite orb_false_r. destruct (String.eqb_spec u a) as [Eua|Nua]; simpl.
    + rewrite dict_get_set. subst a. now destruct (String.eqb_spec v b).
    + reflexivity.
Qed.

Lemma add_edge_node (g : Graph) (u v : string) (attr : attrs) :
  _node (add_edge g u v attr) = _node (ensure_node (ensure_node g u) v).
Proof. reflexivity. Qed.

Lemma add_edge_ok (g : Graph) (u v : string) (attr : attrs) :
  graph_ok g -> graph_ok (add_edge g u v attr).
Proof.
  intros G. assert (G2 := ensure_node_ok v (ensure_node_ok u G)).
  destruct G as [N [K [D S]]]. destruct G2 as [N2 [K2 [D2 S2]]].
  assert (A : forall w, adj_of (_adj (ensure_node (ensure_node g u) v)) w
                        = adj_of (_adj g) w).
  { intros w. rewrite ensure_node_adj_of by now apply ensure_node_keys.
    now apply ensure_node_adj_of. }
  assert (Mu : dict_mem (_adj (ensure_node (ensure_node g u) v)) u = true).
  { rewrite absent_in_adj by assumption. rewrite !ensure_node_has.
    rewrite String.eqb_refl. now rewrite orb_true_r. }
  assert (Mv : dict_mem (_adj (ensure_node (ensure_node g u) v)) v = true).
  { rewrite absent_in_adj by assumption. rewrite !ensure_node_has.
    now rewrite String.eqb_refl. }
  split; [exact N2|]. split; [|split].
  - rewrite add_edge_node, <- K2. unfold add_edge. cbv zeta. simpl _adj.
    rewrite dict_keys_set_present.
    + now apply dict_keys_set_present.
    + rewrite dict_mem_set. now rewrite Mv, orb_true_r.
  - intros w. unfold add_edge. cbv zeta. simpl _adj. rewrite !adj_of_set, !A.
    destruct (String.eqb v w).
    + apply NoDup_keys_set. destruct (String.eqb u v); [apply NoDup_keys_set|]; apply D.
    + destruct (String.eqb u w); [apply NoDup_keys_set|]; apply D.
  - intros a b. rewrite !add_edge_entry by assumption. rewrite S.
    rewrite (orb_comm (String.eqb a u && String.eqb b v)).
    rewrite (andb_comm (String.eqb a u)), (andb_comm (String.eqb a v)).
    reflexivity.
Qed.

Lemma add_nodes_from_ok (nodes : list (string * attrs)) (g : Graph) :
  graph_ok g -> graph_ok (add_nodes_from g nodes).
Proof.
  unfold add_nodes_from. revert g.
  induction nodes as [|nd nodes IH]; simpl; intros g G; [assumption|].
  apply IH. now apply add_node_ok.
Qed.

Lemma add_edges_from_ok (edges : list (string * string * attrs)) (g : Graph) :
  graph_ok g -> graph_ok (add_edges_from g edges).
Proof.
  unfold add_edges_from. revert g.
  induction edges as [|e edges IH]; simpl; intros g G; [assumption|].
  apply IH. now apply add_edge_ok.
Qed.

Lemma copy_ok (g : Graph) : graph_ok (copy g).
Proof.
  unfold copy. apply add_edges_from_ok, add_nodes_from_ok, empty_graph_ok.
Qed.

(** *** Queries in terms of the entries of the adjacency *)

Lemma has_edge_entry (g : Graph) (u v : string) :
  has_edge g u v = dict_mem (adj_of (_adj g) u) v.
Proof.
  unfold has_edge, adj_of, dict_get_default. now destruct (dict_get (_adj g) u).
Qed.

Lemma edges_get_entry (g : Graph) (u v : string) :
  edges_get g u v = Ok (dict_get (adj_of (_adj g) u) v).
Proof.
  unfold edges_get, edges_getitem, mapping_get, adj_of, dict_get_default.
  destruct (dict_get (_adj g) u) as [nbrs|]; [|reflexivity].
  now destruct (dict_get nbrs v).
Qed.

Lemma has_edge_sym (g : Graph) (u v : string) :
  graph_ok g -> has_edge g u v = has_edge g v u.
Proof.
  intros [_ [_ [_ S]]]. rewrite !has_edge_entry. unfold dict_mem. now rewrite S.
Qed.

Lemma edges_get_sym (g : Graph) (u v : string) :
  graph_ok g -> edges_get g u v = edges_get g v u.
Proof.
  intros [_ [_ [_ S]]]. rewrite !edges_get_entry. now rewrite S.
Qed.

(** *** Removal *)

Lemma dict_del_del (V : Type) (d : dict V) (k : string) :
  dict_del (dict_del d k) k = dict_del d k.
Proof.
  unfold dict_del. induction d as [|[k0 v0] d IH]; simpl; [reflexivity|].
  destruct (String.eqb k0 k) eqn:E; simpl; [assumption|]. now rewrite E, IH.
Qed.

Lemma remove_edge_spec (g : Graph) (u v : string) :
  graph_ok g -> has_edge g u v = true ->
  exists g',
    remove_edge g u v = Ok g'
    /\ _node g' = _node g
    /\ graph_ok g'
    /\ forall a b,
         dict_get (adj_of (_adj g') a) b
         = if (String.eqb a u && String.eqb b v) || (String.eqb a v && String.eqb b u)
           then None else dict_get (adj_of (_adj g) a) b.
Proof.
  intros [N [K [D S]]] H.
  assert (Hvu : has_edge g v u = true).
  { rewrite has_edge_entry in *. unfold dict_mem in *. now rewrite <- S. }
  unfold has_edge in H, Hvu. unfold remove_edge.
  destruct (dict_get (_adj g) u) as [nbrs_u|] eqn:Eu; [|discriminate].
  destruct (dict_get (_adj g) v) as [nbrs_v|] eqn:Ev; [|discriminate].
  rewrite H.
  assert (Au : adj_of (_adj g) u = nbrs_u)
    by (unfold adj_of, dict_get_default; now rewrite Eu).
  assert (Av : adj_of (_adj g) v = nbrs_v)
    by (unfold adj_of, dict_get_default; now rewrite Ev).
  assert (Mu : dict_mem (_adj g) u = true) by (unfold dict_mem; now rewrite Eu).
  assert (Mv : dict_mem (_adj g) v = true) by (unfold dict_mem; now rewrite Ev).
  destruct (String.eqb_spec u v) as [Euv|Nuv].
  - subst v. eexists. split; [reflexivity|]. split; [reflexivity|].
    assert (E : forall a b,
               dict_get (adj_of (dict_set (_adj g) u (dict_del nbrs_u u)) a) b
               = if (String.eqb a u && String.eqb b u) || (String.eqb a u && String.eqb b u)
                 then None else dict_get (adj_of (_adj g) a) b).
    { intros a b. rewrite adj_of_set, orb_diag, (String.eqb_sym a u), (String.eqb_sym b u).
      destruct (String.eqb_spec u a) as [<-|]; simpl; [|reflexivity].
      rewrite dict_get_del, Au. now destruct (String.eqb u b). }
    split; [|exact E].
    split; [exact N|]. split; [|split]; simpl.
    + now rewrite dict_keys_set_present.
    + intros w. rewrite adj_of_set. destruct (String.eqb u w); [|apply D].
      apply NoDup_keys_del. rewrite <- Au. apply D.
    + intros a b. rewrite !E, S. now rewrite (andb_comm (String.eqb a u)).
  - rewrite dict_get_set. rewrite (proj2 (String.eqb_neq u v) Nuv), Ev, Hvu.
    eexists. split; [reflexivity|]. split; [reflexivity|].
    assert (E : forall a b,
               dict_get (adj_of (dict_set (dict_set (_adj g) u (dict_del nbrs_u v))
                                          v (dict_del nbrs_v u)) a) b
               = if (String.eqb a u && String.eqb b v) || (String.eqb a v && String.eqb b u)
                 then None else dict_get (adj_of (_adj g) a) b).
    { intros a b. rewrite !adj_of_set.
      rewrite (String.eqb_sym a u), (String.eqb_sym a v),
        (String.eqb_sym b u), (String.eqb_sym b v).
      destruct (String.eqb_spec v a) as [<-|Nva]; simpl.
      - rewrite (proj2 (String.eqb_neq u v) Nuv). simpl.
        rewrite dict_get_del, Av. now destruct (String.eqb u b).
      - rewrite orb_false_r. destruct (String.eqb_spec u a) as [<-|Nua]; simpl; [|reflexivity].
        rewrite dict_get_del, Au. now destruct (String.eqb v b). }
    split; [|exact E].
    split; [exact N|]. split; [|split]; simpl.
    + rewrite dict_keys_set_present.
      * now rewrite dict_keys_set_present.
      * rewrite dict_mem_set. now rewrite Mv, orb_true_r.
    + intros w. rewrite !adj_of_set.
      destruct (String.eqb v w).
      * apply NoDup_keys_del. rewrite <- Av. apply D.
      * destruct (String.eqb u w); [|apply D].
        apply NoDup_keys_del. rewrite <- Au. apply D.
    + intros a b. rewrite !E, S.
      rewrite (orb_comm (String.eqb a u && String.eqb b v)).
      rewrite (andb_comm (String.eqb a u)), (andb_comm (String.eqb a v)).
      reflexivity.
Qed.

(** The loop of [remove_node] over the neighbours of [n]. *)
Lemma strip_neighbours (n : string) (nbrs : list string) (adj : dict (dict attrs)) :
  (forall w, In w nbrs -> dict_mem adj w = true) ->
  let adj' := fold_left (fun adj u => dict_set adj u (dict_del (adj_of adj u) n))
                        nbrs adj in
  dict_keys adj' = dict_keys adj
  /\ forall w, adj_of adj' w
               = if str_in w nbrs then dict_del (adj_of adj w) n else adj_of adj w.
Proof.
  revert adj. induction nbrs as [|x nbrs IH]; intros adj H; simpl.
  - split; [reflexivity | intros w; reflexivity].
  - specialize (IH (dict_set adj x (dict_del (adj_of adj x) n))).
    destruct IH as [K A].
    { intros w Hw. rewrite dict_mem_set. rewrite (H w) by now right.
      apply orb_true_r. }
    split.
    + rewrite K. apply dict_keys_set_present. apply H. now left.
    + intros w. rewrite A, adj_of_set. rewrite (String.eqb_sym w x).
      destruct (String.eqb_spec x w) as [<-|Nxw]; simpl; [|reflexivity].
      rewrite dict_del_del. now destruct (str_in x nbrs).
Qed.

Lemma remove_node_spec (g : Graph) (n : string) :
  graph_ok g -> has_node g n = true ->
  exists g',
    remove_node g n = Ok g'
    /\ _node g' = dict_del (_node g) n
    /\ graph_ok g'
    /\ forall a b,
         dict_get (adj_of (_adj g') a) b
         = if String.eqb a n || String.eqb b n
           then None else dict_get (adj_of (_adj g) a) b.
Proof.
  intros [N [K [D S]]] H. unfold has_node in H. unfold remove_node.
  assert (Ma : dict_mem (_adj g) n = true) by now rewrite absent_in_adj.
  unfold dict_mem in H, Ma.
  destruct (dict_get (_adj g) n) as [nbrs|] eqn:En; [|discriminate].
  destruct (dict_get (_node g) n) as [d|] eqn:Ed; [|discriminate].
  assert (An : adj_of (_adj g) n = nbrs)
    by (unfold adj_of, dict_get_default; now rewrite En).
  destruct (@strip_neighbours n (dict_keys nbrs) (_adj g)) as [K1 A1].
  { intros w Hw. apply dict_mem_iff in Hw. rewrite <- An in Hw.
    unfold dict_mem in Hw. rewrite S in Hw. now apply neighbour_is_key with (v := n). }
  eexists. split; [reflexivity|]. split; [reflexivity|].
  set (adj1 := fold_left _ _ _) in *.
  assert (E : forall a b,
             dict_get (adj_of (dict_del adj1 n) a) b
             = if String.eqb a n || String.eqb b n
               then None else dict_get (adj_of (_adj g) a) b).
  { intros a b. rewrite adj_of_del, A1, (String.eqb_sym a n), (String.eqb_sym b n).
    destruct (String.eqb_spec n a) as [<-|Nna]; simpl; [reflexivity|].
    destruct (str_in a (dict_keys nbrs)) eqn:Ia.
    - rewrite dict_get_del. now destruct (String.eqb n b).
    - destruct (String.eqb_spec n b) as [<-|Nnb]; [|reflexivity].
      rewrite S, An. apply dict_get_None_iff. now apply str_in_false_iff. }
  split; [|exact E].
  split; [|split; [|split]]; simpl.
  - now apply NoDup_keys_del.
  - rewrite !dict_keys_del, K1. now rewrite K.
  - intros w. rewrite adj_of_del, A1.
    destruct (String.eqb n w); [constructor|].
    destruct (str_in w (dict_keys nbrs)); [apply NoDup_keys_del|]; apply D.
  - intros a b. rewrite !E, S. now rewrite orb_comm.
Qed.

End NXFacts.

(** ** The coherence protocol *)

Module CoherenceFacts.
Import NX Storage Examples.

Section Coherence.
Variable namespace : string.
Variable is_multiprocess : bool.
Variable read_graphml : Graph -> Graph.

Lemma stale_flag (st : State) : stale is_multiprocess st = storage_updated st.
Proof.
  unfold stale. now destruct is_multiprocess, (storage_updated st).
Qed.

Lemma get_graph_eq (st : State) :
  _get_graph namespace is_multiprocess read_graphml st
  = (Ok (current_graph is_multiprocess read_graphml st),
     refreshed namespace is_multiprocess read_graphml st).
Proof.
  unfold _get_graph, current_graph, refreshed. fold (stale is_multiprocess st).
  destruct (stale is_multiprocess st); reflexivity.
Qed.

Lemma refreshed_graph (st : State) :
  _graph (refreshed namespace is_multiprocess read_graphml st)
  = current_graph is_multiprocess read_graphml st.
Proof.
  unfold refreshed, current_graph. now destruct (stale is_multiprocess st).
Qed.

Lemma refreshed_flag (st : State) :
  storage_updated (refreshed namespace is_multiprocess read_graphml st) = false.
Proof.
  unfold refreshed. destruct (stale is_multiprocess st) eqn:E; [reflexivity|].
  now rewrite stale_flag in E.
Qed.

Lemma refreshed_file (st : State) :
  graphml_file (refreshed namespace is_multiprocess read_graphml st) = graphml_file st.
Proof.
  unfold refreshed. now destruct (stale is_multiprocess st).
Qed.

Lemma refreshed_peers (st : State) :
  peer_flags (refreshed namespace is_multiprocess read_graphml st) = peer_flags st.
Proof.
  unfold refreshed. now destruct (stale is_multiprocess st).
Qed.

Lemma current_graph_fresh (st : State) :
  storage_updated st = false ->
  current_graph is_multiprocess read_graphml st = _graph st.
Proof.
  intros H. unfold current_graph. now rewrite stale_flag, H.
Qed.

Lemma current_graph_refreshed (st : State) :
  current_graph is_multiprocess read_graphml
    (refreshed namespace is_multiprocess read_graphml st)
  = current_graph is_multiprocess read_graphml st.
Proof.
  rewrite current_graph_fresh by apply refreshed_flag. apply refreshed_graph.
Qed.

End Coherence.

(** C1, as amended.  When [index_done_callback] reports success, the graph
    that it handed to the writer of the file is the graph that
    [_get_graph] returned, the current graph in memory, as it is: nothing
    is stabilized on the way to the file. *)
Theorem index_done_callback_writes_current_graph :
  forall (namespace : string) (is_multiprocess : bool)
         (read_graphml : Graph -> Graph)
         (write_error : option string) (st st' : State),
    index_done_callback namespace is_multiprocess read_graphml write_error st
    = (Ok true, st') ->
    graphml_file st' = Some (current_graph is_multiprocess read_graphml st)
    /\ _graph st' = current_graph is_multiprocess read_graphml st.
Proof.
  intros ns mp rg we st st'. unfold index_done_callback.
  destruct (mp && storage_updated st) eqn:C.
  - unfold bind, logger, set_graph, set_storage_updated, ret. simpl. discriminate.
  - unfold bind at 1. rewrite get_graph_eq.
    unfold try_except, write_nx_graph, bind, logger, set_all_update_flags,
      set_storage_updated, ret, raise.
    destruct we as [msg|]; simpl; intros H; inversion H; subst; clear H; simpl.
    split; [reflexivity | apply refreshed_graph].
Qed.

Lemma index_done_callback_writes_current_graph_witness :
  index_done_callback "ns" false read_back None state_ba
  = (Ok true, snd (index_done_callback "ns" false read_back None state_ba))
  /\ graphml_file (snd (index_done_callback "ns" false read_back None state_ba))
     = Some (current_graph false read_back state_ba)
  /\ _graph (snd (index_done_callback "ns" false read_back None state_ba))
     = current_graph false read_back state_ba.
Proof.
  split; [reflexivity|].
  apply (@index_done_callback_writes_current_graph
           "ns" false read_back None state_ba).
  reflexivity.
Defined.

(** C1 as it is stated fails: the storage that holds the edge [b - a],
    with [b] added first, persists with success, and the file receives the
    nodes in the order [b], [a], where [_stabilize_graph] has them sorted. *)
Lemma index_done_callback_does_not_stabilize :
  fst (index_done_callback "ns" false read_back None state_ba) = Ok true
  /\ option_map (fun written => graphml_content (Undirected written))
        (graphml_file (snd (index_done_callback "ns" false read_back None state_ba)))
     <> Some (graphml_content (_stabilize_graph (Undirected (_graph state_ba)))).
Proof.
  split; [reflexivity|]. vm_compute. discriminate.
Qed.

(** C2, as amended.  In the mode of several processes, a call of
    [index_done_callback] that finds the flag set writes nothing and
    notifies nobody: it replaces the graph in memory by the graph of the
    file (a new graph when there is no file), clears the flag, logs a
    warning and returns [False]. *)
Theorem index_done_callback_conflict :
  forall (namespace : string) (read_graphml : Graph -> Graph)
         (write_error : option string) (st : State),
    storage_updated st = true ->
    index_done_callback namespace true read_graphml write_error st
    = (Ok false,
       mkState (or_new_graph (load_nx_graph read_graphml st)) false
               (graphml_file st) (peer_flags st)
               (logged st
                ++ [(WARNING, fstring ["Graph for "; namespace;
                                       " was updated by another process, reloading..."])])).
Proof.
  intros ns rg we st H. unfold index_done_callback. rewrite H. reflexivity.
Qed.

Lemma index_done_callback_conflict_witness :
  storage_updated state_conflict = true
  /\ index_done_callback "ns" true read_back None state_conflict
     = (Ok false,
        mkState (_graph state_abc) false (Some (_graph state_abc)) [false]
                [(WARNING, "Graph for ns was updated by another process, reloading...")]).
Proof.
  split; [reflexivity|].
  exact (@index_done_callback_conflict "ns" read_back None state_conflict eq_refl).
Defined.

(** C2 as it is stated fails in the mode of a single process: with the
    flag set, the call reloads the graph, then writes it, notifies the
    peers and returns [True]. *)
Lemma index_done_callback_single_process_writes :
  storage_updated state_conflict = true
  /\ fst (index_done_callback "ns" false read_back None state_conflict) = Ok true
  /\ In (INFO, "Writing graph with 3 nodes, 2 edges")
        (logged (snd (index_done_callback "ns" false read_back None state_conflict)))
  /\ peer_flags (snd (index_done_callback "ns" false read_back None state_conflict))
     = [true].
Proof.
  vm_compute. intuition.
Qed.

End CoherenceFacts.

(** ** Queries and updates *)

Module CrudFacts.
Import NX Storage Examples PyFacts NXFacts CoherenceFacts.

Section Crud.
Variable namespace : string.
Variable is_multiprocess : bool.
Variable read_graphml : Graph -> Graph.

Local Abbreviation current := (current_graph is_multiprocess read_graphml).
Local Abbreviation fresh_state := (refreshed namespace is_multiprocess read_graphml).

Lemma has_node_eq (n : string) (st : State) :
  has_node namespace is_multiprocess read_graphml n st
  = (Ok (NX.has_node (current st) n), fresh_state st).
Proof. unfold has_node, bind. now rewrite get_graph_eq. Qed.

Lemma has_edge_eq (u v : string) (st : State) :
  has_edge namespace is_multiprocess read_graphml u v st
  = (Ok (NX.has_edge (current st) u v), fresh_state st).
Proof. unfold has_edge, bind. now rewrite get_graph_eq. Qed.

Lemma get_node_eq (n : string) (st : State) :
  get_node namespace is_multiprocess read_graphml n st
  = (Ok (nodes_get (current st) n), fresh_state st).
Proof. unfold get_node, bind. now rewrite get_graph_eq. Qed.

Lemma get_edge_eq (u v : string) (st : State) :
  get_edge namespace is_multiprocess read_graphml u v st
  = (Ok (dict_get (adj_of (_adj (current st)) u) v), fresh_state st).
Proof.
  unfold get_edge, bind, lift. now rewrite get_graph_eq, edges_get_entry.
Qed.

Lemma get_node_edges_eq (n : string) (st : State) :
  get_node_edges namespace is_multiprocess read_graphml n st
  = (Ok (if NX.has_node (current st) n then Some (edges_of (current st) n) else None),
     fresh_state st).
Proof.
  unfold get_node_edges, bind. rewrite get_graph_eq.
  now destruct (NX.has_node (current st) n).
Qed.

Lemma node_degree_eq (n : string) (st : State) :
  node_degree namespace is_multiprocess read_graphml n st
  = (Ok (degree_call (current st) n), fresh_state st).
Proof. unfold node_degree, bind. now rewrite get_graph_eq. Qed.

Lemma edge_degree_eq (u v : string) (st : State) :
  edge_degree namespace is_multiprocess read_graphml u v st
  = (degree_add (degree_call (current st) u) (degree_call (current st) v),
     fresh_state st).
Proof. unfold edge_degree, bind, lift. now rewrite get_graph_eq. Qed.

(** The queries that answer with a marker when a node or an edge is
    absent: whatever the state and the ids, they return. *)
Lemma soft_queries_return (st : State) (a b : string) :
  (exists r, fst (has_node namespace is_multiprocess read_graphml a st) = Ok r)
  /\ (exists r, fst (has_edge namespace is_multiprocess read_graphml a b st) = Ok r)
  /\ (exists r, fst (get_node namespace is_multiprocess read_graphml a st) = Ok r)
  /\ (exists r, fst (get_edge namespace is_multiprocess read_graphml a b st) = Ok r)
  /\ (exists r, fst (get_node_edges namespace is_multiprocess read_graphml a st) = Ok r)
  /\ (exists r, fst (node_degree namespace is_multiprocess read_graphml a st) = Ok r).
Proof.
  rewrite has_node_eq, has_edge_eq, get_node_eq, get_edge_eq, get_node_edges_eq,
    node_degree_eq.
  repeat split; eexists; reflexivity.
Qed.

(** For a node that is absent they return the marker. *)
Lemma soft_queries_absent (st : State) (a b : string) :
  graph_ok (current st) ->
  NX.has_node (current st) a = false ->
  fst (has_node namespace is_multiprocess read_graphml a st) = Ok false
  /\ fst (has_edge namespace is_multiprocess read_graphml a b st) = Ok false
  /\ fst (has_edge namespace is_multiprocess read_graphml b a st) = Ok false
  /\ fst (get_node namespace is_multiprocess read_graphml a st) = Ok None
  /\ fst (get_edge namespace is_multiprocess read_graphml a b st) = Ok None
  /\ fst (get_edge namespace is_multiprocess read_graphml b a st) = Ok None
  /\ fst (get_node_edges namespace is_multiprocess read_graphml a st) = Ok None.
Proof.
  intros G H. assert (G' := G). destruct G' as [N [K [D S]]].
  rewrite !has_node_eq, !has_edge_eq, !get_node_eq, !get_edge_eq, !get_node_edges_eq.
  simpl. rewrite H.
  assert (A : adj_of (_adj (current st)) a = []).
  { apply adj_of_absent. now rewrite absent_in_adj. }
  rewrite (has_edge_sym b a G), has_edge_entry, (S b a), A.
  unfold nodes_get. unfold NX.has_node, dict_mem in H.
  destruct (dict_get (_node (current st)) a); [discriminate|].
  repeat split.
Qed.

(** [graph.degree(n)] is not an [int] when [n] is not a node, and the sum
    in [edge_degree] is then a [TypeError]. *)
Lemma edge_degree_absent (st : State) (a b : string) :
  graph_ok (current st) ->
  NX.has_node (current st) a = false \/ NX.has_node (current st) b = false ->
  exists msg,
    fst (edge_degree namespace is_multiprocess read_graphml a b st)
    = Raise (TypeError msg).
Proof.
  intros [N [K [D S]]] H. rewrite edge_degree_eq. simpl.
  unfold degree_call. rewrite !absent_in_adj by assumption.
  unfold NX.has_node in H.
  destruct (dict_mem (_node (current st)) a), (dict_mem (_node (current st)) b);
    simpl; destruct H; try discriminate; eexists; reflexivity.
Qed.

Lemma upsert_edge_eq (s t : string) (edge_data : attrs) (st : State) :
  upsert_edge namespace is_multiprocess read_graphml s t edge_data st
  = match bind_kwargs ["self"; "u_of_edge"; "v_of_edge"] edge_data
                      (add_edge (current st) s t edge_data) with
    | Ok g' => (Ok tt, with_graph (fresh_state st) g')
    | Raise e => (Raise e, fresh_state st)
    end.
Proof.
  unfold upsert_edge, bind, lift, set_graph. rewrite get_graph_eq.
  now destruct (bind_kwargs _ edge_data _).
Qed.

Lemma upsert_node_eq (n : string) (node_data : attrs) (st : State) :
  upsert_node namespace is_multiprocess read_graphml n node_data st
  = match bind_kwargs ["self"; "node_for_adding"] node_data
                      (add_node (current st) n node_data) with
    | Ok g' => (Ok tt, with_graph (fresh_state st) g')
    | Raise e => (Raise e, fresh_state st)
    end.
Proof.
  unfold upsert_node, bind, lift, set_graph. rewrite get_graph_eq.
  now destruct (bind_kwargs _ node_data _).
Qed.

Lemma kwargs_ok_binds (A : Type) (params : list string) (kwargs : attrs) (x : A) :
  kwargs_ok params kwargs = true -> bind_kwargs params kwargs x = Ok x.
Proof.
  unfold kwargs_ok, bind_kwargs. intros H. apply andb_prop in H.
  destruct H as [_ H]. now destruct (existsb _ _).
Qed.

Lemma current_with_graph (st : State) (g : Graph) :
  current (with_graph (fresh_state st) g) = g.
Proof.
  rewrite current_graph_fresh; [reflexivity|]. simpl. apply refreshed_flag.
Qed.

End Crud.

Lemma add_edge_has_ends (g : Graph) (u v : string) (attr : attrs) :
  NX.has_node (add_edge g u v attr) u = true
  /\ NX.has_node (add_edge g u v attr) v = true.
Proof.
  unfold NX.has_node. rewrite add_edge_node, !ensure_node_has, !String.eqb_refl.
  split; [apply orb_true_r | reflexivity].
Qed.

Lemma add_edge_new_end (g : Graph) (u v n : string) (attr : attrs) :
  n = u \/ n = v -> NX.has_node g n = false ->
  nodes_get (add_edge g u v attr) n = Some [].
Proof.
  unfold NX.has_node, nodes_get. rewrite add_edge_node. intros Hn H.
  assert (E : dict_get (_node (ensure_node g n)) n = Some []).
  { unfold ensure_node. rewrite H. simpl. now rewrite dict_get_set, String.eqb_refl. }
  assert (Keep : forall h m, dict_get (_node h) n = Some [] ->
                             dict_get (_node (ensure_node h m)) n = Some []).
  { intros h m Hh. unfold ensure_node. destruct (dict_mem (_node h) m) eqn:M; [assumption|].
    simpl. rewrite dict_get_set. destruct (String.eqb_spec m n) as [->|]; [|assumption].
    unfold dict_mem in M. now rewrite Hh in M. }
  destruct Hn as [->| ->].
  - now apply Keep.
  - destruct (String.eqb_spec u v) as [->|Nuv].
    + now apply Keep.
    + unfold ensure_node at 1.
      assert (M : dict_mem (_node (ensure_node g u)) v = false).
      { rewrite ensure_node_has, H. now rewrite (proj2 (String.eqb_neq u v) Nuv). }
      rewrite M. simpl. now rewrite dict_get_set, String.eqb_refl.
Qed.

Lemma add_edge_carries (g : Graph) (u v : string) (attr : attrs) :
  exists old,
    dict_get (adj_of (_adj (add_edge g u v attr)) u) v = Some (dict_update old attr).
Proof.
  exists (dict_get_default (adj_of (_adj (ensure_node (ensure_node g u) v)) u) v []).
  unfold add_edge. cbv zeta. simpl _adj. rewrite !adj_of_set.
  destruct (String.eqb_spec v u) as [->|Nvu].
  - now rewrite dict_get_set, String.eqb_refl.
  - rewrite String.eqb_refl. now rewrite dict_get_set, String.eqb_refl.
Qed.

(** C9.  [upsert_edge(s, t, attrs)] returns, and after it both ends are
    nodes, an end that was not a node has no attributes, the edge is there
    and has every attribute of [attrs].  [attrs] is a dictionary that the
    call of [add_edge] accepts as keyword arguments. *)
Theorem upsert_edge_creates_endpoints :
  forall (namespace : string) (is_multiprocess : bool)
         (read_graphml : Graph -> Graph)
         (st : State) (s t : string) (edge_data : attrs),
    kwargs_ok ["self"; "u_of_edge"; "v_of_edge"] edge_data = true ->
    let before := current_graph is_multiprocess read_graphml st in
    let st' := snd (upsert_edge namespace is_multiprocess read_graphml s t edge_data st) in
    fst (upsert_edge namespace is_multiprocess read_graphml s t edge_data st) = Ok tt
    /\ fst (has_node namespace is_multiprocess read_graphml s st') = Ok true
    /\ fst (has_node namespace is_multiprocess read_graphml t st') = Ok true
    /\ (NX.has_node before s = false ->
        fst (get_node namespace is_multiprocess read_graphml s st') = Ok (Some []))
    /\ (NX.has_node before t = false ->
        fst (get_node namespace is_multiprocess read_graphml t st') = Ok (Some []))
    /\ fst (has_edge namespace is_multiprocess read_graphml s t st') = Ok true
    /\ exists dd,
        fst (get_edge namespace is_multiprocess read_graphml s t st') = Ok (Some dd)
        /\ forall k v, In (k, v) edge_data -> dict_get dd k = Some v.
Proof.
  intros ns mp rg st s t d H before st'. subst st'.
  rewrite upsert_edge_eq, (@kwargs_ok_binds _ _ _ _ H). simpl.
  rewrite !has_node_eq, !get_node_eq, has_edge_eq, get_edge_eq. simpl.
  rewrite current_with_graph. fold before.
  destruct (add_edge_has_ends before s t d) as [Hs Ht].
  destruct (add_edge_carries before s t d) as [old E].
  split; [reflexivity|]. split; [now rewrite Hs|]. split; [now rewrite Ht|].
  split; [intros A; f_equal; apply add_edge_new_end; auto|].
  split; [intros A; f_equal; apply add_edge_new_end; auto|].
  split.
  - rewrite has_edge_entry. unfold dict_mem. now rewrite E.
  - exists (dict_update old d). split; [now rewrite E|].
    intros k v Hk. apply dict_get_update_In; [|assumption].
    unfold kwargs_ok in H. apply andb_prop in H. apply nodupb_sound. tauto.
Qed.

Lemma upsert_edge_creates_endpoints_witness :
  kwargs_ok ["self"; "u_of_edge"; "v_of_edge"] [("weight", "1")] = true
  /\ fst (upsert_edge "ns" false read_back "A" "Z" [("weight", "1")] state_abc) = Ok tt
  /\ fst (has_node "ns" false read_back "Z"
           (snd (upsert_edge "ns" false read_back "A" "Z" [("weight", "1")] state_abc)))
     = Ok true
  /\ fst (get_node "ns" false read_back "Z"
           (snd (upsert_edge "ns" false read_back "A" "Z" [("weight", "1")] state_abc)))
     = Ok (Some [])
  /\ fst (has_edge "ns" false read_back "A" "Z"
           (snd (upsert_edge "ns" false read_back "A" "Z" [("weight", "1")] state_abc)))
     = Ok true.
Proof.
  split; [reflexivity|].
  destruct (@upsert_edge_creates_endpoints "ns" false read_back state_abc
              "A" "Z" [("weight", "1")] eq_refl)
    as [H1 [_ [H3 [_ [H5 [H6 _]]]]]].
  split; [exact H1|]. split; [exact H3|]. split; [exact (H5 eq_refl)|]. exact H6.
Defined.

(** C6: the code raises where the claim promises a marker.  On the graph
    with the nodes [A], [B], [C], [edge_degree("A", "Z")] adds the degree
    of [A], an [int], and the [DegreeView] that [graph.degree("Z")] is for
    the absent [Z]: a [TypeError]. *)
Theorem edge_degree_of_absent_node_raises :
  fst (edge_degree "ns" false read_back "A" "Z" state_abc)
  = Raise (TypeError "unsupported operand type(s) for +: 'int' and 'DegreeView'")
  /\ fst (node_degree "ns" false read_back "Z" state_abc) = Ok (DegreeView []).
Proof. split; reflexivity. Qed.

(** *** Deletion *)

Section Deletion.
Variable namespace : string.
Variable is_multiprocess : bool.
Variable read_graphml : Graph -> Graph.

Local Abbreviation current := (current_graph is_multiprocess read_graphml).
Local Abbreviation fresh_state := (refreshed namespace is_multiprocess read_graphml).

Lemma delete_node_absent (node_id : string) (st : State) :
  NX.has_node (current st) node_id = false ->
  delete_node namespace is_multiprocess read_graphml node_id st
  = (Ok tt, with_logged (fresh_state st) WARNING
                        (fstring ["Node "; node_id; " not found in the graph for deletion."])).
Proof.
  intros H. unfold delete_node, bind. rewrite get_graph_eq, H. reflexivity.
Qed.

Lemma dict_del_absent (V : Type) (d : dict V) (k : string) :
  dict_mem d k = false -> dict_del d k = d.
Proof.
  unfold dict_del, dict_mem. induction d as [|[k0 v0] d IH]; simpl; [reflexivity|].
  destruct (String.eqb k0 k); simpl; [discriminate|]. intros H. now rewrite IH.
Qed.

Lemma filter_filter (A : Type) (f h : A -> bool) (l : list A) :
  filter f (filter h l) = filter (fun x => h x && f x) l.
Proof.
  induction l as [|x l IH]; simpl; [reflexivity|].
  destruct (h x); simpl; [destruct (f x)|]; now rewrite IH.
Qed.

Lemma absent_node_no_entry (g : Graph) (n a b : string) :
  graph_ok g -> NX.has_node g n = false ->
  (if String.eqb a n || String.eqb b n then None else dict_get (adj_of (_adj g) a) b)
  = dict_get (adj_of (_adj g) a) b.
Proof.
  intros [N [K [D S]]] H.
  assert (A : adj_of (_adj g) n = []) by (apply adj_of_absent; now rewrite absent_in_adj).
  destruct (String.eqb_spec a n) as [->|]; simpl.
  - now rewrite A.
  - destruct (String.eqb_spec b n) as [->|]; [|reflexivity]. now rewrite S, A.
Qed.

Lemma remove_nodes_loop_spec (nodes : list string) (st : State) :
  graph_ok (_graph st) ->
  exists g',
    remove_nodes_loop nodes st = (Ok tt, with_graph st g')
    /\ graph_ok g'
    /\ _node g' = filter (fun kv => negb (str_in (fst kv) nodes)) (_node (_graph st))
    /\ forall a b,
         dict_get (adj_of (_adj g') a) b
         = if str_in a nodes || str_in b nodes
           then None else dict_get (adj_of (_adj (_graph st)) a) b.
Proof.
  revert st. induction nodes as [|x nodes IH]; intros st G.
  - exists (_graph st). simpl. split; [now destruct st|]. split; [assumption|].
    split; [|reflexivity].
    induction (_node (_graph st)) as [|kv l IHl]; simpl; [reflexivity | now f_equal].
  - assert (Step : exists g1,
               (fun st0 : State =>
                  (if NX.has_node (_graph st0) x
                   then bind (lift (remove_node (_graph st0) x)) (fun g => set_graph g)
                   else ret tt) st0) st = (Ok tt, with_graph st g1)
               /\ graph_ok g1
               /\ _node g1 = dict_del (_node (_graph st)) x
               /\ forall a b,
                    dict_get (adj_of (_adj g1) a) b
                    = if String.eqb a x || String.eqb b x
                      then None else dict_get (adj_of (_adj (_graph st)) a) b).
    { destruct (NX.has_node (_graph st) x) eqn:Hx.
      - destruct (@remove_node_spec (_graph st) x G Hx) as [g1 [E [Hn [G1 Hg]]]].
        exists g1. unfold bind, lift, set_graph. rewrite E. auto.
      - exists (_graph st). split; [unfold ret; now destruct st|]. split; [assumption|].
        split; [symmetry; now apply dict_del_absent|].
        intros a b. symmetry. now apply absent_node_no_entry. }
    destruct Step as [g1 [E1 [G1 [N1 A1]]]].
    destruct (IH (with_graph st g1) G1) as [g' [E' [G' [N' A']]]].
    exists g'. simpl remove_nodes_loop. unfold bind at 1. rewrite E1, E'.
    split; [reflexivity|]. split; [assumption|]. split.
    + rewrite N'. simpl _graph. rewrite N1. unfold dict_del. rewrite filter_filter.
      apply filter_ext. intros [k v]. simpl. rewrite negb_orb.
      now rewrite (String.eqb_sym k x).
    + intros a b. rewrite A'. simpl _graph. rewrite A1. simpl.
      destruct (String.eqb a x), (String.eqb b x), (str_in a nodes), (str_in b nodes);
        reflexivity.
Qed.

Lemma absent_edge_no_entry (g : Graph) (e : string * string) (a b : string) :
  graph_ok g -> NX.has_edge g (fst e) (snd e) = false ->
  (if names_edge a b e then None else dict_get (adj_of (_adj g) a) b)
  = dict_get (adj_of (_adj g) a) b.
Proof.
  intros [N [K [D S]]] H. rewrite has_edge_entry in H. unfold dict_mem in H.
  destruct e as [s t]. simpl in H.
  destruct (dict_get (adj_of (_adj g) s) t) eqn:E; [discriminate|].
  unfold names_edge. simpl.
  destruct (String.eqb_spec a s) as [Eas|], (String.eqb_spec b t) as [Ebt|];
    destruct (String.eqb_spec a t) as [Eat|], (String.eqb_spec b s) as [Ebs|];
    simpl; subst; try reflexivity; try (now rewrite E); now rewrite S, E.
Qed.

Lemma remove_edges_loop_spec (edges : list (string * string)) (st : State) :
  graph_ok (_graph st) ->
  exists g',
    remove_edges_loop edges st = (Ok tt, with_graph st g')
    /\ graph_ok g'
    /\ _node g' = _node (_graph st)
    /\ forall a b,
         dict_get (adj_of (_adj g') a) b
         = if existsb (names_edge a b) edges
           then None else dict_get (adj_of (_adj (_graph st)) a) b.
Proof.
  revert st. induction edges as [|[s t] edges IH]; intros st G.
  - exists (_graph st). simpl. split; [now destruct st|]. auto.
  - assert (Step : exists g1,
               (fun st0 : State =>
                  (if NX.has_edge (_graph st0) s t
                   then bind (lift (remove_edge (_graph st0) s t)) (fun g => set_graph g)
                   else ret tt) st0) st = (Ok tt, with_graph st g1)
               /\ graph_ok g1
               /\ _node g1 = _node (_graph st)
               /\ forall a b,
                    dict_get (adj_of (_adj g1) a) b
                    = if names_edge a b (s, t)
                      then None else dict_get (adj_of (_adj (_graph st)) a) b).
    { destruct (NX.has_edge (_graph st) s t) eqn:Hx.
      - destruct (@remove_edge_spec (_graph st) s t G Hx) as [g1 [E [Hn [G1 Hg]]]].
        exists g1. unfold bind, lift, set_graph. rewrite E. auto.
      - exists (_graph st). split; [unfold ret; now destruct st|]. split; [assumption|].
        split; [reflexivity|].
        intros a b. symmetry. now apply absent_edge_no_entry. }
    destruct Step as [g1 [E1 [G1 [N1 A1]]]].
    destruct (IH (with_graph st g1) G1) as [g' [E' [G' [N' A']]]].
    exists g'. simpl remove_edges_loop. unfold bind at 1. rewrite E1, E'.
    split; [reflexivity|]. split; [assumption|]. split.
    + now rewrite N'.
    + intros a b. rewrite A'. simpl _graph. rewrite A1. simpl.
      destruct (names_edge a b (s, t)), (existsb (names_edge a b) edges); reflexivity.
Qed.

End Deletion.

(** C8.  [delete_node] of an id that is not a node returns without an
    error, logs a warning and leaves the graph as [_get_graph] returned
    it.  [remove_nodes] and [remove_edges] return without an error and
    without a log record; after [remove_nodes] the nodes are those that
    are not listed, in their order and with their attributes, and the
    edges are those between them; after [remove_edges] the nodes are as
    before and the edges are those that the list names in neither
    orientation.  Listed entries that are absent change nothing. *)
Theorem deletions_skip_absent_entries :
  forall (namespace : string) (is_multiprocess : bool)
         (read_graphml : Graph -> Graph) (st : State),
    let before := current_graph is_multiprocess read_graphml st in
    let st0 := refreshed namespace is_multiprocess read_graphml st in
    graph_ok before ->
    (forall node_id,
        NX.has_node before node_id = false ->
        delete_node namespace is_multiprocess read_graphml node_id st
        = (Ok tt, with_logged st0 WARNING
                    (fstring ["Node "; node_id; " not found in the graph for deletion."]))
        /\ _graph (snd (delete_node namespace is_multiprocess read_graphml node_id st))
           = before)
    /\ (forall nodes, exists g',
          remove_nodes namespace is_multiprocess read_graphml nodes st
          = (Ok tt, with_graph st0 g')
          /\ _node g' = filter (fun kv => negb (str_in (fst kv) nodes)) (_node before)
          /\ forall a b,
               edges_get g' a b
               = if str_in a nodes || str_in b nodes then Ok None
                 else edges_get before a b)
    /\ (forall edges, exists g',
          remove_edges namespace is_multiprocess read_graphml edges st
          = (Ok tt, with_graph st0 g')
          /\ _node g' = _node before
          /\ forall a b,
               edges_get g' a b
               = if existsb (names_edge a b) edges then Ok None
                 else edges_get before a b).
Proof.
  intros ns mp rg st before st0 G.
  assert (G0 : graph_ok (_graph st0)) by (unfold st0; now rewrite refreshed_graph).
  split; [|split].
  - intros n H. rewrite (delete_node_absent ns mp rg n st H). split; [reflexivity|].
    simpl. apply refreshed_graph.
  - intros nodes. destruct (@remove_nodes_loop_spec nodes st0 G0) as [g' [E [_ [N A]]]].
    exists g'. unfold remove_nodes, bind. rewrite get_graph_eq. fold st0. rewrite E.
    split; [reflexivity|]. unfold st0 in N, A. rewrite refreshed_graph in N, A.
    split; [exact N|].
    intros a b. rewrite !edges_get_entry, A.
    now destruct (str_in a nodes || str_in b nodes).
  - intros edges. destruct (@remove_edges_loop_spec edges st0 G0) as [g' [E [_ [N A]]]].
    exists g'. unfold remove_edges, bind. rewrite get_graph_eq. fold st0. rewrite E.
    split; [reflexivity|]. unfold st0 in N, A. rewrite refreshed_graph in N, A.
    split; [exact N|].
    intros a b. rewrite !edges_get_entry, A.
    now destruct (existsb (names_edge a b) edges).
Qed.

Lemma deletions_skip_absent_entries_witness :
  graph_ok (current_graph false read_back state_abc)
  /\ _graph (snd (delete_node "ns" false read_back "Z" state_abc)) = _graph state_abc
  /\ fst (remove_nodes "ns" false read_back ["B"; "Z"] state_abc) = Ok tt
  /\ fst (remove_edges "ns" false read_back [("C", "B"); ("A", "Z")] state_abc) = Ok tt.
Proof.
  destruct (@deletions_skip_absent_entries "ns" false read_back state_abc
              (@graph_okb_sound (current_graph false read_back state_abc) eq_refl))
    as [D [RN RE]].
  split; [apply graph_okb_sound; reflexivity|].
  split; [exact (proj2 (D "Z" eq_refl))|].
  split.
  - destruct (RN ["B"; "Z"]) as [g' [E _]]. now rewrite E.
  - destruct (RE [("C", "B"); ("A", "Z")]) as [g' [E _]]. now rewrite E.
Defined.

(** *** The processes of a namespace keep their graphs well formed *)

Section Processes.
Variable namespace : string.
Variable _graphml_xml_file : string.
Variable is_multiprocess : bool.
Variable read_graphml : Graph -> Graph.
Variable set_order : list string -> list string.
Hypothesis read_graphml_ok : forall g, graph_ok g -> graph_ok (read_graphml g).

Local Abbreviation current := (current_graph is_multiprocess read_graphml).
Local Abbreviation fresh_state := (refreshed namespace is_multiprocess read_graphml).

Lemma or_new_graph_ok (file : option Graph) :
  (forall g, file = Some g -> graph_ok g) ->
  graph_ok (or_new_graph (option_map read_graphml file)).
Proof.
  intros H. destruct file as [g|]; simpl; [|apply empty_graph_ok].
  destruct (number_of_nodes (read_graphml g) =? 0)%nat; [apply empty_graph_ok|].
  apply read_graphml_ok. now apply H.
Qed.

Lemma load_nx_graph_map (st : State) :
  load_nx_graph read_graphml st = option_map read_graphml (graphml_file st).
Proof. unfold load_nx_graph. now destruct (graphml_file st). Qed.

Lemma current_ok (st : State) :
  graph_ok (_graph st) -> (forall g, graphml_file st = Some g -> graph_ok g) ->
  graph_ok (current st).
Proof.
  intros G F. unfold current_graph. destruct (stale is_multiprocess st); [|assumption].
  rewrite load_nx_graph_map. now apply or_new_graph_ok.
Qed.

(** What a call leaves: a well-formed graph in memory, and in the file. *)
Lemma call_ok (op : operation) (st : State) :
  graph_ok (_graph st) -> (forall g, graphml_file st = Some g -> graph_ok g) ->
  graph_ok (_graph (call namespace is_multiprocess read_graphml set_order op st))
  /\ (forall g,
        graphml_file (call namespace is_multiprocess read_graphml set_order op st) = Some g ->
        graph_ok g).
Proof.
  intros G F. assert (C := current_ok st G F).
  assert (R : graph_ok (_graph (fresh_state st))) by now rewrite refreshed_graph.
  assert (RF : forall g, graphml_file (fresh_state st) = Some g -> graph_ok g)
    by now rewrite refreshed_file.
  destruct op as [n|s t|n|n|s t|s t|n|n d|s t d|n|l|l| |label depth|we]; simpl call.
  - rewrite has_node_eq. auto.
  - rewrite has_edge_eq. auto.
  - rewrite get_node_eq. auto.
  - rewrite node_degree_eq. auto.
  - rewrite edge_degree_eq. auto.
  - rewrite get_edge_eq. auto.
  - rewrite get_node_edges_eq. auto.
  - rewrite upsert_node_eq. destruct (bind_kwargs _ d _) as [g'|e] eqn:E; simpl; [|auto].
    split; [|assumption]. unfold bind_kwargs in E.
    destruct (existsb _ _); inversion E. now apply add_node_ok.
  - rewrite upsert_edge_eq. destruct (bind_kwargs _ d _) as [g'|e] eqn:E; simpl; [|auto].
    split; [|assumption]. unfold bind_kwargs in E.
    destruct (existsb _ _); inversion E. now apply add_edge_ok.
  - unfold delete_node, bind. rewrite get_graph_eq.
    destruct (NX.has_node (current st) n) eqn:H; simpl; [|auto].
    destruct (@remove_node_spec (current st) n C H) as [g' [E [_ [G' _]]]].
    unfold lift. rewrite E. simpl. auto.
  - unfold remove_nodes, bind. rewrite get_graph_eq.
    destruct (@remove_nodes_loop_spec l (fresh_state st) R) as [g' [E [G' _]]].
    rewrite E. simpl. auto.
  - unfold remove_edges, bind. rewrite get_graph_eq.
    destruct (@remove_edges_loop_spec l (fresh_state st) R) as [g' [E [G' _]]].
    rewrite E. simpl. auto.
  - unfold get_all_labels, bind. rewrite get_graph_eq. simpl. auto.
  - unfold get_knowledge_graph, bind. rewrite get_graph_eq.
    destruct (candidate set_order (current st) label depth) as [sub|]; simpl; [|auto].
    destruct (max_graph_nodes <? number_of_nodes sub)%nat; simpl; auto.
  - unfold index_done_callback.
    destruct (is_multiprocess && storage_updated st).
    + simpl. split; [|assumption]. rewrite load_nx_graph_map. now apply or_new_graph_ok.
    + unfold try_except, write_nx_graph, bind, logger, raise.
      rewrite get_graph_eq.
      destruct we; simpl; [auto|].
      split; [assumption|]. intros g E. inversion E. now subst.
Qed.

(** The invariant of the system. *)
Lemma sys_reachable_ok (sys : System) :
  sys_reachable namespace _graphml_xml_file is_multiprocess read_graphml set_order sys ->
  (forall g, sys_file sys = Some g -> graph_ok g)
  /\ Forall (fun p => graph_ok (proc_graph p)) (sys_procs sys).
Proof.
  induction 1 as [|sys R [F P]|sys i op R [F P]].
  - split; [discriminate | constructor].
  - split; [exact F|]. simpl. apply Forall_app. split; [assumption|].
    constructor; [|constructor]. simpl.
    unfold load_nx_graph. simpl. fold (option_map read_graphml (sys_file sys)).
    now apply or_new_graph_ok.
  - unfold sys_call, sys_view.
    destruct (nth_error (sys_procs sys) i) as [p|] eqn:E; [|auto].
    set (st := mkState _ _ _ _ _).
    assert (Gp : graph_ok (proc_graph p)).
    { rewrite Forall_forall in P. apply P. eapply nth_error_In; eassumption. }
    destruct (call_ok op st Gp F) as [G' F'].
    split; [exact F'|]. unfold sys_update. cbn [sys_procs].
    assert (W : forall procs flags,
               (forall q, In q procs -> In q (sys_procs sys)) ->
               Forall (fun q => graph_ok (proc_graph q)) (with_flags procs flags)).
    { intros procs flags Sub. unfold with_flags. rewrite Forall_forall.
      intros q Hq. apply in_map_iff in Hq. destruct Hq as [[q0 f0] [<- Hq]].
      simpl. apply in_combine_l in Hq. rewrite Forall_forall in P. auto. }
    apply Forall_app. split; [|constructor; [exact G'|]]; apply W.
    + intros q Hq. eapply In_firstn; eassumption.
    + intros q Hq. eapply In_skipn; eassumption.
Qed.

End Processes.

(** The two orientations of a pair in a state whose graph is well formed. *)
Lemma symmetric_in_state (namespace : string) (is_multiprocess : bool)
      (read_graphml : Graph -> Graph) (st : State) (a b : string) :
  graph_ok (current_graph is_multiprocess read_graphml st) ->
  fst (has_edge namespace is_multiprocess read_graphml a b st)
  = fst (has_edge namespace is_multiprocess read_graphml b a st)
  /\ fst (get_edge namespace is_multiprocess read_graphml a b st)
     = fst (get_edge namespace is_multiprocess read_graphml b a st)
  /\ (forall edge_data,
        fst (upsert_edge namespace is_multiprocess read_graphml a b edge_data st)
        = Ok tt ->
        fst (has_edge namespace is_multiprocess read_graphml b a
               (snd (upsert_edge namespace is_multiprocess read_graphml
                       a b edge_data st))) = Ok true)
  /\ fst (has_edge namespace is_multiprocess read_graphml b a
            (snd (remove_edges namespace is_multiprocess read_graphml [(a, b)] st)))
     = Ok false
  /\ fst (has_edge namespace is_multiprocess read_graphml a b
            (snd (remove_edges namespace is_multiprocess read_graphml [(a, b)] st)))
     = Ok false.
Proof.
  intros C. assert (C' := C). destruct C' as [N [K [D S]]].
  rewrite !has_edge_eq, !get_edge_eq. simpl.
  split; [f_equal; now apply has_edge_sym|]. split; [now rewrite S|]. split.
  - intros d. rewrite upsert_edge_eq.
    destruct (bind_kwargs _ d _) as [g'|e] eqn:B; cbn [fst snd]; [|discriminate].
    intros _. rewrite has_edge_eq. cbn [fst]. rewrite current_with_graph.
    unfold bind_kwargs in B. destruct (existsb _ _); inversion B.
    rewrite has_edge_entry. unfold dict_mem. rewrite add_edge_entry by assumption.
    now rewrite !String.eqb_refl, orb_true_r.
  - assert (G0 : graph_ok (_graph (refreshed namespace is_multiprocess read_graphml st)))
      by now rewrite refreshed_graph.
    destruct (@remove_edges_loop_spec [(a, b)]
                (refreshed namespace is_multiprocess read_graphml st) G0)
      as [g' [E' [_ [_ A]]]].
    assert (RE : remove_edges namespace is_multiprocess read_graphml [(a, b)] st
                 = (Ok tt, with_graph (refreshed namespace is_multiprocess read_graphml st) g')).
    { unfold remove_edges, bind. now rewrite get_graph_eq, E'. }
    rewrite RE. cbn [snd]. rewrite !current_with_graph.
    rewrite !has_edge_entry. unfold dict_mem. rewrite !A. cbn [existsb].
    unfold names_edge. cbn [fst snd]. rewrite !String.eqb_refl. simpl.
    now rewrite orb_true_r.
Qed.

(** C10.  In every state that the processes of a namespace reach from a
    directory without a file, the storage of each process answers
    [has_edge] and [get_edge] alike for the two orientations of a pair;
    [upsert_edge(a, b, ...)] makes [has_edge(b, a)] true, and
    [remove_edges([(a, b)])] makes both false.  The reader of the file is
    taken to build a well-formed [nx.Graph] from the file written for
    one. *)
Theorem edges_are_symmetric :
  forall (namespace _graphml_xml_file : string) (is_multiprocess : bool)
         (read_graphml : Graph -> Graph) (set_order : list string -> list string),
    (forall g, graph_ok g -> graph_ok (read_graphml g)) ->
    forall (sys : System) (i : nat) (st : State),
      sys_reachable namespace _graphml_xml_file is_multiprocess read_graphml set_order sys ->
      sys_view sys i = Some st ->
      forall a b : string,
        fst (has_edge namespace is_multiprocess read_graphml a b st)
        = fst (has_edge namespace is_multiprocess read_graphml b a st)
        /\ fst (get_edge namespace is_multiprocess read_graphml a b st)
           = fst (get_edge namespace is_multiprocess read_graphml b a st)
        /\ (forall edge_data,
              fst (upsert_edge namespace is_multiprocess read_graphml a b edge_data st)
              = Ok tt ->
              fst (has_edge namespace is_multiprocess read_graphml b a
                     (snd (upsert_edge namespace is_multiprocess read_graphml
                             a b edge_data st))) = Ok true)
        /\ fst (has_edge namespace is_multiprocess read_graphml b a
                  (snd (remove_edges namespace is_multiprocess read_graphml [(a, b)] st)))
           = Ok false
        /\ fst (has_edge namespace is_multiprocess read_graphml a b
                  (snd (remove_edges namespace is_multiprocess read_graphml [(a, b)] st)))
           = Ok false.
Proof.
  intros ns f mp rg so RG sys i st R V a b.
  apply symmetric_in_state.
  destruct (sys_reachable_ok RG R) as [F P].
  unfold sys_view in V. destruct (nth_error (sys_procs sys) i) as [p|] eqn:E; [|discriminate].
  assert (Gp : graph_ok (proc_graph p)).
  { rewrite Forall_forall in P. apply P. eapply nth_error_In; eassumption. }
  inversion V as [V']. apply current_ok; assumption.
Qed.

Lemma edges_are_symmetric_witness :
  sys_reachable "ns" "graph_ns.graphml" true read_back insertion_order two_processes
  /\ sys_view two_processes 1 = Some second_process
  /\ fst (has_edge "ns" true read_back "b" "c" second_process)
     = fst (has_edge "ns" true read_back "c" "b" second_process).
Proof.
  assert (R : sys_reachable "ns" "graph_ns.graphml" true read_back insertion_order
                            two_processes).
  { unfold two_processes.
    apply reach_call, reach_call, reach_call, reach_spawn, reach_spawn, reach_start. }
  assert (V : sys_view two_processes 1 = Some second_process)
    by (vm_compute; reflexivity).
  split; [exact R|]. split; [exact V|].
  exact (proj1 (@edges_are_symmetric "ns" "graph_ns.graphml" true read_back
                  insertion_order (fun g H => H) two_processes 1 second_process
                  R V "b" "c")).
Defined.

End CrudFacts.

(** ** The knowledge graph of a label *)

Module KnowledgeGraphFacts.
Import NX Storage Examples PyFacts SortedFacts NXFacts CoherenceFacts.

(** *** Sets and views *)

Lemma set_iter_perm (set_order : list string -> list string) (l : list string) :
  Permutation (set_iter set_order l) (set_elements l).
Proof.
  unfold set_iter. destruct (is_arrangement _ _) eqn:E; [|reflexivity].
  unfold is_arrangement in E. apply andb_prop in E. destruct E as [E E2].
  apply andb_prop in E. destruct E as [_ E1].
  rewrite forallb_forall in E1, E2.
  apply NoDup_Permutation; try apply NoDup_nodup.
  intros x. split; intros H; apply str_in_iff; auto.
Qed.

Lemma set_elements_In (l : list string) (x : string) : In x (set_elements l) <-> In x l.
Proof. apply nodup_In. Qed.

Lemma set_iter_In (set_order : list string -> list string) (l : list string) (x : string) :
  In x (set_iter set_order l) <-> In x l.
Proof.
  rewrite <- (set_elements_In l x). split; apply Permutation_in;
    [|apply Permutation_sym]; apply set_iter_perm.
Qed.

Section ViewFacts.
Variable set_order : list string -> list string.
Variable V : Type.

Lemma view_keys_shown (v : SubgraphView) (atlas : dict V) (x : string) :
  In x (view_keys set_order v atlas) ->
  In x (view_shown v) /\ dict_mem atlas x = true.
Proof.
  unfold view_keys.
  destruct (2 * List.length (set_elements (view_shown v)) <? List.length atlas)%nat;
    intros H; apply filter_In in H; destruct H as [H1 H2].
  - split; [now apply set_iter_In in H1 | assumption].
  - split; [now apply str_in_iff | now apply dict_mem_iff].
Qed.

Lemma view_keys_perm (v : SubgraphView) (atlas : dict V) :
  NoDup (dict_keys atlas) ->
  (forall x, In x (view_shown v) -> dict_mem atlas x = true) ->
  Permutation (view_keys set_order v atlas) (set_elements (view_shown v)).
Proof.
  intros ND Sub. unfold view_keys.
  destruct (2 * List.length (set_elements (view_shown v)) <? List.length atlas)%nat.
  - rewrite forallb_filter_id; [apply set_iter_perm|].
    apply forallb_forall. intros x Hx. apply Sub. now apply set_iter_In in Hx.
  - apply NoDup_Permutation; [now apply NoDup_filter | apply NoDup_nodup |].
    intros x. rewrite filter_In, set_elements_In, str_in_iff. split; [tauto|].
    intros H. split; [|assumption]. apply dict_mem_iff. now apply Sub.
Qed.

Lemma lookup_all (atlas : dict V) (l : list string) :
  (forall x, In x l -> dict_mem atlas x = true) ->
  map fst (flat_map (fun n => match dict_get atlas n with
                              | Some x => [(n, x)]
                              | None => []
                              end) l) = l.
Proof.
  induction l as [|n l IH]; simpl; intros H; [reflexivity|].
  assert (M := H n (or_introl eq_refl)). unfold dict_mem in M.
  destruct (dict_get atlas n); [|discriminate]. simpl. f_equal. apply IH. auto.
Qed.

Lemma view_items_keys (v : SubgraphView) (atlas : dict V) :
  map fst (view_items set_order v atlas) = view_keys set_order v atlas.
Proof.
  unfold view_items. apply lookup_all. intros x Hx. now apply view_keys_shown in Hx.
Qed.

Lemma view_items_In (v : SubgraphView) (atlas : dict V) (n : string) (x : V) :
  In (n, x) (view_items set_order v atlas) ->
  In n (view_keys set_order v atlas) /\ dict_get atlas n = Some x.
Proof.
  unfold view_items. rewrite in_flat_map. intros [m [Hm H]].
  destruct (dict_get atlas m) eqn:E; simpl in H; [|tauto].
  destruct H as [H|[]]. inversion H; subst. auto.
Qed.

End ViewFacts.

(** *** The loops that fill the result *)

Lemma result_nodes_length (l : list (string * attrs))
      (acc : list string * list KnowledgeGraphNode) :
  (List.length (snd (fold_left add_result_node l acc))
   <= List.length (snd acc) + List.length l)%nat.
Proof.
  revert acc. induction l as [|nd l IH]; intros acc; simpl; [lia|].
  specialize (IH (add_result_node acc nd)). unfold add_result_node in *.
  destruct (str_in (fst nd) (fst acc)); simpl in *; [lia|].
  rewrite length_app in IH. simpl in IH. lia.
Qed.

Lemma result_nodes_distinct (l : list (string * attrs))
      (acc : list string * list KnowledgeGraphNode) :
  NoDup (map fst l) ->
  (forall x, In x (map fst l) -> ~ In x (fst acc)) ->
  snd (fold_left add_result_node l acc)
  = snd acc ++ map (fun nd => mkKGNode (fst nd) [fst nd] (snd nd)) l.
Proof.
  revert acc. induction l as [|nd l IH]; intros acc ND Hs; simpl.
  - now rewrite app_nil_r.
  - inversion ND as [|? ? Hn ND']; subst.
    unfold add_result_node at 2.
    rewrite (proj2 (str_in_false_iff _ _)) by (apply Hs; now left).
    rewrite IH; simpl.
    + now rewrite <- app_assoc.
    + assumption.
    + intros x Hx [<-|H]; [tauto|]. apply (Hs x); [now right | assumption].
Qed.

Lemma result_edges_source (l : list (string * string * attrs))
      (acc : list string * list KnowledgeGraphEdge) (e : KnowledgeGraphEdge) :
  In e (snd (fold_left add_result_edge l acc)) ->
  In e (snd acc)
  \/ exists t, In t l /\ edge_source e = fst (fst t) /\ edge_target e = snd (fst t).
Proof.
  revert acc. induction l as [|t l IH]; intros acc; simpl; [tauto|].
  intros H. apply IH in H. destruct H as [H|[t' [Ht' E]]].
  - unfold add_result_edge in H.
    destruct (str_in _ (fst acc)); [now left|]. simpl in H.
    apply in_app_or in H. destruct H as [H|[<-|[]]]; [now left|].
    right. exists t. simpl. auto.
  - right. exists t'. auto.
Qed.

Lemma iter_edges_In (items : list (string * dict attrs)) (seen : list string)
      (n nbr : string) (dd : attrs) :
  In (n, nbr, dd) (iter_edges items seen) ->
  exists nbrs, In (n, nbrs) items /\ In (nbr, dd) nbrs.
Proof.
  revert seen. induction items as [|[m nbrs] items IH]; intros seen; simpl; [tauto|].
  intros H. apply in_app_or in H. destruct H as [H|H].
  - apply in_map_iff in H. destruct H as [[v d] [E H]]. simpl in E. inversion E; subst.
    apply filter_In in H. exists nbrs. tauto.
  - destruct (IH _ H) as [nbrs' [H1 H2]]. exists nbrs'. auto.
Qed.

(** *** Order of occurrence *)

Lemma occurs_before_app (A : Type) (x y : A) (l1 l2 : list A) :
  In x l1 -> In y l2 -> occurs_before x y (l1 ++ l2).
Proof.
  intros Hx Hy. apply in_split in Hx. apply in_split in Hy.
  destruct Hx as [a1 [a2 ->]]. destruct Hy as [b1 [b2 ->]].
  exists a1, (a2 ++ b1), b2. now rewrite <- !app_assoc.
Qed.

Lemma occurs_before_filter (A : Type) (p : A -> bool) (x y : A) (l : list A) :
  p x = true -> p y = true -> occurs_before x y l -> occurs_before x y (filter p l).
Proof.
  intros Px Py [l1 [l2 [l3 ->]]].
  exists (filter p l1), (filter p l2), (filter p l3).
  rewrite filter_app. simpl. rewrite Px, filter_app. simpl. now rewrite Py.
Qed.

Lemma filter_split (A : Type) (p : A -> bool) (x : A) (a r l : list A) :
  filter p l = a ++ x :: r ->
  exists l0 l1, l = l0 ++ x :: l1 /\ filter p l1 = r.
Proof.
  revert l. induction a as [|z a IH]; intros l; simpl.
  - induction l as [|w l IHl]; simpl; [discriminate|].
    destruct (p w) eqn:Pw.
    + intros E. inversion E; subst. exists [], l. auto.
    + intros E. destruct (IHl E) as [l0 [l1 [-> F]]]. exists (w :: l0), l1. auto.
  - induction l as [|w l IHl]; simpl; [discriminate|].
    destruct (p w) eqn:Pw.
    + intros E. inversion E; subst.
      destruct (IH _ H1) as [l0 [l1 [-> F]]]. exists (z :: l0), l1. auto.
    + intros E. destruct (IHl E) as [l0 [l1 [-> F]]]. exists (w :: l0), l1. auto.
Qed.

Lemma occurs_before_unfilter (A : Type) (p : A -> bool) (x y : A) (l : list A) :
  occurs_before x y (filter p l) -> occurs_before x y l.
Proof.
  intros [l1 [l2 [l3 E]]].
  destruct (@filter_split _ p x l1 _ l E) as [a0 [a1 [-> F]]].
  destruct (@filter_split _ p y l2 _ a1 F) as [b0 [b1 [-> _]]].
  now exists a0, b0, b1.
Qed.

Lemma occurs_before_map (A B : Type) (f : A -> B) (x y : A) (l : list A) :
  occurs_before x y l -> occurs_before (f x) (f y) (map f l).
Proof.
  intros [l1 [l2 [l3 ->]]]. exists (map f l1), (map f l2), (map f l3).
  rewrite map_app. simpl. now rewrite map_app.
Qed.

(** *** The top nodes *)

Lemma dict_update_distinct (V : Type) (d acc : dict V) :
  NoDup (dict_keys acc ++ dict_keys d) -> dict_update acc d = acc ++ d.
Proof.
  unfold dict_update. revert acc. induction d as [|[k v] d IH]; intros acc ND; simpl.
  - now rewrite app_nil_r.
  - assert (A : dict_get acc k = None).
    { apply dict_get_None_iff. intros H. simpl in ND.
      apply NoDup_remove_2 in ND. apply ND. apply in_or_app. now left. }
    rewrite (dict_set_absent _ _ _ A), IH.
    + now rewrite <- app_assoc.
    + unfold dict_keys in *. rewrite map_app, <- app_assoc. exact ND.
Qed.

Lemma dict_of_items (V : Type) (d : dict V) :
  NoDup (dict_keys d) -> dict_update [] d = d.
Proof. intros ND. now rewrite dict_update_distinct. Qed.

Lemma degree_items_keys (g : Graph) : map fst (degree_items g) = dict_keys (_adj g).
Proof.
  unfold degree_items. rewrite map_map. simpl. apply map_id.
Qed.

Lemma degree_items_In (g : Graph) (n : string) (d : nat) :
  In (n, d) (degree_items g) -> d = degree_of (_adj g) n.
Proof.
  unfold degree_items. rewrite in_map_iff. intros [m [E _]]. now inversion E.
Qed.

Lemma NoDup_firstn (A : Type) (n : nat) (l : list A) : NoDup l -> NoDup (firstn n l).
Proof.
  intros ND. rewrite <- (firstn_skipn n l) in ND. now apply NoDup_app_remove_r in ND.
Qed.

Section TopNodes.
Variable sub : Graph.
Hypothesis sub_ok : graph_ok sub.
Hypothesis sub_large : (max_graph_nodes < number_of_nodes sub)%nat.

Local Abbreviation ranked := (sorted snd Nat.ltb true (degree_items sub)).

Lemma ranked_perm : Permutation ranked (degree_items sub).
Proof. apply sorted_perm. Qed.

Lemma degree_items_distinct : NoDup (map fst (degree_items sub)).
Proof.
  rewrite degree_items_keys. destruct sub_ok as [N [K _]]. now rewrite K.
Qed.

Lemma top_node_ids_eq :
  top_node_ids sub = map fst (firstn max_graph_nodes ranked).
Proof.
  unfold top_node_ids. rewrite dict_of_items; [reflexivity|].
  apply degree_items_distinct.
Qed.

Lemma top_node_ids_distinct : NoDup (top_node_ids sub).
Proof.
  rewrite top_node_ids_eq, <- firstn_map. apply NoDup_firstn.
  eapply Permutation_NoDup; [|apply degree_items_distinct].
  apply Permutation_map, Permutation_sym, ranked_perm.
Qed.

Lemma top_node_ids_length : List.length (top_node_ids sub) = max_graph_nodes.
Proof.
  rewrite top_node_ids_eq, length_map, length_firstn.
  rewrite (Permutation_length ranked_perm).
  unfold degree_items. rewrite length_map. unfold dict_keys. rewrite length_map.
  destruct sub_ok as [_ [K _]]. unfold number_of_nodes in sub_large.
  assert (L : List.length (_adj sub) = List.length (_node sub)).
  { rewrite <- (length_map fst (_adj sub)), <- (length_map fst (_node sub)).
    unfold dict_keys in K. now rewrite K. }
  lia.
Qed.

Lemma top_node_ids_nodes (x : string) :
  In x (top_node_ids sub) -> dict_mem (_adj sub) x = true.
Proof.
  rewrite top_node_ids_eq. intros H. apply dict_mem_iff.
  rewrite <- degree_items_keys.
  apply in_map_iff in H. destruct H as [nd [<- H]].
  apply in_map. apply In_firstn in H.
  eapply Permutation_in; [apply ranked_perm | exact H].
Qed.

Lemma top_nodes_shown : nbunch_iter sub (top_node_ids sub) = top_node_ids sub.
Proof.
  unfold nbunch_iter. apply forallb_filter_id. apply forallb_forall.
  apply top_node_ids_nodes.
Qed.

(** A node that is kept ranks before a node that is dropped: it has a
    higher degree, or the same degree and an earlier place. *)
Lemma top_nodes_rank (k d : string) :
  In k (top_node_ids sub) ->
  In d (dict_keys (_node sub)) ->
  ~ In d (top_node_ids sub) ->
  (degree_of (_adj sub) d < degree_of (_adj sub) k)%nat
  \/ (degree_of (_adj sub) d = degree_of (_adj sub) k
      /\ occurs_before k d (dict_keys (_node sub))).
Proof.
  rewrite top_node_ids_eq. intros Hk Hd Hnd.
  destruct sub_ok as [N [K _]].
  set (dk := degree_of (_adj sub) k). set (dd := degree_of (_adj sub) d).
  assert (Ik : In (k, dk) (firstn max_graph_nodes ranked)).
  { apply in_map_iff in Hk. destruct Hk as [[k' x] [E H]]. simpl in E. subst k'.
    assert (x = dk); [|now subst].
    apply degree_items_In. apply In_firstn in H.
    eapply Permutation_in; [apply ranked_perm | exact H]. }
  assert (Id : In (d, dd) (skipn max_graph_nodes ranked)).
  { assert (H : In (d, dd) ranked).
    { eapply Permutation_in; [apply Permutation_sym, ranked_perm|].
      unfold degree_items. apply in_map_iff. exists d. split; [reflexivity|].
      now rewrite K. }
    rewrite <- (firstn_skipn max_graph_nodes ranked) in H.
    apply in_app_or in H. destruct H as [H|H]; [|assumption].
    exfalso. apply Hnd. change d with (fst (d, dd)). now apply in_map. }
  assert (S : StronglySorted (may_precede snd Nat.ltb true) ranked).
  { apply sorted_strongly_sorted;
      [apply descending_asym | apply descending_trans]. }
  assert (B : occurs_before (k, dk) (d, dd) ranked).
  { rewrite <- (firstn_skipn max_graph_nodes ranked). now apply occurs_before_app. }
  assert (L : (dd <= dk)%nat).
  { rewrite <- (firstn_skipn max_graph_nodes ranked) in S.
    assert (M := strongly_sorted_app _ _ S _ _ Ik Id).
    unfold may_precede, strictly_before in M. simpl in M.
    now apply Nat.ltb_ge in M. }
  destruct (Nat.eq_dec dd dk) as [E|NE]; [right | left; lia].
  split; [exact E|].
  apply (occurs_before_filter (fun nd => snd nd =? dk)%nat) in B;
    [|apply Nat.eqb_refl | simpl; now apply Nat.eqb_eq].
  rewrite filter_sorted in B by (apply descending_asym || apply descending_trans).
  rewrite sorted_fixpoint in B.
  - apply occurs_before_unfilter in B.
    apply (occurs_before_map fst) in B. simpl in B.
    now rewrite degree_items_keys, K in B.
  - generalize (degree_items sub). intros l.
    induction l as [|x l IH]; simpl; [constructor|].
    destruct (snd x =? dk)%nat eqn:Ex; [|assumption].
    constructor; [assumption|]. apply Forall_forall. intros z Hz.
    apply filter_In in Hz. destruct Hz as [_ Ez].
    apply Nat.eqb_eq in Ex, Ez. unfold may_precede, strictly_before.
    apply Nat.ltb_ge. lia.
Qed.

End TopNodes.

(** *** The result *)

Section Result.
Variable set_order : list string -> list string.

Lemma candidate_ok (graph : Graph) (node_label : string) (max_depth : Z) (sub : Graph) :
  candidate set_order graph node_label max_depth = Some sub -> graph_ok sub.
Proof.
  unfold candidate. destruct (String.eqb node_label "*").
  - intros E. inversion E. apply copy_ok.
  - destruct (nodes_to_explore graph node_label); [discriminate|].
    intros E. inversion E. unfold ego_graph, view_copy.
    apply add_edges_from_ok, add_nodes_from_ok, empty_graph_ok.
Qed.

Lemma get_knowledge_graph_result (namespace : string) (is_multiprocess : bool)
      (read_graphml : Graph -> Graph) (node_label : string) (max_depth : Z)
      (st : State) :
  fst (get_knowledge_graph namespace is_multiprocess read_graphml set_order
         node_label max_depth st)
  = Ok (match candidate set_order (current_graph is_multiprocess read_graphml st)
                        node_label max_depth with
        | Some sub => project set_order (reduce sub)
        | None => mkKG [] []
        end).
Proof.
  unfold get_knowledge_graph, bind. rewrite get_graph_eq.
  destruct (candidate _ _ _ _) as [sub|]; [|reflexivity].
  now destruct (max_graph_nodes <? number_of_nodes sub)%nat.
Qed.

Lemma whole_nodes_bound (sub : Graph) :
  (List.length (kg_nodes (project set_order (Whole sub))) <= number_of_nodes sub)%nat.
Proof.
  unfold project. simpl. apply (result_nodes_length (_node sub) ([], [])).
Qed.

Section Reduced.
Variable sub : Graph.
Hypothesis sub_ok : graph_ok sub.
Hypothesis sub_large : (max_graph_nodes < number_of_nodes sub)%nat.

Local Abbreviation kept := (NX.subgraph sub (top_node_ids sub)).

Lemma reduce_large : reduce sub = Reduced kept.
Proof.
  unfold reduce. now rewrite (proj2 (Nat.ltb_lt _ _) sub_large).
Qed.

Lemma kept_shown : view_shown kept = top_node_ids sub.
Proof. simpl. now apply top_nodes_shown. Qed.

Lemma kept_nodes_perm :
  Permutation (map fst (view_nodes_data set_order kept)) (top_node_ids sub).
Proof.
  unfold view_nodes_data. rewrite view_items_keys.
  rewrite view_keys_perm.
  - rewrite kept_shown. unfold set_elements.
    rewrite nodup_fixed_point; [reflexivity | now apply top_node_ids_distinct].
  - simpl. apply sub_ok.
  - intros x Hx. rewrite kept_shown in Hx. simpl.
    rewrite <- absent_in_adj by apply sub_ok. now apply top_node_ids_nodes.
Qed.

Lemma reduced_nodes :
  kg_nodes (project set_order (Reduced kept))
  = map (fun nd => mkKGNode (fst nd) [fst nd] (snd nd)) (view_nodes_data set_order kept).
Proof.
  unfold project. cbn [kg_nodes subgraph_nodes].
  rewrite result_nodes_distinct; [reflexivity| |simpl; tauto].
  eapply Permutation_NoDup; [apply Permutation_sym, kept_nodes_perm|].
  now apply top_node_ids_distinct.
Qed.

Lemma reduced_node_ids :
  map node_id (kg_nodes (project set_order (Reduced kept)))
  = map fst (view_nodes_data set_order kept).
Proof. rewrite reduced_nodes, map_map. reflexivity. Qed.

Lemma reduced_edges_kept (e : KnowledgeGraphEdge) :
  In e (kg_edges (project set_order (Reduced kept))) ->
  In (edge_source e) (top_node_ids sub) /\ In (edge_target e) (top_node_ids sub).
Proof.
  unfold project. cbn [kg_edges subgraph_edges]. intros H.
  apply result_edges_source in H. destruct H as [[]|[[[u v] dd] [H [-> ->]]]].
  simpl. unfold view_edges_data in H. apply iter_edges_In in H.
  destruct H as [nbrs [Hu Hv]]. unfold view_adj_items in Hu.
  apply in_map_iff in Hu. destruct Hu as [[u' nbrs'] [E Hu]]. simpl in E.
  inversion E; subst. apply view_items_In in Hu. destruct Hu as [Hu _].
  apply view_keys_shown in Hu. destruct Hu as [Hu _].
  apply filter_In in Hv. destruct Hv as [_ Hv]. cbn [fst] in Hv. apply str_in_iff in Hv.
  rewrite kept_shown in Hu. rewrite (top_nodes_shown sub_ok) in Hv. auto.
Qed.

End Reduced.

End Result.

(** C3.  [get_knowledge_graph] returns, and never more than 500 nodes.
    When the candidate subgraph has more than 500 nodes, the result has
    exactly 500: the first 500 of the nodes of the candidate sorted by
    falling degree, where nodes of equal degree keep the order in which
    the candidate iterates them.  Every node that is kept has a higher
    degree than every node that is dropped, or the same degree and an
    earlier place in the iteration, and each edge of the result has both
    its ends among the nodes of the result. *)
Theorem knowledge_graph_keeps_top_nodes :
  forall (namespace : string) (is_multiprocess : bool)
         (read_graphml : Graph -> Graph) (set_order : list string -> list string)
         (st : State) (node_label : string) (max_depth : Z),
    let graph := current_graph is_multiprocess read_graphml st in
    exists result,
      fst (get_knowledge_graph namespace is_multiprocess read_graphml set_order
             node_label max_depth st) = Ok result
      /\ (List.length (kg_nodes result) <= 500)%nat
      /\ forall sub,
          candidate set_order graph node_label max_depth = Some sub ->
          (500 < number_of_nodes sub)%nat ->
          let ids := map node_id (kg_nodes result) in
          List.length (kg_nodes result) = 500
          /\ Permutation ids (top_node_ids sub)
          /\ (forall k d,
                In k ids -> In d (dict_keys (_node sub)) -> ~ In d ids ->
                (degree_of (_adj sub) d < degree_of (_adj sub) k)%nat
                \/ (degree_of (_adj sub) d = degree_of (_adj sub) k
                    /\ occurs_before k d (dict_keys (_node sub))))
          /\ (forall e, In e (kg_edges result) ->
                        In (edge_source e) ids /\ In (edge_target e) ids).
Proof.
  intros ns mp rg so st label depth graph.
  eexists. split; [apply get_knowledge_graph_result|]. fold graph.
  destruct (candidate so graph label depth) as [sub|] eqn:C.
  - assert (G := candidate_ok _ _ _ _ C).
    destruct (Nat.ltb_spec max_graph_nodes (number_of_nodes sub)) as [L|L].
    + assert (P := kept_nodes_perm so G).
      assert (Len : List.length (kg_nodes (project so (reduce sub))) = 500%nat).
      { rewrite (@reduce_large sub L), (reduced_nodes so G), length_map.
        rewrite <- (length_map fst), (Permutation_length P).
        now apply top_node_ids_length. }
      split; [rewrite Len; apply Nat.le_refl|].
      intros sub' E _. inversion E; subst sub'. clear E.
      rewrite (@reduce_large sub L) in *. cbv zeta.
      rewrite (reduced_node_ids so G).
      split; [exact Len|]. split; [exact P|]. split.
      * intros k d Hk Hd Hnd. apply (top_nodes_rank G L).
        -- eapply Permutation_in; eassumption.
        -- assumption.
        -- intros H. apply Hnd. eapply Permutation_in; [apply Permutation_sym|]; eassumption.
      * intros e He. apply (reduced_edges_kept so G) in He.
        split; (eapply Permutation_in; [apply Permutation_sym; exact P|]); tauto.
    + split.
      * unfold reduce. rewrite (proj2 (Nat.ltb_ge _ _) L).
        etransitivity; [apply whole_nodes_bound | exact L].
      * intros sub' E L'. inversion E; subst sub'. unfold max_graph_nodes in L. lia.
  - split; [simpl; lia | discriminate].
Qed.

Lemma knowledge_graph_keeps_top_nodes_witness :
  candidate insertion_order (current_graph false read_back state_many) "*" 5
  = Some (copy many_nodes)
  /\ (500 < number_of_nodes (copy many_nodes))%nat
  /\ exists result,
      fst (get_knowledge_graph "ns" false read_back insertion_order "*" 5 state_many)
      = Ok result
      /\ List.length (kg_nodes result) = 500%nat
      /\ Permutation (map node_id (kg_nodes result)) (top_node_ids (copy many_nodes)).
Proof.
  assert (C : candidate insertion_order (current_graph false read_back state_many) "*" 5
              = Some (copy many_nodes)) by reflexivity.
  assert (L : (500 < number_of_nodes (copy many_nodes))%nat)
    by (apply Nat.ltb_lt; vm_compute; reflexivity).
  split; [exact C|]. split; [exact L|].
  destruct (@knowledge_graph_keeps_top_nodes "ns" false read_back insertion_order
              state_many "*" 5) as [result [E [_ H]]].
  exists result. split; [exact E|].
  destruct (H (copy many_nodes) C L) as [Len [P _]]. split; [exact Len | exact P].
Defined.

(** C5.  On the graph with the nodes [A], [B], [C] and the edges [A - B]
    and [B - C], [get_knowledge_graph("B", 1)] returns the three nodes and
    the two edges: [B] is the only node whose id contains the label, and
    the candidate is its ego graph of radius 1.  From [A] the same radius
    reaches [A] and [B] only. *)
Theorem knowledge_graph_of_B :
  forall (namespace : string) (is_multiprocess : bool)
         (read_graphml : Graph -> Graph) (set_order : list string -> list string),
    nodes_to_explore (_graph state_abc) "B" = ["B"]
    /\ candidate set_order (_graph state_abc) "B" 1
       = Some (ego_graph set_order (_graph state_abc) "B" 1)
    /\ fst (get_knowledge_graph namespace is_multiprocess read_graphml set_order
              "B" 1 state_abc)
       = Ok abc_result
    /\ fst (get_knowledge_graph namespace is_multiprocess read_graphml set_order
              "A" 1 state_abc)
       = Ok (mkKG [mkKGNode "A" ["A"] []; mkKGNode "B" ["B"] []]
                  [mkKGEdge "A-B" "DIRECTED" "A" "B" []]).
Proof.
  intros ns mp rg so. rewrite !get_knowledge_graph_result.
  rewrite current_graph_fresh by reflexivity.
  repeat split; vm_compute; reflexivity.
Qed.

(** C7, as amended.  A label other than ["*"] that no node id contains
    gives the empty result, with a warning in the log and without an
    error; the label ["*"] gives the empty result on the empty graph. *)
Theorem knowledge_graph_without_match :
  forall (namespace : string) (is_multiprocess : bool)
         (read_graphml : Graph -> Graph) (set_order : list string -> list string)
         (st : State) (max_depth : Z),
    let graph := current_graph is_multiprocess read_graphml st in
    (forall node_label,
        node_label <> "*" ->
        (forall n, In n (dict_keys (_node graph)) -> str_contains node_label n = false) ->
        get_knowledge_graph namespace is_multiprocess read_graphml set_order
          node_label max_depth st
        = (Ok (mkKG [] []),
           with_logged (refreshed namespace is_multiprocess read_graphml st) WARNING
                       (fstring ["No nodes found with label "; node_label])))
    /\ (graph = empty_graph ->
        fst (get_knowledge_graph namespace is_multiprocess read_graphml set_order
               "*" max_depth st)
        = Ok (mkKG [] [])).
Proof.
  intros ns mp rg so st depth graph. split.
  - intros label Hl Hn. unfold get_knowledge_graph, bind. rewrite get_graph_eq.
    fold graph. unfold candidate.
    rewrite (proj2 (String.eqb_neq label "*") Hl).
    assert (E : nodes_to_explore graph label = []).
    { unfold nodes_to_explore. induction (dict_keys (_node graph)) as [|n l IH];
        simpl; [reflexivity|].
      rewrite (Hn n) by now left. apply IH. intros m Hm. apply Hn. now right. }
    now rewrite E.
  - intros E. rewrite get_knowledge_graph_result. fold graph. now rewrite E.
Qed.

Lemma knowledge_graph_without_match_witness :
  "Z" <> "*"
  /\ (forall n, In n (dict_keys (_node (current_graph false read_back state_abc))) ->
                str_contains "Z" n = false)
  /\ fst (get_knowledge_graph "ns" false read_back insertion_order "Z" 5 state_abc)
     = Ok (mkKG [] [])
  /\ current_graph false read_back fresh = empty_graph
  /\ fst (get_knowledge_graph "ns" false read_back insertion_order "*" 5 fresh)
     = Ok (mkKG [] []).
Proof.
  assert (N : "Z" <> "*") by discriminate.
  assert (A : forall n,
             In n (dict_keys (_node (current_graph false read_back state_abc))) ->
             str_contains "Z" n = false).
  { intros n H. simpl in H. decompose [or] H; subst; try reflexivity; tauto. }
  split; [exact N|]. split; [exact A|].
  destruct (@knowledge_graph_without_match "ns" false read_back insertion_order
              state_abc 5) as [H _].
  destruct (@knowledge_graph_without_match "ns" false read_back insertion_order
              fresh 5) as [_ H'].
  split; [now rewrite (H "Z" N A)|]. split; [reflexivity | exact (H' eq_refl)].
Defined.

(** C7 as it is stated fails for the label ["*"]: no node id of
    [state_abc] contains it, and the result is the whole graph. *)
Lemma knowledge_graph_of_wildcard :
  forallb (fun n => negb (str_contains "*" n))
          (dict_keys (_node (current_graph false read_back state_abc))) = true
  /\ fst (get_knowledge_graph "ns" false read_back insertion_order "*" 5 state_abc)
     = Ok abc_result.
Proof. split; vm_compute; reflexivity. Qed.

End KnowledgeGraphFacts.

(** ** Canonical order *)

Module StabilizeFacts.
Import NX Storage Examples PyFacts SortedFacts NXFacts KnowledgeGraphFacts.

(** *** Lists *)

Lemma flat_map_ext_In (A B : Type) (f h : A -> list B) (l : list A) :
  (forall x, In x l -> f x = h x) -> flat_map f l = flat_map h l.
Proof.
  induction l as [|x l IH]; simpl; intros H; [reflexivity|].
  rewrite (H x) by now left. f_equal. apply IH. auto.
Qed.

Lemma filter_map_comm (A B : Type) (p : B -> bool) (q : A -> bool) (f : A -> B)
      (l : list A) :
  (forall x, p (f x) = q x) -> filter p (map f l) = map f (filter q l).
Proof.
  intros H. induction l as [|x l IH]; simpl; [reflexivity|].
  rewrite H. destruct (q x); simpl; now rewrite IH.
Qed.

Lemma filter_none (A : Type) (p : A -> bool) (l : list A) :
  (forall x, In x l -> p x = false) -> filter p l = [].
Proof.
  induction l as [|x l IH]; simpl; intros H; [reflexivity|].
  rewrite (H x) by now left. apply IH. auto.
Qed.

(** *** Dictionaries built entry by entry *)

Lemma dict_get_map (V : Type) (f : string -> V) (ks : list string) (k : string) :
  dict_get (map (fun n => (n, f n)) ks) k = if str_in k ks then Some (f k) else None.
Proof.
  induction ks as [|n ks IH]; simpl; [reflexivity|].
  rewrite (String.eqb_sym k n).
  destruct (String.eqb_spec n k) as [->|]; simpl; [reflexivity | exact IH].
Qed.

Lemma dict_set_map (V : Type) (f : string -> V) (ks : list string) (k : string) (x : V) :
  NoDup ks -> In k ks ->
  dict_set (map (fun n => (n, f n)) ks) k x
  = map (fun n => (n, if String.eqb n k then x else f n)) ks.
Proof.
  induction ks as [|n ks IH]; simpl; [tauto|].
  intros ND H. inversion ND as [|? ? Hn ND']; subst.
  destruct (String.eqb_spec n k) as [->|N].
  - f_equal. apply map_ext_in. intros m Hm.
    destruct (String.eqb_spec m k) as [->|]; [tauto | reflexivity].
  - f_equal. apply IH; [assumption|]. destruct H; [congruence | assumption].
Qed.

Lemma dict_set_last (V : Type) (d : dict V) (k : string) (x : V) :
  dict_get d k = None -> dict_set (d ++ [(k, x)]) k x = d ++ [(k, x)].
Proof.
  induction d as [|[k0 v0] d IH]; simpl.
  - now rewrite String.eqb_refl.
  - destruct (String.eqb k0 k); [discriminate|]. intros H. now rewrite IH.
Qed.

Lemma NoDup_keys_update (V : Type) (e d : dict V) :
  NoDup (dict_keys d) -> NoDup (dict_keys (dict_update d e)).
Proof.
  unfold dict_update. revert d. induction e as [|kv e IH]; simpl; intros d ND.
  - assumption.
  - apply IH. now apply NoDup_keys_set.
Qed.

(** Copying a copy of a dictionary changes nothing. *)
Lemma copy_attrs_twice (d : attrs) :
  dict_update [] (dict_update [] d) = dict_update [] d.
Proof.
  apply dict_of_items. apply NoDup_keys_update. constructor.
Qed.

Lemma copy_edge_attrs_twice (e : string * string * attrs) :
  copy_edge_attrs (copy_edge_attrs e) = copy_edge_attrs e.
Proof.
  unfold copy_edge_attrs. simpl. now rewrite copy_attrs_twice.
Qed.

(** *** The nodes of a graph built from a list of nodes *)

Lemma add_nodes_from_distinct (nodes : list (string * attrs)) (g : Graph) :
  dict_keys (_adj g) = dict_keys (_node g) ->
  NoDup (dict_keys (_node g) ++ map fst nodes) ->
  add_nodes_from g nodes
  = mkGraph (_node g ++ map (fun nd => (fst nd, dict_update [] (snd nd))) nodes)
            (_adj g ++ map (fun nd => (fst nd, [])) nodes).
Proof.
  unfold add_nodes_from. revert g.
  induction nodes as [|[n d] nodes IH]; intros g K ND; simpl.
  - rewrite !app_nil_r. now destruct g.
  - assert (A : dict_get (_node g) n = None).
    { apply dict_get_None_iff. intros H. apply NoDup_remove_2 in ND.
      apply ND. apply in_or_app. now left. }
    assert (A' : dict_get (_adj g) n = None).
    { apply dict_get_None_iff. rewrite K. now apply dict_get_None_iff. }
    unfold add_node at 2. rewrite A.
    rewrite (dict_set_absent _ _ _ A), (dict_set_absent _ _ _ A').
    rewrite IH; simpl.
    + now rewrite <- !app_assoc.
    + unfold dict_keys in *. rewrite !map_app, K. reflexivity.
    + unfold dict_keys in *. rewrite map_app, <- app_assoc. exact ND.
Qed.

Lemma di_add_nodes_from_distinct (nodes : list (string * attrs)) (g : DiGraph) :
  dict_keys (_succ g) = dict_keys (di_node g) ->
  NoDup (dict_keys (di_node g) ++ map fst nodes) ->
  di_node (di_add_nodes_from g nodes)
  = di_node g ++ map (fun nd => (fst nd, dict_update [] (snd nd))) nodes
  /\ _succ (di_add_nodes_from g nodes)
     = _succ g ++ map (fun nd => (fst nd, [])) nodes.
Proof.
  unfold di_add_nodes_from. revert g.
  induction nodes as [|[n d] nodes IH]; intros g K ND; simpl.
  - now rewrite !app_nil_r.
  - assert (A : dict_get (di_node g) n = None).
    { apply dict_get_None_iff. intros H. apply NoDup_remove_2 in ND.
      apply ND. apply in_or_app. now left. }
    assert (A' : dict_get (_succ g) n = None).
    { apply dict_get_None_iff. rewrite K. now apply dict_get_None_iff. }
    unfold di_add_node at 2 4. rewrite A.
    destruct (IH (mkDiGraph (dict_set (di_node g) n (dict_update [] d))
                            (dict_set (_succ g) n []) (dict_set (_pred g) n [])))
      as [I1 I2]; simpl.
    + rewrite (dict_set_absent _ _ _ A), (dict_set_absent _ _ _ A').
      unfold dict_keys in *. rewrite !map_app, K. reflexivity.
    + rewrite (dict_set_absent _ _ _ A).
      unfold dict_keys in *. rewrite map_app, <- app_assoc. exact ND.
    + rewrite I1, I2. simpl.
      rewrite (dict_set_absent _ _ _ A), (dict_set_absent _ _ _ A').
      now rewrite <- !app_assoc.
Qed.

(** *** The adjacency of a graph built from a list of edges *)

Lemma incident_app (n : string) (l1 l2 : list (string * string * attrs)) :
  incident n (l1 ++ l2) = incident n l1 ++ incident n l2.
Proof. unfold incident. apply flat_map_app. Qed.

Lemma outgoing_app (n : string) (l1 l2 : list (string * string * attrs)) :
  outgoing n (l1 ++ l2) = outgoing n l1 ++ outgoing n l2.
Proof. unfold outgoing. apply flat_map_app. Qed.

Lemma incident_single (n u v : string) (dd : attrs) :
  incident n [(u, v, dd)]
  = if String.eqb u n then [(v, dict_update [] dd)]
    else if String.eqb v n then [(u, dict_update [] dd)] else [].
Proof. unfold incident. simpl. apply app_nil_r. Qed.

Lemma outgoing_single (n u v : string) (dd : attrs) :
  outgoing n [(u, v, dd)] = if String.eqb u n then [(v, dict_update [] dd)] else [].
Proof. unfold outgoing. simpl. apply app_nil_r. Qed.

Lemma incident_keys (u v : string) (edges : list (string * string * attrs)) :
  In v (dict_keys (incident u edges)) ->
  exists e, In e edges /\ (fst e = (u, v) \/ fst e = (v, u)).
Proof.
  unfold dict_keys, incident. rewrite in_map_iff. intros [[v' d] [E H]].
  simpl in E. subst v'. apply in_flat_map in H. destruct H as [[[a b] dd] [He H]].
  exists (a, b, dd). split; [assumption|]. simpl in *.
  destruct (String.eqb_spec a u) as [->|].
  - destruct H as [H|[]]. inversion H. now left.
  - destruct (String.eqb_spec b u) as [->|]; [|destruct H].
    destruct H as [H|[]]. inversion H. now right.
Qed.

Lemma outgoing_keys (u v : string) (edges : list (string * string * attrs)) :
  In v (dict_keys (outgoing u edges)) -> In (u, v) (map fst edges).
Proof.
  unfold dict_keys, outgoing. rewrite in_map_iff. intros [[v' d] [E H]].
  simpl in E. subst v'. apply in_flat_map in H. destruct H as [[[a b] dd] [He H]].
  simpl in *. destruct (String.eqb_spec a u) as [->|]; [|destruct H].
  destruct H as [H|[]]. inversion H; subst.
  change (u, v) with (fst (u, v, dd)). now apply in_map.
Qed.

Lemma ensure_node_present (g : Graph) (n : string) :
  dict_mem (_node g) n = true -> ensure_node g n = g.
Proof. unfold ensure_node. now intros ->. Qed.

Lemma di_ensure_node_present (g : DiGraph) (n : string) :
  dict_mem (di_node g) n = true -> di_ensure_node g n = g.
Proof. unfold di_ensure_node. now intros ->. Qed.

Lemma adj_of_map (f : string -> dict attrs) (ks : list string) (k : string) :
  In k ks -> adj_of (map (fun n => (n, f n)) ks) k = f k.
Proof.
  intros H. unfold adj_of, dict_get_default. rewrite dict_get_map.
  now rewrite (proj2 (str_in_iff _ _) H).
Qed.

Section Building.
Variable ks : list string.
Hypothesis ks_distinct : NoDup ks.

Lemma add_edge_incident (nd : dict attrs) (prev : list (string * string * attrs))
      (u v : string) (dd : attrs) :
  dict_keys nd = ks -> In u ks -> In v ks ->
  (forall e, In e prev -> fst e <> (u, v) /\ fst e <> (v, u)) ->
  add_edge (mkGraph nd (map (fun n => (n, incident n prev)) ks)) u v dd
  = mkGraph nd (map (fun n => (n, incident n (prev ++ [(u, v, dd)]))) ks).
Proof.
  intros K Hu Hv New.
  assert (Mu : dict_mem nd u = true) by (apply dict_mem_iff; now rewrite K).
  assert (Mv : dict_mem nd v = true) by (apply dict_mem_iff; now rewrite K).
  assert (Au : dict_get (incident u prev) v = None).
  { apply dict_get_None_iff. intros H. apply incident_keys in H.
    destruct H as [e [He [E|E]]]; destruct (New e He); contradiction. }
  assert (Av : dict_get (incident v prev) u = None).
  { apply dict_get_None_iff. intros H. apply incident_keys in H.
    destruct H as [e [He [E|E]]]; destruct (New e He); contradiction. }
  unfold add_edge.
  rewrite (@ensure_node_present (mkGraph nd (map (fun n => (n, incident n prev)) ks)) u Mu).
  rewrite (@ensure_node_present (mkGraph nd (map (fun n => (n, incident n prev)) ks)) v Mv).
  cbv zeta. cbn [_adj _node]. f_equal.
  rewrite (@adj_of_map _ ks u Hu). unfold dict_get_default. rewrite !Au.
  rewrite (@dict_set_absent _ (incident u prev) v _ Au).
  rewrite (@dict_set_map _ _ ks u _ ks_distinct Hu).
  rewrite (@adj_of_map _ ks v Hv). cbv beta.
  destruct (String.eqb_spec v u) as [->|N].
  - rewrite (@dict_set_last _ (incident u prev) u _ Au).
    rewrite (@dict_set_map _ _ ks u _ ks_distinct Hu).
    apply map_ext. intros n. f_equal. rewrite incident_app, incident_single.
    rewrite (String.eqb_sym u n).
    destruct (String.eqb n u) eqn:E.
    + apply String.eqb_eq in E. now subst n.
    + now rewrite app_nil_r.
  - rewrite (@dict_set_absent _ (incident v prev) u _ Av).
    rewrite (@dict_set_map _ _ ks v _ ks_distinct Hv).
    apply map_ext. intros n. f_equal. rewrite incident_app, incident_single.
    rewrite (String.eqb_sym u n), (String.eqb_sym v n).
    destruct (String.eqb n v) eqn:E.
    + apply String.eqb_eq in E. subst n.
      now rewrite (proj2 (String.eqb_neq v u) N).
    + destruct (String.eqb n u) eqn:E'.
      * apply String.eqb_eq in E'. now subst n.
      * now rewrite app_nil_r.
Qed.

Lemma add_edges_from_incident (nd : dict attrs)
      (edges prev : list (string * string * attrs)) :
  dict_keys nd = ks ->
  Forall (edge_between ks) edges ->
  Forall oriented (prev ++ edges) ->
  NoDup (map fst (prev ++ edges)) ->
  add_edges_from (mkGraph nd (map (fun n => (n, incident n prev)) ks)) edges
  = mkGraph nd (map (fun n => (n, incident n (prev ++ edges))) ks).
Proof.
  unfold add_edges_from. revert prev.
  induction edges as [|[[u v] dd] edges IH]; intros prev K B O ND; simpl.
  - now rewrite app_nil_r.
  - apply Forall_cons_iff in B. destruct B as [[Hu Hv] B']. simpl in Hu, Hv.
    rewrite add_edge_incident; try assumption.
    + rewrite IH; try assumption; rewrite <- app_assoc; try assumption; reflexivity.
    + intros e He. rewrite map_app in ND. simpl in ND.
      assert (Ne : fst e <> (u, v)).
      { intros E. apply NoDup_remove_2 in ND. apply ND. apply in_or_app. left.
        rewrite <- E. now apply in_map. }
      split; [exact Ne|]. intros E.
      rewrite Forall_forall in O.
      assert (O1 : oriented e) by (apply O, in_or_app; now left).
      assert (O2 : oriented (u, v, dd)) by (apply O, in_or_app; right; now left).
      unfold oriented in O1, O2. rewrite E in O1. simpl in O1, O2.
      assert (Euv : u = v) by now apply ltb_total.
      rewrite Euv in Ne, E. contradiction.
Qed.

Lemma di_add_edge_outgoing (g : DiGraph) (prev : list (string * string * attrs))
      (u v : string) (dd : attrs) :
  dict_keys (di_node g) = ks ->
  _succ g = map (fun n => (n, outgoing n prev)) ks ->
  In u ks -> In v ks -> ~ In (u, v) (map fst prev) ->
  di_node (di_add_edge g u v dd) = di_node g
  /\ _succ (di_add_edge g u v dd)
     = map (fun n => (n, outgoing n (prev ++ [(u, v, dd)]))) ks.
Proof.
  intros K S Hu Hv New.
  assert (Mu : dict_mem (di_node g) u = true) by (apply dict_mem_iff; now rewrite K).
  assert (Mv : dict_mem (di_node g) v = true) by (apply dict_mem_iff; now rewrite K).
  assert (Au : dict_get (outgoing u prev) v = None).
  { apply dict_get_None_iff. intros H. now apply outgoing_keys in H. }
  unfold di_add_edge.
  rewrite (di_ensure_node_present g u Mu), (di_ensure_node_present g v Mv).
  cbv zeta. cbn [_succ di_node]. split; [reflexivity|].
  rewrite S, (@adj_of_map _ ks u Hu). unfold dict_get_default. rewrite Au.
  rewrite (@dict_set_absent _ (outgoing u prev) v _ Au).
  rewrite (@dict_set_map _ _ ks u _ ks_distinct Hu).
  apply map_ext. intros n. f_equal. rewrite outgoing_app, outgoing_single.
  rewrite (String.eqb_sym u n).
  destruct (String.eqb n u) eqn:E; [|now rewrite app_nil_r].
  apply String.eqb_eq in E. now subst n.
Qed.

Lemma di_add_edges_from_outgoing (edges prev : list (string * string * attrs))
      (g : DiGraph) :
  dict_keys (di_node g) = ks ->
  _succ g = map (fun n => (n, outgoing n prev)) ks ->
  Forall (edge_between ks) edges ->
  NoDup (map fst (prev ++ edges)) ->
  di_node (di_add_edges_from g edges) = di_node g
  /\ _succ (di_add_edges_from g edges)
     = map (fun n => (n, outgoing n (prev ++ edges))) ks.
Proof.
  unfold di_add_edges_from. revert prev g.
  induction edges as [|[[u v] dd] edges IH]; intros prev g K S B ND; simpl.
  - now rewrite app_nil_r.
  - apply Forall_cons_iff in B. destruct B as [[Hu Hv] B']. simpl in Hu, Hv.
    destruct (@di_add_edge_outgoing g prev u v dd K S Hu Hv) as [N1 S1].
    { rewrite map_app in ND. simpl in ND. apply NoDup_remove_2 in ND.
      intros H. apply ND. apply in_or_app. now left. }
    destruct (IH (prev ++ [(u, v, dd)]) (di_add_edge g u v dd)) as [N2 S2];
      try assumption.
    + now rewrite N1.
    + now rewrite <- app_assoc.
    + rewrite N2, S2, N1, <- app_assoc. auto.
Qed.

End Building.

(** *** Edges grouped by their first end *)

Local Abbreviation source_is n := (fun e : string * string * attrs => String.eqb (fst (fst e)) n).

Lemma by_source_In (ks : list string) (edges : list (string * string * attrs))
      (e : string * string * attrs) :
  In e (by_source ks edges) -> In e edges /\ In (fst (fst e)) ks.
Proof.
  unfold by_source. rewrite in_flat_map. intros [n [Hn H]].
  apply filter_In in H. destruct H as [H E]. apply String.eqb_eq in E.
  split; [assumption | now rewrite E].
Qed.

Lemma by_source_filter (ks : list string) (edges : list (string * string * attrs))
      (n : string) :
  NoDup ks -> In n ks ->
  filter (source_is n) (by_source ks edges) = filter (source_is n) edges.
Proof.
  induction ks as [|m ks IH]; simpl; [tauto|].
  intros ND H. inversion ND as [|? ? Hm ND']; subst.
  rewrite filter_app, CrudFacts.filter_filter.
  destruct (String.eqb_spec m n) as [->|N].
  - rewrite (@filter_none _ (source_is n) (by_source ks edges)).
    + rewrite app_nil_r. apply filter_ext. intros e. apply andb_diag.
    + intros e He. apply by_source_In in He. destruct He as [_ He].
      apply String.eqb_neq. intros E. rewrite E in He. contradiction.
  - rewrite IH; [|assumption|destruct H; [congruence | assumption]].
    rewrite filter_none; [reflexivity|].
    intros e _. destruct (String.eqb_spec (fst (fst e)) m) as [->|]; simpl;
      [now apply String.eqb_neq | reflexivity].
Qed.

Lemma filter_split_perm (A : Type) (p : A -> bool) (l : list A) :
  Permutation (filter p l ++ filter (fun x => negb (p x)) l) l.
Proof.
  induction l as [|x l IH]; simpl; [reflexivity|].
  destruct (p x); simpl.
  - now apply perm_skip.
  - rewrite <- Permutation_middle. now apply perm_skip.
Qed.

Lemma by_source_perm (ks : list string) (edges : list (string * string * attrs)) :
  NoDup ks -> (forall e, In e edges -> In (fst (fst e)) ks) ->
  Permutation (by_source ks edges) edges.
Proof.
  revert edges. induction ks as [|m ks IH]; intros edges ND H.
  - destruct edges as [|e edges]; [reflexivity|]. destruct (H e (or_introl eq_refl)).
  - inversion ND as [|? ? Hm ND']; subst. simpl.
    rewrite <- (filter_split_perm (source_is m) edges) at 3.
    apply Permutation_app_head.
    rewrite <- (IH (filter (fun e => negb (source_is m e)) edges)); [|assumption|].
    + unfold by_source. apply Permutation_refl'. apply flat_map_ext_In.
      intros n Hn. rewrite CrudFacts.filter_filter. apply filter_ext. intros e.
      destruct (String.eqb_spec (fst (fst e)) m) as [E|]; simpl; [|reflexivity].
      apply String.eqb_neq. intros E'. rewrite E in E'. congruence.
    + intros e He. apply filter_In in He. destruct He as [He Ne].
      destruct (H e He) as [E|]; [|assumption].
      rewrite <- E, String.eqb_refl in Ne. discriminate.
Qed.

(** The order in which [_stabilize_graph] sorts the edges. *)
Local Abbreviation edge_key :=
  (fun x : string * string * attrs => _get_edge_key (fst (fst x)) (snd (fst x))).
Local Abbreviation edge_sort := (sorted edge_key String.ltb false).
Local Abbreviation edge_sorted :=
  (StronglySorted (may_precede edge_key String.ltb false)).

Lemma edge_sort_sorted (edges : list (string * string * attrs)) :
  edge_sorted (edge_sort edges).
Proof. apply sorted_strongly_sorted; [apply ascending_asym | apply ascending_trans]. Qed.

Lemma edge_sort_copy (edges : list (string * string * attrs)) :
  map copy_edge_attrs (edge_sort edges) = edge_sort (map copy_edge_attrs edges).
Proof. now apply sorted_map. Qed.

(** Grouping, sorting and grouping again gives the first grouping. *)
Lemma regroup (ks : list string) (edges : list (string * string * attrs)) :
  NoDup ks ->
  edge_sorted edges ->
  (forall e, In e edges -> copy_edge_attrs e = e) ->
  by_source ks (map copy_edge_attrs (edge_sort (by_source ks edges)))
  = by_source ks edges.
Proof.
  intros ND S C. rewrite edge_sort_copy.
  assert (Id : map copy_edge_attrs (by_source ks edges) = by_source ks edges).
  { rewrite <- (map_id (by_source ks edges)) at 2. apply map_ext_in.
    intros e He. apply C. now apply by_source_In in He. }
  rewrite Id. unfold by_source at 1 3. apply flat_map_ext_In. intros n Hn.
  rewrite filter_sorted by (apply ascending_asym || apply ascending_trans).
  rewrite by_source_filter by assumption.
  apply sorted_fixpoint. apply strongly_sorted_filter. exact S.
Qed.

(** *** The edges that a built graph reports *)

Local Abbreviation ascending := (StronglySorted (fun a b : string => String.ltb a b = true)).

Lemma ascending_app (l1 l2 : list string) (x y : string) :
  ascending (l1 ++ l2) -> In x l1 -> In y l2 -> String.ltb x y = true.
Proof.
  induction l1 as [|a l1 IH]; simpl; intros S Hx Hy; [tauto|].
  inversion S as [|? ? S' F]; subst. destruct Hx as [->|Hx].
  - rewrite Forall_forall in F. apply F. apply in_or_app. now right.
  - now apply IH.
Qed.

Lemma ascending_suffix (l1 l2 : list string) : ascending (l1 ++ l2) -> ascending l2.
Proof.
  induction l1 as [|a l1 IH]; simpl; intros S; [assumption|].
  inversion S; subst. auto.
Qed.

Lemma incident_reported (ks : list string) (n : string) (seen : list string)
      (edges : list (string * string * attrs)) :
  (forall x, In x ks -> (In x seen <-> String.ltb x n = true)) ->
  Forall (edge_between ks) edges -> Forall oriented edges ->
  map (fun nd => (n, fst nd, snd nd))
      (filter (fun nd => negb (str_in (fst nd) seen)) (incident n edges))
  = filter (source_is n) (map copy_edge_attrs edges).
Proof.
  intros Seen. induction edges as [|[[u v] dd] edges IH]; intros B O; [reflexivity|].
  apply Forall_cons_iff in B. destruct B as [[Hu Hv] B].
  apply Forall_cons_iff in O. destruct O as [Ouv O].
  unfold oriented in Ouv. simpl in Hu, Hv, Ouv.
  change ((u, v, dd) :: edges) with ([(u, v, dd)] ++ edges).
  rewrite incident_app, incident_single, filter_app, map_app, (IH B O). simpl.
  destruct (String.eqb_spec u n) as [->|N]; simpl.
  - assert (Sv : str_in v seen = false).
    { apply str_in_false_iff. intros H. apply (Seen v Hv) in H. congruence. }
    now rewrite Sv.
  - destruct (String.eqb_spec v n) as [->|N']; simpl; [|reflexivity].
    assert (Su : str_in u seen = true).
    { apply str_in_iff. apply (Seen u Hu).
      destruct (String.ltb u n) eqn:E; [reflexivity|].
      exfalso. apply N. now apply ltb_total. }
    now rewrite Su.
Qed.

Lemma iter_edges_incident (edges : list (string * string * attrs))
      (ks2 ks1 seen : list string) :
  ascending (ks1 ++ ks2) ->
  (forall x, In x seen <-> In x ks1) ->
  Forall (edge_between (ks1 ++ ks2)) edges -> Forall oriented edges ->
  iter_edges (map (fun n => (n, incident n edges)) ks2) seen
  = by_source ks2 (map copy_edge_attrs edges).
Proof.
  revert ks1 seen. induction ks2 as [|n ks2 IH]; intros ks1 seen A Seen B O;
    [reflexivity|].
  simpl. f_equal.
  - apply (incident_reported (ks := ks1 ++ n :: ks2)); try assumption.
    intros x Hx. rewrite Seen. split.
    + intros H. apply (@ascending_app ks1 (n :: ks2) x n A H). now left.
    + intros L. apply in_app_or in Hx. destruct Hx as [Hx|[<-|Hx]]; [assumption| |].
      * rewrite ltb_irrefl in L. discriminate.
      * exfalso. assert (L' : String.ltb n x = true).
        { apply ascending_suffix in A.
          inversion A as [|? ? _ F]; subst. rewrite Forall_forall in F. auto. }
        apply ltb_asym in L'. congruence.
  - apply (IH (ks1 ++ [n])).
    + now rewrite <- app_assoc.
    + intros x. simpl. rewrite in_app_iff, Seen. simpl. tauto.
    + now rewrite <- app_assoc.
    + assumption.
Qed.

Lemma outgoing_reported (n : string) (edges : list (string * string * attrs)) :
  map (fun vd => (n, fst vd, snd vd)) (outgoing n edges)
  = filter (source_is n) (map copy_edge_attrs edges).
Proof.
  induction edges as [|[[u v] dd] edges IH]; [reflexivity|].
  change ((u, v, dd) :: edges) with ([(u, v, dd)] ++ edges).
  rewrite outgoing_app, outgoing_single, map_app, IH. simpl.
  destruct (String.eqb_spec u n) as [->|]; reflexivity.
Qed.

Lemma di_edges_outgoing (g : DiGraph) (ks : list string)
      (edges : list (string * string * attrs)) :
  _succ g = map (fun n => (n, outgoing n edges)) ks ->
  di_edges_data g = by_source ks (map copy_edge_attrs edges).
Proof.
  intros S. unfold di_edges_data. rewrite S. clear S.
  induction ks as [|n ks IH]; simpl; [reflexivity|].
  now rewrite IH, outgoing_reported.
Qed.

(** *** The edges that a well-formed graph reports *)

Lemma sort_source_target_oriented (e : string * string * attrs) :
  oriented (_sort_source_target e).
Proof.
  unfold _sort_source_target, oriented.
  destruct (String.ltb (snd (fst e)) (fst (fst e))) eqn:E; simpl.
  - now apply ltb_asym.
  - exact E.
Qed.

Lemma sort_source_target_fixed (e : string * string * attrs) :
  oriented e -> _sort_source_target e = e.
Proof.
  unfold _sort_source_target, oriented. intros ->. now destruct e as [[u v] dd].
Qed.

Lemma sort_source_target_between (ks : list string) (e : string * string * attrs) :
  edge_between ks e -> edge_between ks (_sort_source_target e).
Proof.
  unfold _sort_source_target, edge_between.
  destruct (String.ltb (snd (fst e)) (fst (fst e))); simpl; tauto.
Qed.

Lemma undirected_edges_between (g : Graph) :
  graph_ok g -> Forall (edge_between (dict_keys (_node g))) (edges_data g).
Proof.
  intros [N [K [D S]]]. apply Forall_forall. intros [[n v] dd] H.
  apply iter_edges_In in H. destruct H as [nbrs [Hn Hv]].
  assert (ND : NoDup (dict_keys (_adj g))) by now rewrite K.
  assert (A := @adj_of_In _ _ _ ND Hn).
  split; simpl.
  - rewrite <- K. change n with (fst (n, nbrs)). now apply in_map.
  - rewrite <- K. apply dict_mem_iff. apply neighbour_is_key with (v := n).
    unfold dict_mem. rewrite <- S, A.
    assert (M : dict_mem nbrs v = true).
    { apply dict_mem_iff. change v with (fst (v, dd)). now apply in_map. }
    exact M.
Qed.

(** The pair under which [_stabilize_graph] files the edge from [n] to [v]. *)
Lemma reported_distinct (items : list (string * dict attrs)) (seen : list string) :
  NoDup (map fst items) ->
  (forall n nbrs, In (n, nbrs) items -> NoDup (dict_keys nbrs)) ->
  NoDup (map fst (map _sort_source_target (iter_edges items seen)))
  /\ forall e, In e (iter_edges items seen) ->
                In (fst (fst e)) (map fst items) /\ ~ In (snd (fst e)) seen.
Proof.
  revert seen. induction items as [|[n nbrs] items IH]; intros seen ND Hn; simpl.
  - split; [constructor | tauto].
  - inversion ND as [|? ? Nn ND']; subst.
    destruct (IH (n :: seen) ND') as [I1 I2].
    { intros m l H. apply (Hn m l). now right. }
    assert (Here : forall e,
               In e (map (fun nd => (n, fst nd, snd nd))
                         (filter (fun nd => negb (str_in (fst nd) seen)) nbrs)) ->
               fst (fst e) = n /\ ~ In (snd (fst e)) seen
               /\ In (snd (fst e)) (dict_keys nbrs)).
    { intros e He. apply in_map_iff in He. destruct He as [[v d] [<- He]].
      apply filter_In in He. destruct He as [He Hs]. simpl in *.
      split; [reflexivity|]. split.
      - apply str_in_false_iff. now destruct (str_in v seen).
      - change v with (fst (v, d)). now apply in_map. }
    split.
    + rewrite !map_app. apply NoDup_app; [|exact I1|].
      * rewrite !map_map.
        apply NoDup_map_NoDup_ForallPairs.
        -- intros [v d] [v' d'] Hv Hv' E. simpl in E.
           assert (v = v').
           { unfold _sort_source_target in E. simpl in E.
             destruct (String.ltb v n), (String.ltb v' n); simpl in E;
               inversion E; congruence. }
           subst v'. f_equal.
           apply filter_In in Hv, Hv'. destruct Hv as [Hv _]. destruct Hv' as [Hv' _].
           assert (G := Hn n nbrs (or_introl eq_refl)).
           pose proof (@dict_get_NoDup_In _ _ _ _ G Hv) as G1.
           pose proof (@dict_get_NoDup_In _ _ _ _ G Hv') as G2. congruence.
        -- apply NoDup_filter.
           assert (G := Hn n nbrs (or_introl eq_refl)).
           now apply NoDup_map_inv in G.
      * intros p Hp Hp'.
        apply in_map_iff in Hp. destruct Hp as [e [<- He]].
        apply in_map_iff in He. destruct He as [e0 [<- He0]].
        apply in_map_iff in Hp'. destruct Hp' as [e' [E He']].
        apply in_map_iff in He'. destruct He' as [e1 [<- He1]].
        apply Here in He0. destruct He0 as [A1 _].
        apply I2 in He1. destruct He1 as [B1 B2].
        assert (fst (fst e1) <> n) by (intros X; rewrite X in B1; contradiction).
        assert (snd (fst e1) <> n) by (intros X; apply B2; left; now rewrite X).
        unfold _sort_source_target in E. rewrite A1 in E.
        destruct (String.ltb (snd (fst e1)) (fst (fst e1))),
                 (String.ltb (snd (fst e0)) n); simpl in E; inversion E; congruence.
    + intros e He. apply in_app_or in He. destruct He as [He|He].
      * apply Here in He. destruct He as [A1 [A2 _]]. split; [now left | assumption].
      * apply I2 in He. destruct He as [B1 B2]. split; [now right|].
        intros X. apply B2. now right.
Qed.

Lemma undirected_edges_distinct (g : Graph) :
  graph_ok g -> NoDup (map fst (map _sort_source_target (edges_data g))).
Proof.
  intros [N [K [D S]]]. assert (ND : NoDup (dict_keys (_adj g))) by now rewrite K.
  apply reported_distinct; [exact ND|].
  intros n nbrs H. rewrite <- (@adj_of_In _ _ _ ND H). apply D.
Qed.

Lemma directed_edges_between (g : DiGraph) :
  digraph_ok g -> Forall (edge_between (dict_keys (di_node g))) (di_edges_data g).
Proof.
  intros [N [K [D S]]]. assert (ND : NoDup (dict_keys (_succ g))) by now rewrite K.
  apply Forall_forall. intros [[n v] dd] H.
  unfold di_edges_data in H. apply in_flat_map in H. destruct H as [[m nbrs] [Hm H]].
  apply in_map_iff in H. destruct H as [[v' d'] [E Hv]]. simpl in E. inversion E; subst.
  split; simpl.
  - rewrite <- K. change n with (fst (n, nbrs)). now apply in_map.
  - apply (S n). rewrite (@adj_of_In _ _ _ ND Hm).
    change v with (fst (v, dd)). now apply in_map.
Qed.

Lemma directed_edges_distinct (g : DiGraph) :
  digraph_ok g -> NoDup (map fst (di_edges_data g)).
Proof.
  intros [N [K [D S]]]. assert (ND : NoDup (dict_keys (_succ g))) by now rewrite K.
  assert (Hn : forall n nbrs, In (n, nbrs) (_succ g) -> NoDup (dict_keys nbrs)).
  { intros n nbrs H. rewrite <- (@adj_of_In _ _ _ ND H). apply D. }
  unfold di_edges_data. clear N K D S. unfold dict_keys in ND.
  induction (_succ g) as [|[n nbrs] items IH]; simpl; [constructor|].
  inversion ND as [|? ? Nn ND']; subst.
  rewrite map_app. apply NoDup_app.
  - rewrite map_map. simpl.
    assert (G := Hn n nbrs (or_introl eq_refl)). unfold dict_keys in G.
    clear - G. induction nbrs as [|[v d] nbrs IHn]; simpl; [constructor|].
    inversion G as [|? ? Nv G']; subst. constructor; [|auto].
    rewrite in_map_iff. intros [[v' d'] [E H]]. simpl in E. inversion E; subst.
    apply Nv. change v with (fst (v, d')). now apply in_map.
  - apply IH; [assumption|]. intros m l H. apply (Hn m l). now right.
  - intros p Hp Hp'. apply in_map_iff in Hp. destruct Hp as [e [<- He]].
    apply in_map_iff in He. destruct He as [[v d] [<- Hv]].
    apply in_map_iff in Hp'. destruct Hp' as [e' [E He']].
    apply in_flat_map in He'. destruct He' as [[m l] [Hm He']].
    apply in_map_iff in He'. destruct He' as [[v' d'] [<- Hv']].
    simpl in E. inversion E; subst. apply Nn.
    change n with (fst (n, l)). now apply in_map.
Qed.

(** *** The nodes in ascending order *)

Local Abbreviation node_sort := (sorted (@fst string attrs) String.ltb false).
Local Abbreviation copy_node :=
  (fun nd : string * attrs => (fst nd, dict_update [] (snd nd))).

Lemma node_sort_perm (nodes : dict attrs) : Permutation (node_sort nodes) nodes.
Proof. apply sorted_perm. Qed.

Lemma node_sort_distinct (nodes : dict attrs) :
  NoDup (dict_keys nodes) -> NoDup (map fst (node_sort nodes)).
Proof.
  intros ND. eapply Permutation_NoDup; [|exact ND].
  apply Permutation_map, Permutation_sym, node_sort_perm.
Qed.

Lemma node_sort_In (nodes : dict attrs) (n : string) :
  In n (map fst (node_sort nodes)) <-> In n (dict_keys nodes).
Proof.
  split; apply Permutation_in; apply Permutation_map;
    [|apply Permutation_sym]; apply node_sort_perm.
Qed.

Lemma distinct_sorted_ascending (l : dict attrs) :
  StronglySorted (may_precede (@fst string attrs) String.ltb false) l ->
  NoDup (map fst l) -> ascending (map fst l).
Proof.
  induction 1 as [|x l S IH F]; simpl; intros ND; [constructor|].
  inversion ND as [|? ? Nx ND']; subst. constructor; [auto|].
  rewrite Forall_forall in *. intros k Hk.
  apply in_map_iff in Hk. destruct Hk as [y [<- Hy]].
  specialize (F y Hy). unfold may_precede, strictly_before in F.
  destruct (String.ltb (fst x) (fst y)) eqn:E; [reflexivity|].
  exfalso. apply Nx. rewrite (ltb_total _ _ E F). now apply in_map.
Qed.

Lemma node_sort_ascending (nodes : dict attrs) :
  NoDup (dict_keys nodes) -> ascending (map fst (node_sort nodes)).
Proof.
  intros ND. apply distinct_sorted_ascending; [|now apply node_sort_distinct].
  apply sorted_strongly_sorted; [apply ascending_asym | apply ascending_trans].
Qed.

(** Sorting the copies of sorted nodes gives them back. *)
Lemma node_sort_again (nodes : dict attrs) :
  node_sort (map copy_node (node_sort nodes)) = map copy_node (node_sort nodes).
Proof.
  rewrite (@sorted_map _ _ _ fst fst String.ltb false copy_node nodes) by reflexivity.
  apply sorted_fixpoint.
  apply sorted_strongly_sorted; [apply ascending_asym | apply ascending_trans].
Qed.

Lemma copy_node_twice (nodes : dict attrs) :
  map copy_node (map copy_node nodes) = map copy_node nodes.
Proof.
  rewrite map_map. apply map_ext. intros [n d]. simpl. now rewrite copy_attrs_twice.
Qed.

Lemma copy_node_keys (nodes : dict attrs) : map fst (map copy_node nodes) = map fst nodes.
Proof. rewrite map_map. reflexivity. Qed.

Lemma copy_edge_keys (edges : list (string * string * attrs)) :
  map fst (map copy_edge_attrs edges) = map fst edges.
Proof. rewrite map_map. reflexivity. Qed.

(** *** What [_stabilize_graph] builds *)

Section Canonical.
Variable nodes : dict attrs.
Variable edges : list (string * string * attrs).
Hypothesis nodes_distinct : NoDup (dict_keys nodes).
Hypothesis edges_between : Forall (edge_between (dict_keys nodes)) edges.
Hypothesis edges_distinct : NoDup (map fst edges).

Local Abbreviation ks := (map fst (node_sort nodes)).
Local Abbreviation sorted_edges := (edge_sort edges).

Lemma sorted_edges_between : Forall (edge_between ks) sorted_edges.
Proof.
  eapply Permutation_Forall; [apply Permutation_sym, sorted_perm|].
  eapply Forall_impl; [|exact edges_between].
  intros e [H1 H2]. split; now apply node_sort_In.
Qed.

Lemma sorted_edges_distinct : NoDup (map fst sorted_edges).
Proof.
  eapply Permutation_NoDup; [|exact edges_distinct].
  apply Permutation_map, Permutation_sym, sorted_perm.
Qed.

Lemma built_undirected :
  Forall oriented edges ->
  add_edges_from (add_nodes_from empty_graph (node_sort nodes)) sorted_edges
  = mkGraph (map copy_node (node_sort nodes))
            (map (fun n => (n, incident n sorted_edges)) ks).
Proof.
  intros O.
  rewrite add_nodes_from_distinct;
    [|reflexivity | simpl; now apply node_sort_distinct].
  simpl app.
  replace (map (fun nd : string * attrs => (fst nd, @nil (string * attrs)))
               (node_sort nodes))
    with (map (fun n => (n, incident n [])) ks) by (now rewrite map_map).
  rewrite (@add_edges_from_incident ks (@node_sort_distinct nodes nodes_distinct)).
  - reflexivity.
  - unfold dict_keys. apply copy_node_keys.
  - apply sorted_edges_between.
  - simpl. eapply Permutation_Forall; [apply Permutation_sym, sorted_perm | exact O].
  - simpl. apply sorted_edges_distinct.
Qed.

Lemma built_directed :
  di_node (di_add_edges_from (di_add_nodes_from empty_digraph (node_sort nodes))
                             sorted_edges)
  = map copy_node (node_sort nodes)
  /\ _succ (di_add_edges_from (di_add_nodes_from empty_digraph (node_sort nodes))
                              sorted_edges)
     = map (fun n => (n, outgoing n sorted_edges)) ks.
Proof.
  destruct (@di_add_nodes_from_distinct (node_sort nodes) empty_digraph) as [N1 S1];
    [reflexivity | simpl; now apply node_sort_distinct |].
  simpl in N1, S1.
  destruct (@di_add_edges_from_outgoing ks (@node_sort_distinct nodes nodes_distinct)
              sorted_edges []
              (di_add_nodes_from empty_digraph (node_sort nodes))) as [N2 S2].
  - rewrite N1. unfold dict_keys. apply copy_node_keys.
  - rewrite S1. now rewrite map_map.
  - apply sorted_edges_between.
  - simpl. apply sorted_edges_distinct.
  - rewrite N2, S2, N1. auto.
Qed.

(** Stabilizing what has been built: the nodes and the grouped edges come
    back as they are. *)
Lemma canonical_again :
  let grouped := by_source ks (map copy_edge_attrs sorted_edges) in
  map copy_node (node_sort (map copy_node (node_sort nodes)))
  = map copy_node (node_sort nodes)
  /\ by_source (map fst (node_sort (map copy_node (node_sort nodes))))
               (map copy_edge_attrs (edge_sort grouped))
     = grouped.
Proof.
  intros grouped. rewrite node_sort_again, copy_node_twice, copy_node_keys.
  split; [reflexivity|]. unfold grouped. apply regroup.
  - now apply node_sort_distinct.
  - rewrite edge_sort_copy. apply edge_sort_sorted.
  - intros e He. apply in_map_iff in He. destruct He as [e0 [<- _]].
    apply copy_edge_attrs_twice.
Qed.

End Canonical.

(** *** The content of a stabilized graph *)

Lemma map_fixed (A : Type) (f : A -> A) (l : list A) :
  (forall x, In x l -> f x = x) -> map f l = l.
Proof.
  intros H. rewrite <- (map_id l) at 2. now apply map_ext_in.
Qed.

Lemma outgoing_keys_distinct (u : string) (edges : list (string * string * attrs)) :
  NoDup (map fst edges) -> NoDup (dict_keys (outgoing u edges)).
Proof.
  induction edges as [|[[a b] d] edges IH]; intros ND; [constructor|].
  simpl in ND. inversion ND as [|? ? Ne ND']; subst. specialize (IH ND').
  change ((a, b, d) :: edges) with ([(a, b, d)] ++ edges).
  rewrite outgoing_app, outgoing_single.
  destruct (String.eqb a u) eqn:E; simpl; [|exact IH].
  apply String.eqb_eq in E. constructor; [|exact IH].
  intros H. apply outgoing_keys in H. apply Ne. now subst.
Qed.

Lemma stabilized_undirected (g : Graph) :
  graph_ok g ->
  graphml_content (_stabilize_graph (Undirected g))
  = (false,
     map copy_node (node_sort (_node g)),
     by_source (map fst (node_sort (_node g)))
       (map copy_edge_attrs (edge_sort (map _sort_source_target (edges_data g))))).
Proof.
  intros G. assert (ND : NoDup (dict_keys (_node g))) by apply G.
  assert (B : Forall (edge_between (dict_keys (_node g)))
                     (map _sort_source_target (edges_data g))).
  { apply Forall_map. eapply Forall_impl; [|apply undirected_edges_between, G].
    intros e. apply sort_source_target_between. }
  assert (D := undirected_edges_distinct G).
  assert (O : Forall oriented (map _sort_source_target (edges_data g))).
  { apply Forall_map, Forall_forall. intros e _. apply sort_source_target_oriented. }
  unfold _stabilize_graph, graphml_content.
  cbn [is_directed negb nodes_data any_edges_data].
  rewrite (@built_undirected (_node g) _ ND B D O).
  cbn [_node]. unfold edges_data. cbn [_adj].
  rewrite (@iter_edges_incident _ _ [] []).
  - reflexivity.
  - simpl. now apply node_sort_ascending.
  - tauto.
  - simpl. now apply sorted_edges_between.
  - eapply Permutation_Forall; [apply Permutation_sym, sorted_perm | exact O].
Qed.

Lemma stabilized_directed (g : DiGraph) :
  digraph_ok g ->
  exists g1,
    _stabilize_graph (Directed g) = Directed g1
    /\ digraph_ok g1
    /\ di_node g1 = map copy_node (node_sort (di_node g))
    /\ di_edges_data g1
       = by_source (map fst (node_sort (di_node g)))
           (map copy_edge_attrs (edge_sort (di_edges_data g))).
Proof.
  intros G. assert (ND : NoDup (dict_keys (di_node g))) by apply G.
  assert (B := directed_edges_between G).
  assert (D := directed_edges_distinct G).
  destruct (@built_directed (di_node g) (di_edges_data g) ND B D) as [N S].
  eexists. split; [reflexivity|].
  cbn [is_directed negb nodes_data any_edges_data].
  assert (K : NoDup (map fst (node_sort (di_node g))))
    by now apply node_sort_distinct.
  split; [|split; [exact N | now apply di_edges_outgoing]].
  unfold digraph_ok. rewrite N, S. unfold dict_keys.
  rewrite copy_node_keys, map_map. cbn [fst]. rewrite map_id.
  split; [exact K|]. split; [reflexivity|].
  assert (A : forall u,
             adj_of (map (fun n => (n, outgoing n (edge_sort (di_edges_data g))))
                         (map fst (node_sort (di_node g)))) u
             = outgoing u (edge_sort (di_edges_data g))
             \/ adj_of (map (fun n => (n, outgoing n (edge_sort (di_edges_data g))))
                         (map fst (node_sort (di_node g)))) u = []).
  { intros u. destruct (in_dec string_dec u (map fst (node_sort (di_node g)))) as [I|I].
    - left. now rewrite (@adj_of_map (fun n => outgoing n (edge_sort (di_edges_data g)))).
    - right. rewrite adj_of_absent; [reflexivity|].
      apply Bool.not_true_is_false. intros M. apply dict_mem_iff in M.
      apply I. revert M. unfold dict_keys. rewrite map_map. cbn [fst].
      now rewrite map_id. }
  split.
  - intros u. destruct (A u) as [E | E]; rewrite E; [|constructor].
    apply outgoing_keys_distinct. now apply sorted_edges_distinct.
  - intros u v. destruct (A u) as [E | E]; rewrite E; [|intros []].
    intros H. apply outgoing_keys in H. apply in_map_iff in H.
    destruct H as [e [Fe He]].
    assert (Bs := @sorted_edges_between (di_node g) (di_edges_data g) B).
    rewrite Forall_forall in Bs. destruct (Bs e He) as [_ T].
    now rewrite Fe in T.
Qed.

(** The stabilized graph lists its nodes and edges in the canonical order,
    whatever the order of insertion was. *)
Lemma stabilize_orders_content :
  graphml_content (_stabilize_graph (Undirected (_graph state_ba)))
  = (false, [("a", []); ("b", [])], [("a", "b", [])])
  /\ graphml_content (Undirected (_graph state_ba))
     = (false, [("b", []); ("a", [])], [("b", "a", [])]).
Proof. split; vm_compute; reflexivity. Qed.

(** C4. Canonical stabilization is idempotent: for every graph [g] of
    either class that satisfies the invariant of its networkx class,
    [_stabilize_graph (_stabilize_graph g)] has the content of
    [_stabilize_graph g] -- the same directedness, the same list of nodes
    with their attributes and the same normalized and sorted list of edges
    with their attributes -- which is all that the GraphML writer
    serializes. *)
Theorem stabilize_idempotent (g : AnyGraph) :
  any_graph_ok g ->
  graphml_content (_stabilize_graph (_stabilize_graph g))
  = graphml_content (_stabilize_graph g).
Proof.
  destruct g as [g | g]; cbn [any_graph_ok]; intros G.
  - assert (E1 := stabilized_undirected G).
    assert (S1 : exists g1, _stabilize_graph (Undirected g) = Undirected g1
                            /\ graph_ok g1).
    { eexists. split; [reflexivity|].
      apply add_edges_from_ok, add_nodes_from_ok, empty_graph_ok. }
    destruct S1 as [g1 [S1 G1]]. rewrite S1 in E1 |- *.
    rewrite (stabilized_undirected G1).
    unfold graphml_content in E1 |- *.
    cbn [is_directed nodes_data any_edges_data] in E1 |- *.
    injection E1 as EN EE. rewrite EN, EE.
    assert (ND : NoDup (dict_keys (_node g))) by apply G.
    destruct (@canonical_again (_node g)
                (map _sort_source_target (edges_data g)) ND) as [C1 C2].
    rewrite (@map_fixed _ _sort_source_target).
    + rewrite C1, C2. reflexivity.
    + intros e He. apply sort_source_target_fixed.
      apply by_source_In in He. destruct He as [He _].
      apply in_map_iff in He. destruct He as [e0 [<- He0]].
      apply (Permutation_in _ (sorted_perm _ _ _ _)) in He0.
      apply in_map_iff in He0. destruct He0 as [e1 [<- _]].
      apply (sort_source_target_oriented e1).
  - destruct (stabilized_directed G) as [g1 [S1 [G1 [N1 D1]]]].
    destruct (stabilized_directed G1) as [g2 [S2 [_ [N2 D2]]]].
    rewrite S1, S2. unfold graphml_content.
    cbn [is_directed nodes_data any_edges_data].
    rewrite N2, D2, N1, D1.
    assert (ND : NoDup (dict_keys (di_node g))) by apply G.
    destruct (@canonical_again (di_node g) (di_edges_data g) ND) as [C1 C2].
    rewrite C1, C2. reflexivity.
Qed.

Lemma stabilize_idempotent_witness :
  (any_graph_ok (Undirected (_graph state_ba))
   /\ graphml_content
        (_stabilize_graph (_stabilize_graph (Undirected (_graph state_ba))))
      = graphml_content (_stabilize_graph (Undirected (_graph state_ba))))
  /\ (any_graph_ok (Directed digraph_ba)
      /\ graphml_content (_stabilize_graph (_stabilize_graph (Directed digraph_ba)))
         = graphml_content (_stabilize_graph (Directed digraph_ba))).
Proof.
  split; split.
  - apply any_graph_okb_sound. vm_compute. reflexivity.
  - apply (stabilize_idempotent (Undirected (_graph state_ba))).
    apply any_graph_okb_sound. vm_compute. reflexivity.
  - apply any_graph_okb_sound. vm_compute. reflexivity.
  - apply (stabilize_idempotent (Directed digraph_ba)).
    apply any_graph_okb_sound. vm_compute. reflexivity.
Defined.

End StabilizeFacts.

(** ** Reloading and persisting *)

Module ReloadFacts.
Import NX Storage Examples PyFacts NXFacts CoherenceFacts CrudFacts.

Section Reload.
Variable namespace : string.
Variable is_multiprocess : bool.
Variable read_graphml : Graph -> Graph.

Local Abbreviation current := (current_graph is_multiprocess read_graphml).
Local Abbreviation fresh_state := (refreshed namespace is_multiprocess read_graphml).

Lemma refreshed_twice (st : State) : fresh_state (fresh_state st) = fresh_state st.
Proof.
  unfold refreshed at 1. rewrite stale_flag, refreshed_flag. reflexivity.
Qed.

Lemma current_of_refreshed (st : State) : current (fresh_state st) = current st.
Proof. apply current_graph_refreshed. Qed.

Lemma refreshed_forgets_graph (st : State) (g : Graph) :
  storage_updated st = true ->
  fresh_state (with_graph st g) = fresh_state st
  /\ current (with_graph st g) = current st.
Proof.
  intros F. unfold refreshed, current_graph. rewrite !stale_flag.
  unfold with_graph, load_nx_graph. cbn [storage_updated graphml_file peer_flags logged].
  rewrite F. auto.
Qed.

Lemma or_new_graph_of_ok (g : Graph) : graph_ok g -> or_new_graph (Some g) = g.
Proof.
  intros [_ [K _]]. unfold or_new_graph, number_of_nodes.
  destruct g as [nd adj]. cbn [_node _adj] in *.
  destruct nd as [|x nd]; simpl; [|reflexivity].
  destruct adj; [reflexivity | discriminate].
Qed.

(** What a call that writes leaves behind. *)
Lemma index_done_callback_written (st : State) :
  (is_multiprocess && storage_updated st) = false ->
  index_done_callback namespace is_multiprocess read_graphml None st
  = (Ok true,
     mkState (current st) false (Some (current st))
             (map (fun _ => true) (peer_flags st))
             (logged (fresh_state st)
              ++ [(INFO, fstring ["Writing graph with ";
                                  str_of_nat (number_of_nodes (current st));
                                  " nodes, ";
                                  str_of_nat (number_of_edges (current st));
                                  " edges"])])).
Proof.
  intros C. unfold index_done_callback. rewrite C.
  unfold bind at 1. rewrite get_graph_eq.
  unfold try_except, write_nx_graph, bind, logger, set_all_update_flags,
    set_storage_updated, ret, with_logged.
  cbn [_graph storage_updated graphml_file peer_flags logged].
  rewrite refreshed_graph, refreshed_peers. reflexivity.
Qed.

(** X1.  A query asked a second time gives the answer of the first time
    and leaves the storage as the first call left it: the graph is
    reloaded at most once for a notification. *)
Theorem repeated_query_changes_nothing (st : State) (a b : string) :
  (let q := has_node namespace is_multiprocess read_graphml a in
   q (snd (q st)) = (fst (q st), snd (q st)))
  /\ (let q := has_edge namespace is_multiprocess read_graphml a b in
      q (snd (q st)) = (fst (q st), snd (q st)))
  /\ (let q := get_node namespace is_multiprocess read_graphml a in
      q (snd (q st)) = (fst (q st), snd (q st)))
  /\ (let q := get_edge namespace is_multiprocess read_graphml a b in
      q (snd (q st)) = (fst (q st), snd (q st)))
  /\ (let q := get_node_edges namespace is_multiprocess read_graphml a in
      q (snd (q st)) = (fst (q st), snd (q st)))
  /\ (let q := node_degree namespace is_multiprocess read_graphml a in
      q (snd (q st)) = (fst (q st), snd (q st))).
Proof.
  cbv zeta.
  rewrite !has_node_eq, !has_edge_eq, !get_node_eq, !get_edge_eq,
    !get_node_edges_eq, !node_degree_eq.
  cbn [fst snd].
  rewrite !current_of_refreshed, !refreshed_twice. repeat split.
Qed.

(** X2.  While the update flag is set, the graph in memory is of no
    account: whatever it is, queries and updates work on the graph of the
    file, and on the empty graph when there is no file.  Changes that were
    not persisted are lost. *)
Theorem notified_storage_reads_file (st : State) (g : Graph)
        (n : string) (node_data : attrs) :
  storage_updated st = true ->
  has_node namespace is_multiprocess read_graphml n (with_graph st g)
  = has_node namespace is_multiprocess read_graphml n st
  /\ get_node namespace is_multiprocess read_graphml n (with_graph st g)
     = get_node namespace is_multiprocess read_graphml n st
  /\ upsert_node namespace is_multiprocess read_graphml n node_data (with_graph st g)
     = upsert_node namespace is_multiprocess read_graphml n node_data st
  /\ fst (get_node namespace is_multiprocess read_graphml n st)
     = Ok (match graphml_file st with
           | Some written => nodes_get (read_graphml written) n
           | None => None
           end).
Proof.
  intros F. destruct (refreshed_forgets_graph st g F) as [R C].
  rewrite !has_node_eq, !get_node_eq, !upsert_node_eq, R, C.
  repeat split. cbn [fst]. f_equal.
  unfold current_graph. rewrite stale_flag, F.
  unfold load_nx_graph, or_new_graph. destruct (graphml_file st) as [w|]; [|reflexivity].
  unfold number_of_nodes, nodes_get.
  destruct (_node (read_graphml w)) eqn:N; simpl; [reflexivity | now rewrite N].
Qed.


(** X4.  What one process persists is what a notified peer works on.
    After a successful [index_done_callback], a storage on the same file
    whose update flag is set answers for nodes and edges as the storage
    that wrote, provided that the reader of the file returns the graph
    that was written. *)
Theorem persisted_graph_reaches_peer (st peer : State) (a b : string) :
  let persist := index_done_callback namespace is_multiprocess read_graphml None in
  graph_ok (current st) ->
  read_graphml (current st) = current st ->
  fst (persist st) = Ok true ->
  storage_updated peer = true ->
  graphml_file peer = graphml_file (snd (persist st)) ->
  fst (get_node namespace is_multiprocess read_graphml a peer)
  = fst (get_node namespace is_multiprocess read_graphml a (snd (persist st)))
  /\ fst (has_edge namespace is_multiprocess read_graphml a b peer)
     = fst (has_edge namespace is_multiprocess read_graphml a b (snd (persist st)))
  /\ fst (get_edge namespace is_multiprocess read_graphml a b peer)
     = fst (get_edge namespace is_multiprocess read_graphml a b (snd (persist st))).
Proof.
  intros persist G R S F E. unfold persist in *.
  assert (C : (is_multiprocess && storage_updated st) = false).
  { destruct (is_multiprocess && storage_updated st) eqn:C; [|reflexivity].
    unfold index_done_callback in S. rewrite C in S. discriminate. }
  rewrite index_done_callback_written in E |- * by exact C.
  cbn [snd graphml_file] in E |- *.
  rewrite !get_node_eq, !has_edge_eq, !get_edge_eq. cbn [fst].
  assert (P : current peer = current st).
  { unfold current_graph at 1. rewrite stale_flag, F.
    unfold load_nx_graph. rewrite E, R. now apply or_new_graph_of_ok. }
  assert (W : current (mkState (current st) false (Some (current st))
                               (map (fun _ => true) (peer_flags st))
                               (logged (fresh_state st)
                                ++ [(INFO, fstring ["Writing graph with ";
                                       str_of_nat (number_of_nodes (current st));
                                       " nodes, ";
                                       str_of_nat (number_of_edges (current st));
                                       " edges"])]))
              = current st).
  { now rewrite current_graph_fresh. }
  rewrite P, W. repeat split.
Qed.

End Reload.

Lemma notified_storage_reads_file_witness :
  storage_updated state_notified = true
  /\ has_node "ns" true read_back "A" (with_graph state_notified empty_graph)
     = has_node "ns" true read_back "A" state_notified
  /\ fst (get_node "ns" true read_back "a" state_notified) = Ok None
  /\ fst (get_node "ns" true read_back "A" state_notified) = Ok (Some []).
Proof.
  split; [reflexivity|].
  destruct (@notified_storage_reads_file "ns" true read_back state_notified
              empty_graph "A" [] eq_refl) as [H _].
  split; [exact H|]. split; reflexivity.
Defined.


Lemma persisted_graph_reaches_peer_witness :
  graph_ok (current_graph false read_back state_ba)
  /\ fst (index_done_callback "ns" false read_back None state_ba) = Ok true
  /\ fst (get_node "ns" false read_back "a"
            (mkState empty_graph true (Some (_graph state_ba)) [] []))
     = fst (get_node "ns" false read_back "a"
              (snd (index_done_callback "ns" false read_back None state_ba))).
Proof.
  assert (G : graph_ok (current_graph false read_back state_ba))
    by (apply graph_okb_sound; vm_compute; reflexivity).
  split; [exact G|]. split; [reflexivity|].
  exact (proj1 (@persisted_graph_reaches_peer "ns" false read_back state_ba
                  (mkState empty_graph true (Some (_graph state_ba)) [] [])
                  "a" "b" G eq_refl eq_refl eq_refl eq_refl)).
Defined.

End ReloadFacts.

(** ** Upserts *)

Module UpsertFacts.
Import NX Storage Examples PyFacts NXFacts CoherenceFacts CrudFacts.

Lemma dict_set_same (V : Type) (d : dict V) (k : string) (v : V) :
  dict_get d k = Some v -> dict_set d k v = d.
Proof.
  induction d as [|[k0 v0] d IH]; simpl; [discriminate|].
  destruct (String.eqb k0 k); intros H.
  - now inversion H.
  - now rewrite IH.
Qed.

Lemma dict_update_fixed (V : Type) (e d : dict V) :
  (forall k v, In (k, v) e -> dict_get d k = Some v) -> dict_update d e = d.
Proof.
  unfold dict_update. induction e as [|[k v] e IH]; intros H; simpl; [reflexivity|].
  rewrite dict_set_same by (apply H; now left).
  apply IH. intros k' v' I. apply H. now right.
Qed.

Lemma dict_update_again (V : Type) (d e : dict V) :
  NoDup (dict_keys e) -> dict_update (dict_update d e) e = dict_update d e.
Proof.
  intros ND. apply dict_update_fixed. intros k v I. now apply dict_get_update_In.
Qed.

Lemma kwargs_ok_distinct (params : list string) (kwargs : attrs) :
  kwargs_ok params kwargs = true -> NoDup (dict_keys kwargs).
Proof.
  unfold kwargs_ok. intros H. apply andb_true_iff in H. now apply nodupb_sound.
Qed.

Lemma dict_get_adj_of (adj : dict (dict attrs)) (u : string) :
  dict_mem adj u = true -> dict_get adj u = Some (adj_of adj u).
Proof.
  unfold dict_mem, adj_of, dict_get_default. now destruct (dict_get adj u).
Qed.

(** *** [add_node] *)

Lemma add_node_get (g : Graph) (n m : string) (attr : attrs) :
  nodes_get (add_node g n attr) m
  = if String.eqb n m
    then Some (dict_update (match nodes_get g n with Some old => old | None => [] end) attr)
    else nodes_get g m.
Proof.
  unfold add_node, nodes_get.
  destruct (dict_get (_node g) n) as [old|]; cbn [_node]; now rewrite dict_get_set.
Qed.

Lemma add_node_adj (g : Graph) (n a : string) (attr : attrs) :
  dict_keys (_adj g) = dict_keys (_node g) ->
  adj_of (_adj (add_node g n attr)) a = adj_of (_adj g) a.
Proof.
  intros K. unfold add_node.
  destruct (dict_get (_node g) n) as [old|] eqn:E; cbn [_adj]; [reflexivity|].
  rewrite adj_of_set. destruct (String.eqb_spec n a) as [<-|N]; [|reflexivity].
  symmetry. apply adj_of_absent. rewrite (absent_in_adj g n K).
  unfold dict_mem. now rewrite E.
Qed.

Lemma add_node_again (g : Graph) (n : string) (attr : attrs) :
  NoDup (dict_keys attr) ->
  add_node (add_node g n attr) n attr = add_node g n attr.
Proof.
  intros ND.
  assert (A : nodes_get (add_node g n attr) n
              = Some (dict_update (match nodes_get g n with
                                   | Some old => old | None => [] end) attr)).
  { rewrite add_node_get. now rewrite String.eqb_refl. }
  unfold nodes_get in A. unfold add_node at 1. rewrite A.
  rewrite dict_update_again by exact ND.
  rewrite dict_set_same by exact A. now destruct (add_node g n attr).
Qed.

(** *** [add_edge] *)

Lemma ensure_node_of_node (g : Graph) (n : string) :
  NX.has_node g n = true -> ensure_node g n = g.
Proof. unfold ensure_node, NX.has_node. now intros ->. Qed.

Lemma ensure_node_get (g : Graph) (n m : string) :
  NX.has_node g m = true ->
  nodes_get (ensure_node g n) m = nodes_get g m.
Proof.
  unfold ensure_node, NX.has_node, nodes_get. intros H.
  destruct (dict_mem (_node g) n) eqn:E; [reflexivity|]. cbn [_node].
  rewrite dict_get_set. destruct (String.eqb_spec n m) as [->|N]; [|reflexivity].
  congruence.
Qed.

Lemma ensure_node_keeps (g : Graph) (n m : string) :
  NX.has_node g m = true -> NX.has_node (ensure_node g n) m = true.
Proof.
  unfold NX.has_node. intros H. rewrite ensure_node_has, H. apply orb_true_r.
Qed.

Lemma add_edge_get_node (g : Graph) (u v m : string) (attr : attrs) :
  NX.has_node g m = true -> nodes_get (add_edge g u v attr) m = nodes_get g m.
Proof.
  intros H. unfold nodes_get. rewrite add_edge_node. fold (nodes_get (ensure_node (ensure_node g u) v) m).
  rewrite ensure_node_get by now apply ensure_node_keeps.
  now apply ensure_node_get.
Qed.

(** An edge that is there with attributes that [attr] does not change. *)
Lemma add_edge_fixed (g : Graph) (u v : string) (attr dd : attrs) :
  NX.has_node g u = true -> NX.has_node g v = true ->
  dict_get (adj_of (_adj g) u) v = Some dd ->
  dict_get (adj_of (_adj g) v) u = Some dd ->
  dict_update dd attr = dd ->
  add_edge g u v attr = g.
Proof.
  intros Hu Hv Euv Evu F. unfold add_edge.
  rewrite (ensure_node_of_node g u Hu), (ensure_node_of_node g v Hv).
  cbv zeta. unfold dict_get_default. rewrite !Euv, !F.
  assert (Mu : dict_mem (_adj g) u = true).
  { apply neighbour_is_key with (v := v). unfold dict_mem. now rewrite Euv. }
  assert (Mv : dict_mem (_adj g) v = true).
  { apply neighbour_is_key with (v := u). unfold dict_mem. now rewrite Evu. }
  rewrite (dict_set_same _ _ Euv).
  rewrite (dict_set_same _ _ (dict_get_adj_of _ _ Mu)).
  rewrite (dict_set_same _ _ Evu).
  rewrite (dict_set_same _ _ (dict_get_adj_of _ _ Mv)).
  now destruct g.
Qed.

Lemma add_edge_again (g : Graph) (u v : string) (attr : attrs) :
  dict_keys (_adj g) = dict_keys (_node g) ->
  NoDup (dict_keys attr) ->
  add_edge (add_edge g u v attr) u v attr = add_edge g u v attr.
Proof.
  intros K ND.
  destruct (add_edge_has_ends g u v attr) as [Hu Hv].
  apply add_edge_fixed
    with (dd := dict_update (dict_get_default (adj_of (_adj g) u) v []) attr);
    try assumption.
  - rewrite add_edge_entry by exact K. now rewrite !String.eqb_refl.
  - rewrite add_edge_entry by exact K. rewrite !String.eqb_refl.
    now rewrite orb_true_r.
  - now apply dict_update_again.
Qed.

(** *** The coroutines *)

Section Upsert.
Variable namespace : string.
Variable is_multiprocess : bool.
Variable read_graphml : Graph -> Graph.

Local Abbreviation current := (current_graph is_multiprocess read_graphml).
Local Abbreviation fresh_state := (refreshed namespace is_multiprocess read_graphml).
Local Abbreviation node_params := ["self"; "node_for_adding"].
Local Abbreviation edge_params := ["self"; "u_of_edge"; "v_of_edge"].

Lemma upsert_node_done (n : string) (node_data : attrs) (st : State) :
  kwargs_ok node_params node_data = true ->
  upsert_node namespace is_multiprocess read_graphml n node_data st
  = (Ok tt, with_graph (fresh_state st) (add_node (current st) n node_data)).
Proof. intros K. rewrite upsert_node_eq. now rewrite kwargs_ok_binds. Qed.

Lemma upsert_edge_done (s t : string) (edge_data : attrs) (st : State) :
  kwargs_ok edge_params edge_data = true ->
  upsert_edge namespace is_multiprocess read_graphml s t edge_data st
  = (Ok tt, with_graph (fresh_state st) (add_edge (current st) s t edge_data)).
Proof. intros K. rewrite upsert_edge_eq. now rewrite kwargs_ok_binds. Qed.

Lemma refreshed_with_graph (st : State) (g : Graph) :
  fresh_state (with_graph (fresh_state st) g) = with_graph (fresh_state st) g.
Proof.
  unfold refreshed at 1. rewrite stale_flag. unfold with_graph at 1.
  cbn [storage_updated]. now rewrite refreshed_flag.
Qed.

Lemma bind_kwargs_rejects (A : Type) (params : list string) (kwargs : attrs)
      (x : A) (k : string) :
  In k (dict_keys kwargs) -> In k params ->
  bind_kwargs params kwargs x = Raise (TypeError "got multiple values for argument").
Proof.
  intros I P. unfold bind_kwargs.
  replace (existsb (fun k0 => str_in k0 params) (dict_keys kwargs)) with true;
    [reflexivity|].
  symmetry. apply existsb_exists. exists k. split; [exact I|]. now apply str_in_iff.
Qed.

(** X5.  [upsert_node] followed by [get_node]: the node is there, and its
    attributes are those it had before, updated with the data of the
    call: every pair of the data is found, and a key that the data does
    not have keeps its value.  The data are a dictionary that the call of
    [add_node] accepts as keyword arguments. *)
Theorem upsert_node_round_trip (st : State) (n : string) (node_data : attrs) :
  kwargs_ok node_params node_data = true ->
  let st' := snd (upsert_node namespace is_multiprocess read_graphml n node_data st) in
  let old := match fst (get_node namespace is_multiprocess read_graphml n st) with
             | Ok (Some node) => node
             | _ => []
             end in
  fst (upsert_node namespace is_multiprocess read_graphml n node_data st) = Ok tt
  /\ fst (has_node namespace is_multiprocess read_graphml n st') = Ok true
  /\ fst (get_node namespace is_multiprocess read_graphml n st')
     = Ok (Some (dict_update old node_data))
  /\ (forall k v, In (k, v) node_data ->
                  dict_get (dict_update old node_data) k = Some v)
  /\ (forall k, ~ In k (dict_keys node_data) ->
                dict_get (dict_update old node_data) k = dict_get old k).
Proof.
  intros K. cbv zeta. rewrite upsert_node_done by exact K. cbn [fst snd].
  rewrite has_node_eq, !get_node_eq, current_with_graph. cbn [fst].
  assert (G : nodes_get (add_node (current st) n node_data) n
              = Some (dict_update (match nodes_get (current st) n with
                                   | Some node => node | None => [] end) node_data)).
  { rewrite add_node_get. now rewrite String.eqb_refl. }
  split; [reflexivity|]. split.
  - f_equal. unfold NX.has_node, dict_mem. unfold nodes_get in G. now rewrite G.
  - split; [now rewrite G|]. split.
    + intros k v I. apply dict_get_update_In; [|exact I].
      now apply kwargs_ok_distinct with (params := node_params).
    + intros k N. now apply dict_get_update_other.
Qed.

(** X6.  [upsert_node] changes one node: every other node keeps its
    attributes, and the edges are as they were. *)
Theorem upsert_node_changes_one_node (st : State) (n : string) (node_data : attrs) :
  graph_ok (current st) ->
  kwargs_ok node_params node_data = true ->
  let st' := snd (upsert_node namespace is_multiprocess read_graphml n node_data st) in
  (forall m, m <> n ->
             fst (get_node namespace is_multiprocess read_graphml m st')
             = fst (get_node namespace is_multiprocess read_graphml m st))
  /\ (forall a b,
        fst (has_edge namespace is_multiprocess read_graphml a b st')
        = fst (has_edge namespace is_multiprocess read_graphml a b st)
        /\ fst (get_edge namespace is_multiprocess read_graphml a b st')
           = fst (get_edge namespace is_multiprocess read_graphml a b st)).
Proof.
  intros G K. cbv zeta. rewrite upsert_node_done by exact K. cbn [snd].
  assert (E : dict_keys (_adj (current st)) = dict_keys (_node (current st))) by apply G.
  split.
  - intros m N. rewrite !get_node_eq, current_with_graph. cbn [fst].
    rewrite add_node_get. destruct (String.eqb_spec n m) as [->|_]; [now elim N | reflexivity].
  - intros a b. rewrite !has_edge_eq, !get_edge_eq, current_with_graph. cbn [fst].
    rewrite !has_edge_entry, add_node_adj by exact E. auto.
Qed.

(** X7.  Data with a key that names a positional parameter of [add_node]
    or of [add_edge] cannot be passed as keyword arguments: the upsert
    raises a [TypeError] and leaves the storage as a query would. *)
Theorem upsert_rejects_parameter_names (st : State) (n s t k : string) (data : attrs) :
  In k (dict_keys data) ->
  (In k node_params ->
   upsert_node namespace is_multiprocess read_graphml n data st
   = (Raise (TypeError "got multiple values for argument"),
      snd (has_node namespace is_multiprocess read_graphml n st)))
  /\ (In k edge_params ->
      upsert_edge namespace is_multiprocess read_graphml s t data st
      = (Raise (TypeError "got multiple values for argument"),
         snd (has_node namespace is_multiprocess read_graphml n st))).
Proof.
  intros I. rewrite upsert_node_eq, upsert_edge_eq, has_node_eq. cbn [snd].
  split; intros P; now rewrite (@bind_kwargs_rejects _ _ _ _ _ I P).
Qed.

(** X8.  [upsert_edge] merges: the edge has the attributes it had
    before, updated with the data of the call, so that a key that the
    data does not have keeps its value.  Every other edge and the
    attributes of every node that was there are as they were. *)
Theorem upsert_edge_merges_attributes (st : State) (s t : string) (edge_data : attrs) :
  graph_ok (current st) ->
  kwargs_ok edge_params edge_data = true ->
  let st' := snd (upsert_edge namespace is_multiprocess read_graphml s t edge_data st) in
  let old := match fst (get_edge namespace is_multiprocess read_graphml s t st) with
             | Ok (Some edge) => edge
             | _ => []
             end in
  fst (get_edge namespace is_multiprocess read_graphml s t st')
  = Ok (Some (dict_update old edge_data))
  /\ (forall k, ~ In k (dict_keys edge_data) ->
                dict_get (dict_update old edge_data) k = dict_get old k)
  /\ (forall a b, names_edge a b (s, t) = false ->
                  fst (get_edge namespace is_multiprocess read_graphml a b st')
                  = fst (get_edge namespace is_multiprocess read_graphml a b st))
  /\ (forall m, fst (has_node namespace is_multiprocess read_graphml m st) = Ok true ->
                fst (get_node namespace is_multiprocess read_graphml m st')
                = fst (get_node namespace is_multiprocess read_graphml m st)).
Proof.
  intros G K. cbv zeta. rewrite upsert_edge_done by exact K. cbn [snd].
  assert (E : dict_keys (_adj (current st)) = dict_keys (_node (current st))) by apply G.
  rewrite !get_edge_eq, current_with_graph. cbn [fst].
  split; [|split; [|split]].
  - rewrite add_edge_entry by exact E. now rewrite !String.eqb_refl.
  - intros k N. now apply dict_get_update_other.
  - intros a b N. rewrite !get_edge_eq, current_with_graph. cbn [fst].
    rewrite add_edge_entry by exact E. unfold names_edge in N. cbn [fst snd] in N.
    now rewrite N.
  - intros m H. rewrite has_node_eq in H. cbn [fst] in H.
    rewrite !get_node_eq, current_with_graph. cbn [fst]. f_equal.
    apply add_edge_get_node. now inversion H.
Qed.

(** X9.  Upserts are idempotent: the same [upsert_node] or [upsert_edge]
    a second time returns as the first time and leaves the storage as
    the first call left it. *)
Theorem upsert_twice_is_upsert_once (st : State) (n s t : string)
        (node_data edge_data : attrs) :
  graph_ok (current st) ->
  kwargs_ok node_params node_data = true ->
  kwargs_ok edge_params edge_data = true ->
  (let upsert := upsert_node namespace is_multiprocess read_graphml n node_data in
   upsert (snd (upsert st)) = upsert st)
  /\ (let upsert := upsert_edge namespace is_multiprocess read_graphml s t edge_data in
      upsert (snd (upsert st)) = upsert st).
Proof.
  intros G Kn Ke. cbv zeta.
  assert (E : dict_keys (_adj (current st)) = dict_keys (_node (current st))) by apply G.
  split.
  - rewrite !upsert_node_done by exact Kn. cbn [snd].
    rewrite refreshed_with_graph, current_with_graph.
    rewrite add_node_again by (now apply kwargs_ok_distinct with (params := node_params)).
    reflexivity.
  - rewrite !upsert_edge_done by exact Ke. cbn [snd].
    rewrite refreshed_with_graph, current_with_graph.
    rewrite add_edge_again;
      [reflexivity | exact E | now apply kwargs_ok_distinct with (params := edge_params)].
Qed.

End Upsert.

Lemma upsert_node_round_trip_witness :
  kwargs_ok ["self"; "node_for_adding"] [("kind", "y"); ("rank", "1")] = true
  /\ fst (get_node "ns" false read_back "a"
            (snd (upsert_node "ns" false read_back "a" [("kind", "y"); ("rank", "1")]
                    state_ids)))
     = Ok (Some [("id", "A"); ("kind", "y"); ("rank", "1")]).
Proof.
  split; [reflexivity|].
  destruct (@upsert_node_round_trip "ns" false read_back state_ids "a"
              [("kind", "y"); ("rank", "1")] eq_refl) as [_ [_ [H _]]].
  exact H.
Defined.

Lemma upsert_node_changes_one_node_witness :
  graph_ok (current_graph false read_back state_ids)
  /\ kwargs_ok ["self"; "node_for_adding"] [("kind", "y")] = true
  /\ fst (get_node "ns" false read_back "b"
            (snd (upsert_node "ns" false read_back "a" [("kind", "y")] state_ids)))
     = fst (get_node "ns" false read_back "b" state_ids).
Proof.
  assert (G : graph_ok (current_graph false read_back state_ids))
    by (apply graph_okb_sound; vm_compute; reflexivity).
  split; [exact G|]. split; [reflexivity|].
  destruct (@upsert_node_changes_one_node "ns" false read_back state_ids "a"
              [("kind", "y")] G eq_refl) as [H _].
  apply H. discriminate.
Defined.

Lemma upsert_rejects_parameter_names_witness :
  In "self" (dict_keys [("self", "x")])
  /\ fst (upsert_node "ns" false read_back "a" [("self", "x")] state_ids)
     = Raise (TypeError "got multiple values for argument")
  /\ fst (upsert_edge "ns" false read_back "a" "b" [("self", "x")] state_ids)
     = Raise (TypeError "got multiple values for argument").
Proof.
  assert (I : In "self" (dict_keys [("self", "x")])) by (now left).
  split; [exact I|].
  destruct (@upsert_rejects_parameter_names "ns" false read_back state_ids
              "a" "a" "b" "self" [("self", "x")] I) as [Hn He].
  split.
  - rewrite Hn; [reflexivity | now left].
  - rewrite He; [reflexivity | now left].
Defined.

Lemma upsert_edge_merges_attributes_witness :
  graph_ok (current_graph false read_back state_ids)
  /\ kwargs_ok ["self"; "u_of_edge"; "v_of_edge"] [("kind", "k")] = true
  /\ fst (get_edge "ns" false read_back "c" "a"
            (snd (upsert_edge "ns" false read_back "c" "a" [("kind", "k")] state_ids)))
     = Ok (Some [("weight", "1"); ("kind", "k")]).
Proof.
  assert (G : graph_ok (current_graph false read_back state_ids))
    by (apply graph_okb_sound; vm_compute; reflexivity).
  split; [exact G|]. split; [reflexivity|].
  destruct (@upsert_edge_merges_attributes "ns" false read_back state_ids "c" "a"
              [("kind", "k")] G eq_refl) as [H _].
  exact H.
Defined.

Lemma upsert_twice_is_upsert_once_witness :
  graph_ok (current_graph false read_back state_ids)
  /\ upsert_edge "ns" false read_back "b" "d" [("weight", "3")]
       (snd (upsert_edge "ns" false read_back "b" "d" [("weight", "3")] state_ids))
     = upsert_edge "ns" false read_back "b" "d" [("weight", "3")] state_ids.
Proof.
  assert (G : graph_ok (current_graph false read_back state_ids))
    by (apply graph_okb_sound; vm_compute; reflexivity).
  split; [exact G|].
  destruct (@upsert_twice_is_upsert_once "ns" false read_back state_ids "a" "b" "d"
              [("id", "A")] [("weight", "3")] G eq_refl eq_refl) as [_ H].
  exact H.
Defined.

End UpsertFacts.

(** ** Nodes: deletion, neighbours and labels *)

Module NodeFacts.
Import NX Storage Examples PyFacts SortedFacts NXFacts CoherenceFacts CrudFacts.
Import KnowledgeGraphFacts.

(** *** Lists in strict order *)

Section StrictOrder.
Variable A : Type.
Variable key : A -> string.

Local Abbreviation precedes := (fun x y : A => String.ltb (key x) (key y) = true).
Local Abbreviation sort := (sorted key String.ltb false).

Lemma sorted_strict (l : list A) :
  StronglySorted (may_precede key String.ltb false) l ->
  NoDup (map key l) -> StronglySorted precedes l.
Proof.
  induction 1 as [|x l S IH F]; simpl; intros ND; [constructor|].
  apply NoDup_cons_iff in ND. destruct ND as [Nx ND]. constructor; [auto|].
  rewrite Forall_forall in *. intros y Hy.
  specialize (F y Hy). unfold may_precede, strictly_before in F.
  destruct (String.ltb (key x) (key y)) eqn:E; [reflexivity|].
  exfalso. apply Nx. rewrite (ltb_total _ _ E F). now apply in_map.
Qed.

Lemma strict_sorted_unique (l1 l2 : list A) :
  StronglySorted precedes l1 -> StronglySorted precedes l2 ->
  Permutation l1 l2 -> l1 = l2.
Proof.
  intros S1. revert l2. induction S1 as [|x l1 S1 IH F1]; intros l2 S2 P.
  - apply Permutation_nil in P. now rewrite P.
  - destruct S2 as [|y l2 S2 F2].
    + apply Permutation_sym, Permutation_nil in P. discriminate.
    + assert (E : x = y).
      { assert (Ix : In x (y :: l2)) by (eapply Permutation_in; [exact P | now left]).
        assert (Iy : In y (x :: l1))
          by (eapply Permutation_in; [apply Permutation_sym, P | now left]).
        destruct Ix as [Ix|Ix]; [now symmetry|].
        destruct Iy as [Iy|Iy]; [exact Iy|].
        rewrite Forall_forall in F1, F2.
        specialize (F1 y Iy). specialize (F2 x Ix). cbv beta in F1, F2.
        apply ltb_asym in F1. congruence. }
      rewrite <- E in *. f_equal. apply IH; [exact S2|].
      now apply Permutation_cons_inv with (a := x).
Qed.

Lemma sort_strict (l : list A) : NoDup (map key l) -> StronglySorted precedes (sort l).
Proof.
  intros ND. apply sorted_strict.
  - apply sorted_strongly_sorted; [apply ascending_asym | apply ascending_trans].
  - eapply Permutation_NoDup; [|exact ND].
    apply Permutation_map, Permutation_sym, sorted_perm.
Qed.

(** The sorted list of distinct keys does not depend on the order of the
    input. *)
Lemma sort_of_permutation (l1 l2 : list A) :
  NoDup (map key l1) -> Permutation l1 l2 -> sort l1 = sort l2.
Proof.
  intros ND P. apply strict_sorted_unique.
  - now apply sort_strict.
  - apply sort_strict. eapply Permutation_NoDup; [|exact ND]. now apply Permutation_map.
  - eapply Permutation_trans; [apply sorted_perm|].
    eapply Permutation_trans; [exact P|]. apply Permutation_sym, sorted_perm.
Qed.

End StrictOrder.

(** *** The edges at a node *)

Lemma filter_all (A : Type) (p : A -> bool) (l : list A) :
  (forall x, p x = true) -> filter p l = l.
Proof.
  intros H. induction l as [|x l IH]; cbn [filter]; [reflexivity|].
  now rewrite H, IH.
Qed.

Lemma edges_of_node (g : Graph) (n : string) :
  NX.has_node g n = true ->
  edges_of g n = map (fun nd => (n, fst nd)) (adj_of (_adj g) n).
Proof.
  intros H. unfold edges_of, nbunch_iter_str. unfold NX.has_node in H. rewrite H.
  change (nodup string_dec [n]) with [n].
  cbn [nodup map iter_edges]. rewrite app_nil_r, map_map.
  now rewrite filter_all.
Qed.

(** *** The coroutines *)

Section Nodes.
Variable namespace : string.
Variable is_multiprocess : bool.
Variable read_graphml : Graph -> Graph.

Local Abbreviation current := (current_graph is_multiprocess read_graphml).
Local Abbreviation fresh_state := (refreshed namespace is_multiprocess read_graphml).

Lemma current_logged (st : State) (g : Graph) (l : level) (message : string) :
  current (with_logged (with_graph (fresh_state st) g) l message) = g.
Proof.
  rewrite current_graph_fresh; [reflexivity|].
  cbn [with_logged with_graph storage_updated]. apply refreshed_flag.
Qed.

Lemma delete_node_present (node_id : string) (st : State) :
  graph_ok (current st) -> NX.has_node (current st) node_id = true ->
  exists g',
    delete_node namespace is_multiprocess read_graphml node_id st
    = (Ok tt, with_logged (with_graph (fresh_state st) g') DEBUG
                (fstring ["Node "; node_id; " deleted from the graph."]))
    /\ _node g' = dict_del (_node (current st)) node_id
    /\ forall a b,
         dict_get (adj_of (_adj g') a) b
         = if String.eqb a node_id || String.eqb b node_id
           then None else dict_get (adj_of (_adj (current st)) a) b.
Proof.
  intros G H. destruct (@remove_node_spec (current st) node_id G H) as [g' [R [N [_ E]]]].
  exists g'. split; [|split; assumption].
  unfold delete_node, bind. rewrite get_graph_eq, H. unfold lift. rewrite R.
  reflexivity.
Qed.

(** X10.  [delete_node] of a node that is there removes it together with
    every edge at it, and logs the deletion; the other nodes keep their
    attributes, and the edges between them are as they were. *)
Theorem delete_node_removes_node (st : State) (n : string) :
  graph_ok (current st) ->
  fst (has_node namespace is_multiprocess read_graphml n st) = Ok true ->
  let st' := snd (delete_node namespace is_multiprocess read_graphml n st) in
  fst (delete_node namespace is_multiprocess read_graphml n st) = Ok tt
  /\ fst (has_node namespace is_multiprocess read_graphml n st') = Ok false
  /\ (forall m,
        fst (has_edge namespace is_multiprocess read_graphml n m st') = Ok false
        /\ fst (has_edge namespace is_multiprocess read_graphml m n st') = Ok false)
  /\ (forall m, m <> n ->
                fst (get_node namespace is_multiprocess read_graphml m st')
                = fst (get_node namespace is_multiprocess read_graphml m st))
  /\ (forall a b, a <> n -> b <> n ->
                  fst (get_edge namespace is_multiprocess read_graphml a b st')
                  = fst (get_edge namespace is_multiprocess read_graphml a b st))
  /\ logged st'
     = logged (snd (has_node namespace is_multiprocess read_graphml n st))
       ++ [(DEBUG, fstring ["Node "; n; " deleted from the graph."])].
Proof.
  intros G H. cbv zeta. rewrite has_node_eq in H. cbn [fst] in H.
  assert (H' : NX.has_node (current st) n = true) by now inversion H.
  destruct (delete_node_present n st G H') as [g' [D [N E]]].
  rewrite D. cbn [fst snd]. split; [reflexivity|].
  rewrite has_node_eq. cbn [fst snd]. rewrite current_logged.
  split; [|split; [|split; [|split]]].
  - f_equal. unfold NX.has_node. rewrite N, dict_mem_del, String.eqb_refl. reflexivity.
  - intros m. rewrite !has_edge_eq, current_logged. cbn [fst].
    rewrite !has_edge_entry. unfold dict_mem. rewrite !E, String.eqb_refl.
    now rewrite orb_true_r.
  - intros m Hm. rewrite !get_node_eq, current_logged. cbn [fst].
    unfold nodes_get. rewrite N, dict_get_del.
    destruct (String.eqb_spec n m) as [->|_]; [now elim Hm | reflexivity].
  - intros a b Ha Hb. rewrite !get_edge_eq, current_logged. cbn [fst].
    rewrite E. apply String.eqb_neq in Ha, Hb. now rewrite Ha, Hb.
  - rewrite has_node_eq. reflexivity.
Qed.

(** X11.  [get_node_edges] of a node lists each of its edges once, as a
    pair that starts with the node: the pairs are the [(n, v)] for which
    [has_edge(n, v)] holds. *)
Theorem get_node_edges_lists_neighbours (st : State) (n : string) :
  graph_ok (current st) ->
  fst (has_node namespace is_multiprocess read_graphml n st) = Ok true ->
  exists edges,
    fst (get_node_edges namespace is_multiprocess read_graphml n st) = Ok (Some edges)
    /\ NoDup edges
    /\ forall u v,
         In (u, v) edges
         <-> u = n /\ fst (has_edge namespace is_multiprocess read_graphml n v st) = Ok true.
Proof.
  intros G H. rewrite has_node_eq in H. cbn [fst] in H.
  assert (H' : NX.has_node (current st) n = true) by now inversion H.
  rewrite get_node_edges_eq, H'. cbn [fst]. eexists. split; [reflexivity|].
  rewrite (edges_of_node _ _ H').
  assert (D : NoDup (dict_keys (adj_of (_adj (current st)) n))) by apply G.
  split.
  - unfold dict_keys in D.
    rewrite <- (map_map fst (fun v => (n, v))).
    apply Finite.Injective_map_NoDup; [|exact D].
    intros x y Exy. now inversion Exy.
  - intros u v. rewrite has_edge_eq. cbn [fst]. rewrite has_edge_entry. split.
    + intros I. apply in_map_iff in I. destruct I as [y [Ey Iy]].
      inversion Ey; subst. split; [reflexivity|]. f_equal.
      apply dict_mem_iff. now apply in_map.
    + intros [-> M]. inversion M as [M']. apply dict_mem_iff in M'.
      apply in_map_iff in M'. destruct M' as [y [Ey Iy]].
      apply in_map_iff. exists y. split; [now rewrite Ey | exact Iy].
Qed.

(** X12.  The degree of a node is the number of the edges that
    [get_node_edges] lists for it, where a self-loop counts twice. *)
Theorem node_degree_counts_edges (st : State) (n : string) :
  graph_ok (current st) ->
  fst (has_node namespace is_multiprocess read_graphml n st) = Ok true ->
  exists edges,
    fst (get_node_edges namespace is_multiprocess read_graphml n st) = Ok (Some edges)
    /\ fst (node_degree namespace is_multiprocess read_graphml n st)
       = Ok (DegreeInt (List.length edges + (if existsb (fun e => String.eqb (snd e) n) edges
                                            then 1 else 0))).
Proof.
  intros G H. rewrite has_node_eq in H. cbn [fst] in H.
  assert (K : dict_keys (_adj (current st)) = dict_keys (_node (current st))) by apply G.
  assert (H' : NX.has_node (current st) n = true) by now inversion H.
  rewrite get_node_edges_eq, node_degree_eq, H'. cbn [fst].
  eexists. split; [reflexivity|].
  rewrite (edges_of_node _ _ H').
  unfold degree_call. rewrite (absent_in_adj _ n K).
  unfold NX.has_node in H'. rewrite H'. unfold degree_of.
  rewrite length_map. do 3 f_equal.
  unfold dict_mem.
  induction (adj_of (_adj (current st)) n) as [|[k v] l IH]; simpl; [reflexivity|].
  destruct (String.eqb k n); [reflexivity | exact IH].
Qed.

(** X13.  [get_all_labels] returns the ids of the nodes, each once, in
    strictly ascending order; the order in which the set of the labels
    iterates has no influence on the result. *)
Theorem get_all_labels_sorted (st : State)
        (set_order set_order' : list string -> list string) :
  exists labels,
    fst (get_all_labels namespace is_multiprocess read_graphml set_order st) = Ok labels
    /\ fst (get_all_labels namespace is_multiprocess read_graphml set_order' st) = Ok labels
    /\ StronglySorted (fun x y => String.ltb x y = true) labels
    /\ forall x,
         In x labels
         <-> fst (has_node namespace is_multiprocess read_graphml x st) = Ok true.
Proof.
  unfold get_all_labels, bind. rewrite get_graph_eq. cbn [fst ret].
  eexists. split; [reflexivity|].
  assert (D : forall order,
             NoDup (map (fun x : string => x)
                        (set_iter order (dict_keys (_node (current st)))))).
  { intros order. rewrite map_id. eapply Permutation_NoDup.
    - apply Permutation_sym, set_iter_perm.
    - apply NoDup_nodup. }
  split; [|split].
  - f_equal. apply sort_of_permutation; [apply D|].
    eapply Permutation_trans; [apply set_iter_perm|].
    apply Permutation_sym, set_iter_perm.
  - apply (sort_strict (fun x : string => x)). apply D.
  - intros x. rewrite has_node_eq. cbn [fst]. split.
    + intros I. f_equal. apply dict_mem_iff.
      apply (set_iter_In set_order). eapply Permutation_in; [apply sorted_perm | exact I].
    + intros H. inversion H as [M]. apply dict_mem_iff in M.
      eapply Permutation_in; [apply Permutation_sym, sorted_perm|].
      now apply set_iter_In.
Qed.

End Nodes.

Lemma delete_node_removes_node_witness :
  graph_ok (current_graph false read_back state_abc)
  /\ fst (has_node "ns" false read_back "B" state_abc) = Ok true
  /\ fst (has_node "ns" false read_back "B"
            (snd (delete_node "ns" false read_back "B" state_abc)))
     = Ok false.
Proof.
  assert (G : graph_ok (current_graph false read_back state_abc))
    by (apply graph_okb_sound; vm_compute; reflexivity).
  split; [exact G|]. split; [reflexivity|].
  destruct (@delete_node_removes_node "ns" false read_back state_abc "B" G eq_refl)
    as [_ [H _]].
  exact H.
Defined.

Lemma get_node_edges_lists_neighbours_witness :
  graph_ok (current_graph false read_back state_abc)
  /\ fst (has_node "ns" false read_back "B" state_abc) = Ok true
  /\ exists edges,
      fst (get_node_edges "ns" false read_back "B" state_abc) = Ok (Some edges)
      /\ NoDup edges.
Proof.
  assert (G : graph_ok (current_graph false read_back state_abc))
    by (apply graph_okb_sound; vm_compute; reflexivity).
  split; [exact G|]. split; [reflexivity|].
  destruct (@get_node_edges_lists_neighbours "ns" false read_back state_abc "B"
              G eq_refl) as [edges [E [D _]]].
  exists edges. split; assumption.
Defined.

Lemma node_degree_counts_edges_witness :
  graph_ok (current_graph false read_back state_abc)
  /\ fst (has_node "ns" false read_back "B" state_abc) = Ok true
  /\ exists edges,
      fst (get_node_edges "ns" false read_back "B" state_abc) = Ok (Some edges)
      /\ fst (node_degree "ns" false read_back "B" state_abc)
         = Ok (DegreeInt (List.length edges
                          + (if existsb (fun e => String.eqb (snd e) "B") edges
                             then 1 else 0))).
Proof.
  assert (G : graph_ok (current_graph false read_back state_abc))
    by (apply graph_okb_sound; vm_compute; reflexivity).
  split; [exact G|]. split; [reflexivity|].
  exact (@node_degree_counts_edges "ns" false read_back state_abc "B" G eq_refl).
Defined.

End NodeFacts.

(** ** Node embeddings *)

Module EmbedFacts.
Import NX Storage Embedding Examples PyFacts CoherenceFacts.

Section Embed.
Variable namespace : string.
Variable is_multiprocess : bool.
Variable read_graphml : Graph -> Graph.
Variable Embeddings : Type.
Variable node2vec_embed : Graph -> result (Embeddings * list string).

Local Abbreviation current := (current_graph is_multiprocess read_graphml).
Local Abbreviation embed :=
  (embed_nodes namespace is_multiprocess read_graphml node2vec_embed).

Lemma embed_nodes_node2vec (st : State) :
  fst (embed "node2vec" st)
  = match node2vec_embed (current st) with
    | Ok embedded =>
        match nodes_ids (current st) (snd embedded) with
        | Ok ids => Returned (fst embedded, ids)
        | Raise e => Raised e
        end
    | Raise e => Raised e
    end.
Proof.
  unfold embed_nodes. cbn [_node_embed_algorithms dict_get String.eqb Ascii.eqb Bool.eqb].
  unfold _node2vec_embed, bind. rewrite get_graph_eq. unfold lift, ret.
  destruct (node2vec_embed (current st)) as [[emb nodes]|e]; [|reflexivity].
  cbn [fst snd]. now destruct (nodes_ids (current st) nodes).
Qed.

Lemma nodes_ids_found (g : Graph) (nodes ids : list string) :
  Forall2 (fun n v => exists node, nodes_get g n = Some node /\ dict_get node "id" = Some v)
          nodes ids ->
  nodes_ids g nodes = Ok ids.
Proof.
  induction 1 as [|n v nodes ids [node [N V]] F IH]; [reflexivity|].
  cbn [nodes_ids]. unfold node_id_attribute. unfold nodes_get in N.
  now rewrite N, V, IH.
Qed.

Lemma nodes_ids_missing (g : Graph) (nodes : list string) (n : string) :
  In n nodes ->
  (forall node, nodes_get g n = Some node -> dict_get node "id" = None) ->
  exists k, nodes_ids g nodes = Raise (KeyError k).
Proof.
  intros I M. induction nodes as [|m nodes IH]; [destruct I|].
  cbn [nodes_ids]. unfold node_id_attribute.
  destruct (dict_get (_node g) m) as [node|] eqn:N; [|now eexists].
  destruct (dict_get node "id") as [v|] eqn:V; [|now eexists].
  destruct I as [->|I].
  - unfold nodes_get in M. rewrite (M node N) in V. discriminate.
  - destruct (IH I) as [k ->]. now eexists.
Qed.

(** X14.  [embed_nodes] knows one algorithm, ["node2vec"].  For any other
    name it raises a [ValueError] that names the algorithm, before it
    looks at the graph: nothing is reloaded and the storage is as it
    was. *)
Theorem embed_nodes_unknown_algorithm (st : State) (algorithm : string) :
  algorithm <> "node2vec" ->
  embed algorithm st
  = (ValueError (fstring ["Node embedding algorithm "; algorithm; " not supported"]), st).
Proof.
  intros N. unfold embed_nodes, _node_embed_algorithms. cbn [dict_get].
  destruct (String.eqb_spec "node2vec" algorithm) as [E|_]; [|reflexivity].
  now elim N.
Qed.

(** X15.  [_node2vec_embed] returns the embeddings with the ["id"]
    attribute of the node of each row.  When the node of some row has no
    such attribute, or is not a node of the graph, the call raises a
    [KeyError]; a node that [upsert_edge] created has no attributes, and
    is such a node when it has a row. *)
Theorem node2vec_embed_reads_ids (st : State) (embeddings : Embeddings)
        (nodes : list string) :
  node2vec_embed (current st) = Ok (embeddings, nodes) ->
  (forall ids,
      Forall2 (fun n v => exists node, nodes_get (current st) n = Some node
                                       /\ dict_get node "id" = Some v) nodes ids ->
      fst (embed "node2vec" st) = Returned (embeddings, ids))
  /\ (forall n,
        In n nodes ->
        (forall node, nodes_get (current st) n = Some node -> dict_get node "id" = None) ->
        exists k, fst (embed "node2vec" st) = Raised (KeyError k)).
Proof.
  intros E. rewrite embed_nodes_node2vec, E. cbn [fst snd]. split.
  - intros ids F. now rewrite (@nodes_ids_found _ _ _ F).
  - intros n I M. destruct (@nodes_ids_missing (current st) nodes n I M) as [k ->].
    now exists k.
Qed.

End Embed.

Lemma embed_nodes_unknown_algorithm_witness :
  embed_nodes "ns" true read_back row_per_node "deepwalk" state_notified
  = (ValueError "Node embedding algorithm deepwalk not supported", state_notified).
Proof.
  apply (@embed_nodes_unknown_algorithm "ns" true read_back _ row_per_node
           state_notified "deepwalk").
  discriminate.
Defined.

Lemma node2vec_embed_reads_ids_witness :
  row_per_node (current_graph false read_back state_ids) = Ok ([1; 1; 1], ["a"; "b"; "c"])
  /\ In "c" ["a"; "b"; "c"]
  /\ exists k,
      fst (embed_nodes "ns" false read_back row_per_node "node2vec" state_ids)
      = Raised (KeyError k).
Proof.
  split; [reflexivity|]. split; [simpl; tauto|].
  destruct (@node2vec_embed_reads_ids "ns" false read_back _ row_per_node state_ids
              [1; 1; 1] ["a"; "b"; "c"] eq_refl) as [_ H].
  apply (H "c"); [simpl; tauto|].
  intros node N. vm_compute in N. inversion N. reflexivity.
Defined.

End EmbedFacts.

(** ** What stabilization keeps *)

Module CanonicalFacts.
Import NX Storage Examples PyFacts SortedFacts NXFacts KnowledgeGraphFacts.
Import StabilizeFacts NodeFacts.

Local Abbreviation copy_node :=
  (fun nd : string * attrs => (fst nd, dict_update [] (snd nd))).
Local Abbreviation node_sort := (sorted (@fst string attrs) String.ltb false).
Local Abbreviation edge_key :=
  (fun x : string * string * attrs => _get_edge_key (fst (fst x)) (snd (fst x))).
Local Abbreviation edge_sort := (sorted edge_key String.ltb false).

(** The edges as [_stabilize_graph] sorts them: those of an undirected
    graph with their ends in order. *)
Local Abbreviation normalized g :=
  (if is_directed g then any_edges_data g
   else map _sort_source_target (any_edges_data g)).

Lemma stabilized_content (g : AnyGraph) :
  any_graph_ok g ->
  graphml_content (_stabilize_graph g)
  = (is_directed g,
     map copy_node (node_sort (nodes_data g)),
     by_source (map fst (node_sort (nodes_data g)))
       (map copy_edge_attrs (edge_sort (normalized g)))).
Proof.
  destruct g as [g|g]; cbn [any_graph_ok is_directed nodes_data any_edges_data]; intros G.
  - now apply stabilized_undirected.
  - destruct (stabilized_directed G) as [g1 [S [_ [N E]]]].
    rewrite S. unfold graphml_content. cbn [is_directed nodes_data any_edges_data].
    now rewrite N, E.
Qed.

Lemma stabilized_ok (g : AnyGraph) : any_graph_ok g -> any_graph_ok (_stabilize_graph g).
Proof.
  destruct g as [g|g]; cbn [any_graph_ok]; intros G.
  - unfold _stabilize_graph. cbn [any_graph_ok].
    apply add_edges_from_ok, add_nodes_from_ok, empty_graph_ok.
  - destruct (stabilized_directed G) as [g1 [S [G1 _]]]. now rewrite S.
Qed.

Lemma normalized_between (g : AnyGraph) :
  any_graph_ok g ->
  Forall (edge_between (dict_keys (nodes_data g))) (normalized g).
Proof.
  destruct g as [g|g]; cbn [any_graph_ok is_directed nodes_data any_edges_data]; intros G.
  - apply Forall_map. eapply Forall_impl; [|apply undirected_edges_between, G].
    intros e. apply sort_source_target_between.
  - now apply directed_edges_between.
Qed.

(** X16.  [_stabilize_graph] keeps the graph: the result is of the same
    class and well formed, has the nodes of the graph, each with a copy of
    its attributes, in strictly ascending order of their ids, and has the
    edges of the graph, each with a copy of its attributes, those of an
    undirected graph with their ends in order. *)
Theorem stabilize_keeps_nodes_and_edges (g : AnyGraph) :
  any_graph_ok g ->
  let fixed_graph := _stabilize_graph g in
  is_directed fixed_graph = is_directed g
  /\ any_graph_ok fixed_graph
  /\ Permutation (nodes_data fixed_graph) (map copy_node (nodes_data g))
  /\ StronglySorted (fun a b => String.ltb a b = true) (map fst (nodes_data fixed_graph))
  /\ Permutation (any_edges_data fixed_graph) (map copy_edge_attrs (normalized g)).
Proof.
  intros G. cbv zeta.
  assert (C := stabilized_content g G). unfold graphml_content in C.
  injection C as D N E. rewrite D, N, E.
  assert (ND : NoDup (dict_keys (nodes_data g))) by (destruct g; apply G).
  split; [reflexivity|]. split; [now apply stabilized_ok|]. split; [|split].
  - apply Permutation_map, sorted_perm.
  - rewrite map_map. cbn [fst]. now apply node_sort_ascending.
  - eapply Permutation_trans.
    + apply by_source_perm; [now apply node_sort_distinct|].
      intros e I. apply in_map_iff in I. destruct I as [e0 [<- I0]].
      assert (B := @sorted_edges_between (nodes_data g) (normalized g)
                     (normalized_between g G)).
      rewrite Forall_forall in B. now apply (B e0 I0).
    + apply Permutation_map, sorted_perm.
Qed.

(** X17.  [_stabilize_graph] is canonical: two well-formed graphs of the
    same class with the same nodes and the same edges, in whatever order
    these were inserted, have the same stabilized content, provided that
    the sort keys of the edges are all different. *)
Theorem stabilize_is_canonical (g1 g2 : AnyGraph) :
  any_graph_ok g1 -> any_graph_ok g2 ->
  is_directed g1 = is_directed g2 ->
  Permutation (nodes_data g1) (nodes_data g2) ->
  Permutation (normalized g1) (normalized g2) ->
  NoDup (map edge_key (normalized g1)) ->
  graphml_content (_stabilize_graph g1) = graphml_content (_stabilize_graph g2).
Proof.
  intros G1 G2 D N E K. rewrite !stabilized_content by assumption.
  assert (ND : NoDup (dict_keys (nodes_data g1))) by (destruct g1; apply G1).
  rewrite <- (sort_of_permutation (@fst string attrs) ND N).
  rewrite <- (sort_of_permutation edge_key K E).
  now rewrite D.
Qed.

Lemma stabilize_keeps_nodes_and_edges_witness :
  any_graph_ok (Undirected (_graph state_ba))
  /\ Permutation (nodes_data (_stabilize_graph (Undirected (_graph state_ba))))
                 (map copy_node (nodes_data (Undirected (_graph state_ba))))
  /\ Permutation (any_edges_data (_stabilize_graph (Undirected (_graph state_ba))))
                 (map copy_edge_attrs
                      (map _sort_source_target
                           (any_edges_data (Undirected (_graph state_ba))))).
Proof.
  assert (G : any_graph_ok (Undirected (_graph state_ba)))
    by (apply any_graph_okb_sound; vm_compute; reflexivity).
  split; [exact G|].
  destruct (@stabilize_keeps_nodes_and_edges (Undirected (_graph state_ba)) G)
    as [_ [_ [N [_ E]]]].
  split; [exact N | exact E].
Defined.

Lemma stabilize_is_canonical_witness :
  any_graph_ok (Undirected (_graph state_ba))
  /\ any_graph_ok (Undirected graph_ab)
  /\ nodes_data (Undirected (_graph state_ba)) = [("b", []); ("a", [])]
  /\ nodes_data (Undirected graph_ab) = [("a", []); ("b", [])]
  /\ graphml_content (_stabilize_graph (Undirected (_graph state_ba)))
     = graphml_content (_stabilize_graph (Undirected graph_ab)).
Proof.
  assert (G1 : any_graph_ok (Undirected (_graph state_ba)))
    by (apply any_graph_okb_sound; vm_compute; reflexivity).
  assert (G2 : any_graph_ok (Undirected graph_ab))
    by (apply any_graph_okb_sound; vm_compute; reflexivity).
  split; [exact G1|]. split; [exact G2|]. split; [reflexivity|]. split; [reflexivity|].
  apply (@stabilize_is_canonical (Undirected (_graph state_ba)) (Undirected graph_ab)
           G1 G2 eq_refl).
  - apply perm_swap.
  - vm_compute. apply Permutation_refl.
  - vm_compute. constructor; [intros []|constructor].
Defined.

End CanonicalFacts.

(** ** The knowledge graph is a part of the graph *)

Module ResultFacts.
Import NX Storage Examples PyFacts SortedFacts NXFacts CoherenceFacts CrudFacts.
Import KnowledgeGraphFacts StabilizeFacts UpsertFacts NodeFacts.

Local Abbreviation copy_node :=
  (fun nd : string * attrs => (fst nd, dict_update [] (snd nd))).

(** The entries of an adjacency, as [copy] and [view_copy] pass them to
    [add_edges_from]. *)
Local Abbreviation entries :=
  (flat_map (fun un : string * dict attrs =>
               map (fun vd => (fst un, fst vd, snd vd)) (snd un))).

Lemma entries_In (items : list (string * dict attrs)) (u v : string) (dd : attrs) :
  In (u, v, dd) (entries items)
  <-> exists nbrs, In (u, nbrs) items /\ In (v, dd) nbrs.
Proof.
  rewrite in_flat_map. split.
  - intros [[u' nbrs] [I H]]. cbn [fst snd] in H. apply in_map_iff in H.
    destruct H as [[v' d'] [E H]]. cbn [fst snd] in E. inversion E; subst.
    now exists nbrs.
  - intros [nbrs [I H]]. exists (u, nbrs). split; [exact I|].
    cbn [fst snd]. apply in_map_iff. now exists (v, dd).
Qed.

(** *** Graphs built from nodes and edges *)

Lemma add_edges_from_nodes (edges : list (string * string * attrs)) (g : Graph) :
  Forall (edge_between (dict_keys (_node g))) edges ->
  _node (add_edges_from g edges) = _node g.
Proof.
  unfold add_edges_from. revert g.
  induction edges as [|[[u v] dd] edges IH]; intros g B; [reflexivity|].
  apply Forall_cons_iff in B. destruct B as [[Hu Hv] B]. cbn [fst snd] in Hu, Hv.
  cbn [fold_left fst snd].
  assert (N : _node (add_edge g u v dd) = _node g).
  { rewrite add_edge_node.
    rewrite (ensure_node_of_node g u) by (now apply dict_mem_iff).
    rewrite (ensure_node_of_node g v) by (now apply dict_mem_iff).
    reflexivity. }
  rewrite IH; [exact N | now rewrite N].
Qed.

Lemma add_nodes_from_no_edges (nodes : list (string * attrs)) (g : Graph) :
  (forall a, adj_of (_adj g) a = []) ->
  forall a, adj_of (_adj (add_nodes_from g nodes)) a = [].
Proof.
  unfold add_nodes_from. revert g.
  induction nodes as [|[n d] nodes IH]; intros g H; [exact H|].
  cbn [fold_left fst snd]. apply IH. intros a. unfold add_node.
  destruct (dict_get (_node g) n); cbn [_adj]; [apply H|].
  rewrite adj_of_set. destruct (String.eqb n a); [reflexivity | apply H].
Qed.

Lemma add_edges_from_entry (edges : list (string * string * attrs)) (g : Graph)
      (a b : string) :
  graph_ok g ->
  dict_mem (adj_of (_adj (add_edges_from g edges)) a) b = true ->
  dict_mem (adj_of (_adj g) a) b = true
  \/ exists e, In e edges /\ (fst e = (a, b) \/ fst e = (b, a)).
Proof.
  unfold add_edges_from. revert g.
  induction edges as [|[[u v] dd] edges IH]; intros g G H; [now left|].
  cbn [fold_left fst snd] in H.
  destruct (IH _ (add_edge_ok u v dd G) H) as [M|[e [I E]]].
  - unfold dict_mem in M. rewrite add_edge_entry in M by apply G.
    destruct (String.eqb_spec a u) as [->|Na]; destruct (String.eqb_spec b v) as [->|Nb];
      cbn [andb orb] in M.
    + right. exists (u, v, dd). split; [now left | now left].
    + destruct (String.eqb_spec u v) as [->|Nuv]; cbn [andb] in M; [|now left].
      destruct (String.eqb_spec b v) as [->|_]; [now elim Nb | now left].
    + destruct (String.eqb_spec a v) as [->|Nav]; cbn [andb] in M; [|now left].
      destruct (String.eqb_spec v u) as [->|_]; [now elim Na | now left].
    + destruct (String.eqb_spec a v) as [->|Nav]; cbn [andb] in M; [|now left].
      destruct (String.eqb_spec b u) as [->|Nbu]; [|now left].
      right. exists (u, v, dd). split; [now left | now right].
  - right. exists e. split; [now right | exact E].
Qed.

(** A graph built from distinct nodes and from edges between them. *)
Lemma built_graph (nodes : list (string * attrs))
      (edges : list (string * string * attrs)) :
  NoDup (map fst nodes) ->
  Forall (edge_between (map fst nodes)) edges ->
  let g := add_edges_from (add_nodes_from empty_graph nodes) edges in
  _node g = map copy_node nodes
  /\ forall a b,
       NX.has_edge g a b = true ->
       exists e, In e edges /\ (fst e = (a, b) \/ fst e = (b, a)).
Proof.
  intros ND B. cbv zeta.
  assert (N : _node (add_nodes_from empty_graph nodes) = map copy_node nodes).
  { rewrite add_nodes_from_distinct; [reflexivity | reflexivity | exact ND]. }
  split.
  - rewrite add_edges_from_nodes; [exact N|].
    rewrite N. unfold dict_keys. rewrite map_map. exact B.
  - intros a b H. rewrite has_edge_entry in H.
    apply add_edges_from_entry in H; [|apply add_nodes_from_ok, empty_graph_ok].
    destruct H as [M|H]; [|exact H].
    rewrite add_nodes_from_no_edges in M; [discriminate | reflexivity].
Qed.

(** *** The candidate is a part of the graph *)

Lemma entry_in_graph (g : Graph) (u v : string) (nbrs : dict attrs) (dd : attrs) :
  graph_ok g -> In (u, nbrs) (_adj g) -> In (v, dd) nbrs ->
  In u (dict_keys (_node g)) /\ In v (dict_keys (_node g))
  /\ NX.has_edge g u v = true.
Proof.
  intros [N [K [D S]]] Hu Hv.
  assert (ND : NoDup (dict_keys (_adj g))) by now rewrite K.
  assert (A := @adj_of_In _ _ _ ND Hu).
  assert (M : dict_mem (adj_of (_adj g) u) v = true).
  { rewrite A. apply dict_mem_iff. change v with (fst (v, dd)). now apply in_map. }
  split; [|split].
  - rewrite <- K. change u with (fst (u, nbrs)). now apply in_map.
  - rewrite <- K. apply dict_mem_iff. apply neighbour_is_key with (v := u).
    unfold dict_mem in *. now rewrite <- S.
  - now rewrite has_edge_entry.
Qed.

(** What a part of [g] is: its nodes are nodes of [g] with a copy of
    their attributes, and its edges are edges of [g]. *)
Local Abbreviation part_of sub g :=
  ((forall n x, In (n, x) (_node sub) ->
                exists d, nodes_get g n = Some d /\ x = dict_update [] d)
   /\ (forall a b, NX.has_edge sub a b = true -> NX.has_edge g a b = true)).

Lemma copy_part (g : Graph) : graph_ok g -> part_of (copy g) g.
Proof.
  intros G.
  assert (ND : NoDup (map fst (_node g))) by apply G.
  assert (B : Forall (edge_between (map fst (_node g))) (entries (_adj g))).
  { apply Forall_forall. intros [[u v] dd] I. apply entries_In in I.
    destruct I as [nbrs [Hu Hv]].
    destruct (@entry_in_graph g u v nbrs dd G Hu Hv) as [Iu [Iv _]]. now split. }
  assert (N : _node (copy g) = map copy_node (_node g))
    by exact (proj1 (@built_graph _ _ ND B)).
  assert (E : forall a b,
             NX.has_edge (copy g) a b = true ->
             exists e, In e (entries (_adj g)) /\ (fst e = (a, b) \/ fst e = (b, a)))
    by exact (proj2 (@built_graph _ _ ND B)).
  split.
  - intros n x I. rewrite N in I. apply in_map_iff in I.
    destruct I as [[n' d] [Eq I]]. cbn [fst snd] in Eq. inversion Eq; subst.
    exists d. split; [|reflexivity]. unfold nodes_get.
    now apply dict_get_NoDup_In.
  - intros a b H. apply E in H. destruct H as [[[u v] dd] [I Eq]].
    apply entries_In in I. destruct I as [nbrs [Hu Hv]].
    destruct (@entry_in_graph g u v nbrs dd G Hu Hv) as [_ [_ H]]. cbn [fst] in Eq.
    destruct Eq as [Eq|Eq]; inversion Eq; subst; [exact H|].
    now rewrite has_edge_sym.
Qed.

Section ViewParts.
Variable set_order : list string -> list string.

Lemma shown_are_nodes (g : Graph) (l : list string) (x : string) :
  graph_ok g -> In x (view_shown (subgraph g l)) ->
  dict_mem (_node g) x = true /\ dict_mem (_adj g) x = true.
Proof.
  intros G I. cbn [subgraph view_shown] in I. unfold nbunch_iter in I.
  apply filter_In in I. destruct I as [_ M].
  split; [|exact M]. rewrite <- absent_in_adj; [exact M | apply G].
Qed.

Lemma view_keys_In (V : Type) (g : Graph) (l : list string) (atlas : dict V)
      (x : string) :
  NoDup (dict_keys atlas) ->
  (forall y, In y (view_shown (subgraph g l)) -> dict_mem atlas y = true) ->
  In x (view_keys set_order (subgraph g l) atlas) <-> In x (view_shown (subgraph g l)).
Proof.
  intros ND H.
  assert (P := @view_keys_perm set_order V (subgraph g l) atlas ND H).
  rewrite <- (set_elements_In (view_shown (subgraph g l)) x).
  split; apply Permutation_in; [exact P | now apply Permutation_sym].
Qed.

Lemma view_nodes_distinct (g : Graph) (l : list string) :
  graph_ok g -> NoDup (map fst (view_nodes_data set_order (subgraph g l))).
Proof.
  intros G. unfold view_nodes_data. rewrite view_items_keys.
  eapply Permutation_NoDup.
  - apply Permutation_sym, view_keys_perm; [apply G|].
    intros x I. now apply (@shown_are_nodes g l x G).
  - apply NoDup_nodup.
Qed.

(** An entry of the adjacency of a view is an entry of the graph between
    shown nodes. *)
Lemma view_adj_entry (g : Graph) (l : list string) (u v : string)
      (nbrs' : dict attrs) (dd : attrs) :
  graph_ok g ->
  In (u, nbrs') (view_adj_items set_order (subgraph g l)) -> In (v, dd) nbrs' ->
  In u (view_shown (subgraph g l)) /\ In v (view_shown (subgraph g l))
  /\ NX.has_edge g u v = true.
Proof.
  intros G Hu Hv. unfold view_adj_items in Hu. apply in_map_iff in Hu.
  destruct Hu as [[u' nbrs] [Eq Hu]]. cbn [fst snd] in Eq. inversion Eq; subst.
  apply filter_In in Hv. destruct Hv as [Hv Sv]. cbn [fst] in Sv.
  apply str_in_iff in Sv. apply view_items_In in Hu. destruct Hu as [Ku Gu].
  apply view_keys_shown in Ku. destruct Ku as [Su _].
  split; [exact Su|]. split; [exact Sv|].
  apply dict_get_In in Gu. cbn [subgraph view_graph] in Gu.
  now destruct (@entry_in_graph g u v nbrs dd G Gu Hv) as [_ [_ H]].
Qed.

Lemma view_copy_part (g : Graph) (l : list string) :
  graph_ok g ->
  _node (view_copy set_order (subgraph g l))
  = map copy_node (view_nodes_data set_order (subgraph g l))
  /\ part_of (view_copy set_order (subgraph g l)) g.
Proof.
  intros G.
  assert (ND := @view_nodes_distinct g l G).
  assert (KN : forall x, In x (map fst (view_nodes_data set_order (subgraph g l)))
                         <-> In x (view_shown (subgraph g l))).
  { intros x. unfold view_nodes_data. rewrite view_items_keys.
    apply view_keys_In; [apply G|].
    intros y I. cbn [subgraph view_graph]. now apply (@shown_are_nodes g l y G). }
  assert (B : Forall (edge_between (map fst (view_nodes_data set_order (subgraph g l))))
                     (entries (view_adj_items set_order (subgraph g l)))).
  { apply Forall_forall. intros [[u v] dd] I. apply entries_In in I.
    destruct I as [nbrs [Hu Hv]].
    destruct (@view_adj_entry g l u v nbrs dd G Hu Hv) as [Su [Sv _]].
    split; cbn [fst snd]; now apply KN. }
  assert (N : _node (view_copy set_order (subgraph g l))
              = map copy_node (view_nodes_data set_order (subgraph g l)))
    by exact (proj1 (@built_graph _ _ ND B)).
  assert (E : forall a b,
             NX.has_edge (view_copy set_order (subgraph g l)) a b = true ->
             exists e, In e (entries (view_adj_items set_order (subgraph g l)))
                       /\ (fst e = (a, b) \/ fst e = (b, a)))
    by exact (proj2 (@built_graph _ _ ND B)).
  split; [exact N|]. split.
  - intros n x I. rewrite N in I. apply in_map_iff in I.
    destruct I as [[n' d] [Eq I]]. cbn [fst snd] in Eq. inversion Eq; subst.
    exists d. split; [|reflexivity]. unfold view_nodes_data in I.
    apply view_items_In in I. now destruct I as [_ I].
  - intros a b H. apply E in H. destruct H as [[[u v] dd] [I Eq]].
    apply entries_In in I. destruct I as [nbrs [Hu Hv]].
    destruct (@view_adj_entry g l u v nbrs dd G Hu Hv) as [_ [_ H]]. cbn [fst] in Eq.
    destruct Eq as [Eq|Eq]; inversion Eq; subst; [exact H|].
    now rewrite has_edge_sym.
Qed.

Lemma candidate_part (graph : Graph) (node_label : string) (max_depth : Z)
      (sub : Graph) :
  graph_ok graph ->
  candidate set_order graph node_label max_depth = Some sub ->
  part_of sub graph.
Proof.
  intros G. unfold candidate. destruct (String.eqb node_label "*").
  - intros E. inversion E. now apply copy_part.
  - destruct (nodes_to_explore graph node_label) as [|start rest]; [discriminate|].
    intros E. inversion E. unfold ego_graph. now apply view_copy_part.
Qed.

Lemma view_nodes_keys (g : Graph) (l : list string) (x : string) :
  graph_ok g ->
  In x (map fst (view_nodes_data set_order (subgraph g l)))
  <-> In x (view_shown (subgraph g l)).
Proof.
  intros G. unfold view_nodes_data. rewrite view_items_keys.
  apply view_keys_In; [apply G|].
  intros y I. cbn [subgraph view_graph]. now apply (@shown_are_nodes g l y G).
Qed.

(** *** The subgraph that is projected *)

Lemma reduce_cases (sub : Graph) :
  reduce sub = Whole sub
  \/ reduce sub = Reduced (subgraph sub (top_node_ids sub)).
Proof.
  unfold reduce. destruct (max_graph_nodes <? number_of_nodes sub)%nat; auto.
Qed.

Lemma reduced_subgraph (sub : Graph) :
  graph_ok sub ->
  NoDup (map fst (subgraph_nodes set_order (reduce sub)))
  /\ (forall n x, In (n, x) (subgraph_nodes set_order (reduce sub)) ->
                  In (n, x) (_node sub))
  /\ (forall a b dd,
        In (a, b, dd) (subgraph_edges set_order (reduce sub)) ->
        In a (map fst (subgraph_nodes set_order (reduce sub)))
        /\ In b (map fst (subgraph_nodes set_order (reduce sub)))
        /\ NX.has_edge sub a b = true).
Proof.
  intros G. destruct (reduce_cases sub) as [-> | ->];
    cbn [subgraph_nodes subgraph_edges].
  - split; [apply G|]. split; [auto|].
    intros a b dd I. apply iter_edges_In in I. destruct I as [nbrs [Ha Hb]].
    exact (@entry_in_graph sub a b nbrs dd G Ha Hb).
  - split; [now apply view_nodes_distinct|]. split.
    + intros n x I. unfold view_nodes_data in I. apply view_items_In in I.
      destruct I as [_ I]. now apply dict_get_In.
    + intros a b dd I. unfold view_edges_data in I. apply iter_edges_In in I.
      destruct I as [nbrs [Ha Hb]].
      destruct (@view_adj_entry sub (top_node_ids sub) a b nbrs dd G Ha Hb)
        as [Sa [Sb H]].
      split; [|split; [|exact H]]; now apply view_nodes_keys.
Qed.

(** *** The loops that fill the result *)

Lemma project_nodes (sub : Subgraph) :
  NoDup (map fst (subgraph_nodes set_order sub)) ->
  kg_nodes (project set_order sub)
  = map (fun nd => mkKGNode (fst nd) [fst nd] (snd nd)) (subgraph_nodes set_order sub).
Proof.
  intros ND. unfold project. cbn [kg_nodes].
  rewrite result_nodes_distinct; [reflexivity | exact ND | simpl; tauto].
Qed.

Local Abbreviation edge_id_of :=
  (fun t : string * string * attrs => fstring [fst (fst t); "-"; snd (fst t)]).

Local Abbreviation edge_shaped :=
  (fun e : KnowledgeGraphEdge =>
     edge_type e = "DIRECTED"
     /\ edge_id e = fstring [edge_source e; "-"; edge_target e]).

Lemma result_edges_spec (l : list (string * string * attrs))
      (acc : list string * list KnowledgeGraphEdge) :
  (forall x, In x (fst acc) <-> In x (map edge_id (snd acc))) ->
  NoDup (map edge_id (snd acc)) ->
  Forall edge_shaped (snd acc) ->
  let final := fold_left add_result_edge l acc in
  NoDup (map edge_id (snd final))
  /\ Forall edge_shaped (snd final)
  /\ (forall x, In x (fst final) <-> In x (map edge_id (snd final)))
  /\ (forall x, In x (fst acc) -> In x (fst final))
  /\ forall t, In t l -> In (edge_id_of t) (fst final).
Proof.
  revert acc. induction l as [|t l IH]; intros acc S D F; cbv zeta.
  - cbn [fold_left]. split; [exact D|]. split; [exact F|]. split; [exact S|].
    split; [auto|]. intros t [].
  - cbn [fold_left].
    assert (Step : (forall x, In x (fst (add_result_edge acc t))
                              <-> In x (map edge_id (snd (add_result_edge acc t))))
                   /\ NoDup (map edge_id (snd (add_result_edge acc t)))
                   /\ Forall edge_shaped (snd (add_result_edge acc t))
                   /\ (forall x, In x (fst acc) -> In x (fst (add_result_edge acc t)))
                   /\ In (edge_id_of t) (fst (add_result_edge acc t))).
    { unfold add_result_edge. cbv zeta.
      destruct (str_in (edge_id_of t) (fst acc)) eqn:E.
      - split; [exact S|]. split; [exact D|]. split; [exact F|]. split; [auto|].
        now apply str_in_iff.
      - apply str_in_false_iff in E. cbn [fst snd].
        rewrite map_app. cbn [map edge_id]. split; [|split; [|split; [|split]]].
        + intros x. rewrite in_app_iff. cbn [In]. rewrite <- S. tauto.
        + apply NoDup_app; [exact D | constructor; [intros []|constructor] |].
          intros x I [<-|[]]. apply E. now apply S.
        + apply Forall_app. split; [exact F|]. constructor; [|constructor].
          cbn [edge_type edge_id edge_source edge_target]. auto.
        + intros x I. now right.
        + now left. }
    destruct Step as [S' [D' [F' [M' I']]]].
    destruct (IH _ S' D' F') as [D2 [F2 [S2 [M2 I2]]]].
    split; [exact D2|]. split; [exact F2|]. split; [exact S2|].
    split; [intros x I; apply M2; now apply M'|].
    intros t' [<-|I]; [now apply M2 | now apply I2].
Qed.

Lemma project_edges (sub : Subgraph) :
  NoDup (map edge_id (kg_edges (project set_order sub)))
  /\ Forall edge_shaped (kg_edges (project set_order sub))
  /\ (forall t, In t (subgraph_edges set_order sub) ->
                In (edge_id_of t) (map edge_id (kg_edges (project set_order sub)))).
Proof.
  unfold project. cbn [kg_edges].
  destruct (@result_edges_spec (subgraph_edges set_order sub) ([], []))
    as [D [F [S [_ I]]]];
    [cbn [fst snd map]; tauto | constructor | constructor |].
  split; [exact D|]. split; [exact F|]. intros t H. apply S. now apply I.
Qed.

Lemma project_node_ids (sub : Subgraph) :
  NoDup (map fst (subgraph_nodes set_order sub)) ->
  map node_id (kg_nodes (project set_order sub)) = map fst (subgraph_nodes set_order sub).
Proof.
  intros ND. rewrite project_nodes by exact ND. rewrite map_map. reflexivity.
Qed.

Lemma project_edge_source (sub : Subgraph) (e : KnowledgeGraphEdge) :
  In e (kg_edges (project set_order sub)) ->
  exists dd, In (edge_source e, edge_target e, dd) (subgraph_edges set_order sub).
Proof.
  unfold project. cbn [kg_edges]. intros I. apply result_edges_source in I.
  destruct I as [[]|[[[a b] dd] [I [-> ->]]]]. now exists dd.
Qed.

End ViewParts.

(** *** Every edge is reported *)

Lemma iter_edges_complete (items : list (string * dict attrs)) (seen : list string)
      (a b : string) (nbrs_a nbrs_b : dict attrs) (dd : attrs) :
  NoDup (map fst items) ->
  (forall x, In x seen -> ~ In x (map fst items)) ->
  In (a, nbrs_a) items -> In (b, nbrs_b) items ->
  In (b, dd) nbrs_a -> In (a, dd) nbrs_b ->
  In (a, b, dd) (iter_edges items seen) \/ In (b, a, dd) (iter_edges items seen).
Proof.
  revert seen. induction items as [|[m nbrs] items IH]; intros seen ND S Ha Hb Hab Hba;
    [destruct Ha|].
  assert (Ka : In a (map fst ((m, nbrs) :: items)))
    by (change a with (fst (a, nbrs_a)); now apply in_map).
  assert (Kb : In b (map fst ((m, nbrs) :: items)))
    by (change b with (fst (b, nbrs_b)); now apply in_map).
  cbn [iter_edges].
  destruct Ha as [Ea|Ha].
  - inversion Ea; subst. left. apply in_or_app. left.
    apply in_map_iff. exists (b, dd). split; [reflexivity|].
    apply filter_In. split; [exact Hab|]. cbn [fst].
    apply negb_true_iff, str_in_false_iff. intros I. now apply (S b I).
  - destruct Hb as [Eb|Hb].
    + inversion Eb; subst. right. apply in_or_app. left.
      apply in_map_iff. exists (a, dd). split; [reflexivity|].
      apply filter_In. split; [exact Hba|]. cbn [fst].
      apply negb_true_iff, str_in_false_iff. intros I. now apply (S a I).
    + cbn [map fst] in ND. apply NoDup_cons_iff in ND. destruct ND as [Nm ND].
      destruct (IH (m :: seen) ND) as [H|H]; try assumption.
      * intros x [<-|I]; [exact Nm|]. intros K. apply (S x I). now right.
      * left. apply in_or_app. now right.
      * right. apply in_or_app. now right.
Qed.

Lemma edges_data_complete (g : Graph) (a b : string) :
  graph_ok g -> NX.has_edge g a b = true ->
  exists dd, In (a, b, dd) (edges_data g) \/ In (b, a, dd) (edges_data g).
Proof.
  intros G H. rewrite has_edge_entry in H.
  destruct G as [N [K [D S]]].
  destruct (dict_get (adj_of (_adj g) a) b) as [dd|] eqn:E;
    [|unfold dict_mem in H; now rewrite E in H].
  assert (E' : dict_get (adj_of (_adj g) b) a = Some dd) by now rewrite <- S.
  assert (Ma : dict_mem (_adj g) a = true).
  { apply neighbour_is_key with (v := b). unfold dict_mem. now rewrite E. }
  assert (Mb : dict_mem (_adj g) b = true).
  { apply neighbour_is_key with (v := a). unfold dict_mem. now rewrite E'. }
  exists dd. unfold edges_data.
  apply iter_edges_complete
    with (nbrs_a := adj_of (_adj g) a) (nbrs_b := adj_of (_adj g) b).
  - unfold dict_keys in K. now rewrite K.
  - intros x [].
  - apply dict_get_In. now apply dict_get_adj_of.
  - apply dict_get_In. now apply dict_get_adj_of.
  - now apply dict_get_In.
  - now apply dict_get_In.
Qed.

(** *** Edges that [add_edges_from] has added *)

Lemma add_edge_keeps (g : Graph) (u v a b : string) (attr : attrs) :
  graph_ok g ->
  dict_mem (adj_of (_adj g) a) b = true ->
  dict_mem (adj_of (_adj (add_edge g u v attr)) a) b = true.
Proof.
  intros G H. unfold dict_mem in *. rewrite add_edge_entry by apply G.
  now destruct ((String.eqb a u && String.eqb b v) || (String.eqb a v && String.eqb b u)).
Qed.

Lemma add_edges_from_keeps (edges : list (string * string * attrs)) (g : Graph)
      (a b : string) :
  graph_ok g ->
  dict_mem (adj_of (_adj g) a) b = true ->
  dict_mem (adj_of (_adj (add_edges_from g edges)) a) b = true.
Proof.
  unfold add_edges_from. revert g.
  induction edges as [|[[u v] dd] edges IH]; intros g G H; [exact H|].
  cbn [fold_left fst snd]. apply IH; [now apply add_edge_ok | now apply add_edge_keeps].
Qed.

Lemma add_edges_from_adds (edges : list (string * string * attrs)) (g : Graph)
      (a b : string) (dd : attrs) :
  graph_ok g -> In (a, b, dd) edges ->
  dict_mem (adj_of (_adj (add_edges_from g edges)) a) b = true.
Proof.
  unfold add_edges_from. revert g.
  induction edges as [|[[u v] d] edges IH]; intros g G I; [destruct I|].
  cbn [fold_left fst snd]. destruct I as [E|I].
  - inversion E; subst.
    apply (add_edges_from_keeps edges); [now apply add_edge_ok|].
    unfold dict_mem. rewrite add_edge_entry by apply G.
    now rewrite !String.eqb_refl.
  - apply IH; [now apply add_edge_ok | exact I].
Qed.

Lemma copy_nodes (g : Graph) :
  graph_ok g -> _node (copy g) = map copy_node (_node g).
Proof.
  intros G.
  assert (ND : NoDup (map fst (_node g))) by apply G.
  assert (B : Forall (edge_between (map fst (_node g))) (entries (_adj g))).
  { apply Forall_forall. intros [[u v] dd] I. apply entries_In in I.
    destruct I as [nbrs [Hu Hv]].
    destruct (@entry_in_graph g u v nbrs dd G Hu Hv) as [Iu [Iv _]]. now split. }
  exact (proj1 (@built_graph _ _ ND B)).
Qed.

Lemma copy_has_edge (g : Graph) (a b : string) :
  graph_ok g -> NX.has_edge g a b = true -> NX.has_edge (copy g) a b = true.
Proof.
  intros G H. rewrite has_edge_entry in *.
  destruct (dict_get (adj_of (_adj g) a) b) as [dd|] eqn:E;
    [|unfold dict_mem in H; now rewrite E in H].
  assert (Ma : dict_mem (_adj g) a = true).
  { apply neighbour_is_key with (v := b). unfold dict_mem. now rewrite E. }
  apply (@add_edges_from_adds (entries (_adj g)) _ a b dd).
  - apply add_nodes_from_ok, empty_graph_ok.
  - apply entries_In. exists (adj_of (_adj g) a). split.
    + apply dict_get_In. now apply dict_get_adj_of.
    + now apply dict_get_In.
Qed.

(** *** The search keeps what it has seen *)

Lemma bfs_visit_keeps (adj : dict (dict attrs)) (v x : string)
      (acc : list string * list string) :
  In x (fst acc) -> In x (fst (bfs_visit adj acc v)).
Proof.
  unfold bfs_visit. revert acc.
  induction (dict_keys (adj_of adj v)) as [|w l IH]; intros acc I; [exact I|].
  cbn [fold_left]. apply IH. destruct (str_in w (fst acc)); [exact I|].
  cbn [fst]. apply in_or_app. now left.
Qed.

Lemma bfs_level_keeps (adj : dict (dict attrs)) (level : list string) (x : string)
      (acc : list string * list string) :
  In x (fst acc) -> In x (fst (fold_left (bfs_visit adj) level acc)).
Proof.
  revert acc. induction level as [|v level IH]; intros acc I; [exact I|].
  cbn [fold_left]. apply IH. now apply bfs_visit_keeps.
Qed.

Lemma bfs_levels_keeps (adj : dict (dict attrs)) (cutoff : nat)
      (seen thislevel : list string) (x : string) :
  In x seen -> In x (bfs_levels adj seen thislevel cutoff).
Proof.
  revert seen thislevel. induction cutoff as [|c IH]; intros seen level I; [exact I|].
  cbn [bfs_levels]. destruct level as [|v level]; [exact I|].
  apply IH. now apply bfs_level_keeps.
Qed.

Section KnowledgeGraph.
Variable namespace : string.
Variable is_multiprocess : bool.
Variable read_graphml : Graph -> Graph.
Variable set_order : list string -> list string.

Local Abbreviation current := (current_graph is_multiprocess read_graphml).
Local Abbreviation knowledge_graph :=
  (get_knowledge_graph namespace is_multiprocess read_graphml set_order).

(** X18.  The result of [get_knowledge_graph] is well formed, whatever
    the graph, the label and the depth: no node id and no edge id occurs
    twice, the label of a node is its id, every edge has the type
    ["DIRECTED"] and the id [source-target], and both ends of every edge
    are nodes of the result. *)
Theorem knowledge_graph_is_well_formed (st : State) (node_label : string)
        (max_depth : Z) :
  exists result,
    fst (knowledge_graph node_label max_depth st) = Ok result
    /\ NoDup (map node_id (kg_nodes result))
    /\ Forall (fun nd => node_labels nd = [node_id nd]) (kg_nodes result)
    /\ NoDup (map edge_id (kg_edges result))
    /\ Forall (fun e => edge_type e = "DIRECTED"
                        /\ edge_id e = fstring [edge_source e; "-"; edge_target e]
                        /\ In (edge_source e) (map node_id (kg_nodes result))
                        /\ In (edge_target e) (map node_id (kg_nodes result)))
              (kg_edges result).
Proof.
  rewrite get_knowledge_graph_result.
  destruct (candidate set_order (current st) node_label max_depth) as [sub|] eqn:C.
  - eexists. split; [reflexivity|].
    assert (G := @candidate_ok set_order _ _ _ _ C).
    destruct (@reduced_subgraph set_order sub G) as [ND [_ E]].
    destruct (project_edges set_order (reduce sub)) as [D [F _]].
    rewrite (@project_node_ids set_order _ ND). split; [exact ND|]. split; [|split; [exact D|]].
    + rewrite project_nodes by exact ND. apply Forall_forall. intros nd I.
      apply in_map_iff in I. now destruct I as [x [<- _]].
    + apply Forall_forall. intros e I. rewrite Forall_forall in F.
      destruct (F e I) as [T Id]. split; [exact T|]. split; [exact Id|].
      destruct (@project_edge_source set_order _ e I) as [dd S].
      now destruct (E _ _ _ S) as [Ia [Ib _]].
  - exists (mkKG [] []). cbn [kg_nodes kg_edges map].
    repeat split; constructor.
Qed.

(** X19.  [get_knowledge_graph] invents nothing: every node of the result
    is a node of the graph, with a copy of the attributes it has there,
    and every edge of the result is an edge of the graph. *)
Theorem knowledge_graph_is_part_of_graph (st : State) (node_label : string)
        (max_depth : Z) :
  graph_ok (current st) ->
  exists result,
    fst (knowledge_graph node_label max_depth st) = Ok result
    /\ Forall (fun nd =>
                 exists node,
                   fst (get_node namespace is_multiprocess read_graphml (node_id nd) st)
                   = Ok (Some node)
                   /\ node_properties nd = dict_update [] node)
              (kg_nodes result)
    /\ Forall (fun e =>
                 fst (has_edge namespace is_multiprocess read_graphml
                        (edge_source e) (edge_target e) st) = Ok true)
              (kg_edges result).
Proof.
  intros G0. rewrite get_knowledge_graph_result.
  destruct (candidate set_order (current st) node_label max_depth) as [sub|] eqn:C.
  - eexists. split; [reflexivity|].
    assert (G := @candidate_ok set_order _ _ _ _ C).
    destruct (@candidate_part set_order _ _ _ _ G0 C) as [PN PE].
    destruct (@reduced_subgraph set_order sub G) as [ND [N E]].
    split.
    + rewrite project_nodes by exact ND. apply Forall_forall. intros nd I.
      apply in_map_iff in I. destruct I as [[n x] [<- I]].
      cbn [node_id node_properties fst snd].
      destruct (PN n x (N n x I)) as [d [Gd ->]].
      exists d. rewrite get_node_eq. cbn [fst]. now rewrite Gd.
    + apply Forall_forall. intros e I.
      destruct (@project_edge_source set_order _ e I) as [dd S].
      destruct (E _ _ _ S) as [_ [_ H]].
      rewrite has_edge_eq. cbn [fst]. f_equal. now apply PE.
  - exists (mkKG [] []). cbn [kg_nodes kg_edges]. repeat split; constructor.
Qed.

Lemma small_is_whole (sub : Graph) :
  (number_of_nodes sub <= 500)%nat -> reduce sub = Whole sub.
Proof.
  intros L. unfold reduce.
  now rewrite (proj2 (Nat.ltb_ge max_graph_nodes (number_of_nodes sub)) L).
Qed.

(** X20.  On a graph of at most 500 nodes, the label ["*"] gives the
    whole graph: the nodes in the order of their insertion, each with a
    copy of its attributes, and for every edge of the graph an edge of
    the result whose id names its two ends, in one order or the other. *)
Theorem wildcard_gives_whole_graph (st : State) (max_depth : Z) :
  graph_ok (current st) ->
  (number_of_nodes (current st) <= 500)%nat ->
  exists result,
    fst (knowledge_graph "*" max_depth st) = Ok result
    /\ kg_nodes result
       = map (fun nd => mkKGNode (fst nd) [fst nd] (dict_update [] (snd nd)))
             (_node (current st))
    /\ forall a b,
         fst (has_edge namespace is_multiprocess read_graphml a b st) = Ok true ->
         exists e,
           In e (kg_edges result)
           /\ (edge_id e = fstring [a; "-"; b] \/ edge_id e = fstring [b; "-"; a]).
Proof.
  intros G L. rewrite get_knowledge_graph_result.
  unfold candidate. cbn [String.eqb Ascii.eqb Bool.eqb andb].
  assert (N := copy_nodes G).
  assert (W : reduce (copy (current st)) = Whole (copy (current st))).
  { apply small_is_whole. unfold number_of_nodes in *. now rewrite N, length_map. }
  rewrite W. eexists. split; [reflexivity|]. split.
  - rewrite project_nodes.
    + cbn [subgraph_nodes]. rewrite N, map_map. reflexivity.
    + cbn [subgraph_nodes]. apply (copy_ok (current st)).
  - intros a b H. rewrite has_edge_eq in H. cbn [fst] in H.
    assert (H' : NX.has_edge (copy (current st)) a b = true)
      by (apply copy_has_edge; [exact G | now inversion H]).
    destruct (@edges_data_complete _ a b (copy_ok (current st)) H') as [dd I].
    destruct (project_edges set_order (Whole (copy (current st)))) as [_ [_ P]].
    cbn [subgraph_edges] in P.
    destruct I as [I|I]; apply P in I; cbn [fst snd] in I;
      apply in_map_iff in I; destruct I as [e [Id I]]; exists e; auto.
Qed.

Lemma explored_start_in_result (st : State) (node_label : string)
      (max_depth : Z) (start : string) (rest : list string) :
  graph_ok (current st) ->
  (number_of_nodes (current st) <= 500)%nat ->
  node_label <> "*" ->
  nodes_to_explore (current st) node_label = start :: rest ->
  exists result,
    fst (knowledge_graph node_label max_depth st) = Ok result
    /\ In start (map node_id (kg_nodes result)).
Proof.
  intros G L Star F. rewrite get_knowledge_graph_result.
  unfold candidate.
  rewrite (proj2 (String.eqb_neq node_label "*") Star), F.
  unfold ego_graph.
  set (l := single_source_shortest_path_length (current st) start max_depth).
  destruct (@view_copy_part set_order (current st) l G) as [N _].
  assert (Is : In start (dict_keys (_node (current st)))).
  { assert (I : In start (start :: rest)) by now left.
    rewrite <- F in I. unfold nodes_to_explore in I. now apply filter_In in I. }
  assert (Sh : In start (view_shown (subgraph (current st) l))).
  { cbn [subgraph view_shown]. unfold nbunch_iter. apply filter_In. split.
    - unfold l, single_source_shortest_path_length.
      apply bfs_levels_keeps. now left.
    - rewrite absent_in_adj by apply G. now apply dict_mem_iff. }
  assert (ND := @view_nodes_distinct set_order (current st) l G).
  assert (W : reduce (view_copy set_order (subgraph (current st) l))
              = Whole (view_copy set_order (subgraph (current st) l))).
  { apply small_is_whole. unfold number_of_nodes in *. rewrite N, length_map.
    rewrite <- (length_map fst). etransitivity; [|exact L].
    rewrite <- (length_map fst (_node (current st))).
    apply NoDup_incl_length; [exact ND|].
    intros x I. apply (@view_nodes_keys set_order (current st) l x G) in I.
    apply dict_mem_iff. now apply (@shown_are_nodes (current st) l x G). }
  rewrite W. eexists. split; [reflexivity|].
  rewrite project_node_ids; cbn [subgraph_nodes]; rewrite N, map_map; cbn [fst].
  - now apply view_nodes_keys.
  - exact ND.
Qed.

(** X21.  On a graph of at most 500 nodes, a label other than ["*"] that
    some node id contains gives a result with the first such node, in
    the order of insertion: the search starts there. *)
Theorem knowledge_graph_contains_start (st : State) (node_label : string)
        (max_depth : Z) (start : string) (rest : list string) :
  graph_ok (current st) ->
  (number_of_nodes (current st) <= 500)%nat ->
  node_label <> "*" ->
  filter (str_contains node_label) (dict_keys (_node (current st))) = start :: rest ->
  exists result,
    fst (knowledge_graph node_label max_depth st) = Ok result
    /\ In start (map node_id (kg_nodes result)).
Proof.
  intros G L Star F. now apply explored_start_in_result with (rest := rest).
Qed.

(** X25.  The empty label is contained in every node id: on a graph of
    at most 500 nodes that is not empty, it gives a result with the node
    that was inserted first. *)
Theorem empty_label_starts_at_first_node (st : State) (max_depth : Z)
        (first : string) (others : list string) :
  graph_ok (current st) ->
  (number_of_nodes (current st) <= 500)%nat ->
  dict_keys (_node (current st)) = first :: others ->
  exists result,
    fst (knowledge_graph EmptyString max_depth st) = Ok result
    /\ In first (map node_id (kg_nodes result)).
Proof.
  intros G L K. apply explored_start_in_result with (rest := others);
    [exact G | exact L | discriminate |].
  unfold nodes_to_explore. rewrite filter_all; [exact K|].
  intros x. now destruct x.
Qed.

End KnowledgeGraph.

Lemma wildcard_gives_whole_graph_witness :
  graph_ok (current_graph false read_back state_ids)
  /\ (number_of_nodes (current_graph false read_back state_ids) <= 500)%nat
  /\ exists result,
      fst (get_knowledge_graph "ns" false read_back insertion_order "*" 3 state_ids)
      = Ok result
      /\ kg_nodes result
         = [mkKGNode "a" ["a"] [("id", "A"); ("kind", "x")];
            mkKGNode "b" ["b"] [("id", "B")];
            mkKGNode "c" ["c"] []].
Proof.
  assert (G : graph_ok (current_graph false read_back state_ids))
    by (apply graph_okb_sound; vm_compute; reflexivity).
  assert (L : (number_of_nodes (current_graph false read_back state_ids) <= 500)%nat)
    by (vm_compute; lia).
  split; [exact G|]. split; [exact L|].
  destruct (@wildcard_gives_whole_graph "ns" false read_back insertion_order
              state_ids 3 G L) as [result [R [N _]]].
  exists result. split; [exact R | exact N].
Defined.

Lemma knowledge_graph_contains_start_witness :
  graph_ok (current_graph false read_back state_abc)
  /\ filter (str_contains "B") (dict_keys (_node (current_graph false read_back state_abc)))
     = ["B"]
  /\ exists result,
      fst (get_knowledge_graph "ns" false read_back insertion_order "B" 0 state_abc)
      = Ok result
      /\ In "B" (map node_id (kg_nodes result)).
Proof.
  assert (G : graph_ok (current_graph false read_back state_abc))
    by (apply graph_okb_sound; vm_compute; reflexivity).
  split; [exact G|]. split; [reflexivity|].
  apply (@knowledge_graph_contains_start "ns" false read_back insertion_order
           state_abc "B" 0 "B" [] G).
  - vm_compute. lia.
  - discriminate.
  - reflexivity.
Defined.

Lemma empty_label_starts_at_first_node_witness :
  graph_ok (current_graph false read_back state_ba)
  /\ dict_keys (_node (current_graph false read_back state_ba)) = ["b"; "a"]
  /\ exists result,
      fst (get_knowledge_graph "ns" false read_back insertion_order EmptyString 0 state_ba)
      = Ok result
      /\ In "b" (map node_id (kg_nodes result)).
Proof.
  assert (G : graph_ok (current_graph false read_back state_ba))
    by (apply graph_okb_sound; vm_compute; reflexivity).
  split; [exact G|]. split; [reflexivity|].
  apply (@empty_label_starts_at_first_node "ns" false read_back insertion_order
           state_ba 0 "b" ["a"] G).
  - vm_compute. lia.
  - reflexivity.
Defined.

Lemma knowledge_graph_is_part_of_graph_witness :
  graph_ok (current_graph false read_back state_abc)
  /\ exists result,
      fst (get_knowledge_graph "ns" false read_back insertion_order "B" 1 state_abc)
      = Ok result
      /\ Forall (fun e => fst (has_edge "ns" false read_back
                                 (edge_source e) (edge_target e) state_abc) = Ok true)
                (kg_edges result).
Proof.
  assert (G : graph_ok (current_graph false read_back state_abc))
    by (apply graph_okb_sound; vm_compute; reflexivity).
  split; [exact G|].
  destruct (@knowledge_graph_is_part_of_graph "ns" false read_back insertion_order
              state_abc "B" 1 G) as [result [R [_ E]]].
  exists result. split; assumption.
Defined.

End ResultFacts.

(** ** Restarts, batches and degrees *)

Module LifecycleFacts.
Import NX Storage Examples PyFacts NXFacts CoherenceFacts CrudFacts.
Import ReloadFacts UpsertFacts.

Lemma bind_then (step k1 k2 k12 : M unit) (st : State) :
  (forall st', k12 st' = match k1 st' with
                         | (Ok _, st2) => k2 st2
                         | (Raise e, st2) => (Raise e, st2)
                         end) ->
  bind step (fun _ => k12) st
  = match bind step (fun _ => k1) st with
    | (Ok _, st2) => k2 st2
    | (Raise e, st2) => (Raise e, st2)
    end.
Proof.
  intros H. unfold bind. destruct (step st) as [[u|e] st1]; [apply H | reflexivity].
Qed.

Lemma remove_nodes_loop_app (l1 l2 : list string) (st : State) :
  remove_nodes_loop (l1 ++ l2) st
  = match remove_nodes_loop l1 st with
    | (Ok _, st') => remove_nodes_loop l2 st'
    | (Raise e, st') => (Raise e, st')
    end.
Proof.
  revert st. induction l1 as [|n l1 IH]; intros st; [reflexivity|].
  cbn [app remove_nodes_loop]. apply bind_then. exact IH.
Qed.

Lemma remove_edges_loop_app (l1 l2 : list (string * string)) (st : State) :
  remove_edges_loop (l1 ++ l2) st
  = match remove_edges_loop l1 st with
    | (Ok _, st') => remove_edges_loop l2 st'
    | (Raise e, st') => (Raise e, st')
    end.
Proof.
  revert st. induction l1 as [|[s t] l1 IH]; intros st; [reflexivity|].
  cbn [app remove_edges_loop]. apply bind_then. exact IH.
Qed.

Section Lifecycle.
Variable namespace : string.
Variable _graphml_xml_file : string.
Variable is_multiprocess : bool.
Variable read_graphml : Graph -> Graph.

Local Abbreviation current := (current_graph is_multiprocess read_graphml).
Local Abbreviation fresh_state := (refreshed namespace is_multiprocess read_graphml).

Lemma remove_nodes_eq (nodes : list string) (st : State) :
  remove_nodes namespace is_multiprocess read_graphml nodes st
  = remove_nodes_loop nodes (fresh_state st).
Proof. unfold remove_nodes, bind. now rewrite get_graph_eq. Qed.

Lemma remove_edges_eq (edges : list (string * string)) (st : State) :
  remove_edges namespace is_multiprocess read_graphml edges st
  = remove_edges_loop edges (fresh_state st).
Proof. unfold remove_edges, bind. now rewrite get_graph_eq. Qed.

(** X22.  A batch of deletions is the sequence of its parts:
    [remove_nodes] of a list is [remove_nodes] of its first part followed
    by [remove_nodes] of the rest, and likewise for [remove_edges]. *)
Theorem removal_in_batches (st : State) (nodes1 nodes2 : list string)
        (edges1 edges2 : list (string * string)) :
  graph_ok (current st) ->
  remove_nodes namespace is_multiprocess read_graphml (nodes1 ++ nodes2) st
  = remove_nodes namespace is_multiprocess read_graphml nodes2
      (snd (remove_nodes namespace is_multiprocess read_graphml nodes1 st))
  /\ remove_edges namespace is_multiprocess read_graphml (edges1 ++ edges2) st
     = remove_edges namespace is_multiprocess read_graphml edges2
         (snd (remove_edges namespace is_multiprocess read_graphml edges1 st)).
Proof.
  intros G.
  assert (G' : graph_ok (_graph (fresh_state st))) by now rewrite refreshed_graph.
  split.
  - rewrite !remove_nodes_eq, remove_nodes_loop_app.
    destruct (@remove_nodes_loop_spec nodes1 (fresh_state st) G') as [g' [E _]].
    rewrite E. cbn [snd]. now rewrite refreshed_with_graph.
  - rewrite !remove_edges_eq, remove_edges_loop_app.
    destruct (@remove_edges_loop_spec edges1 (fresh_state st) G') as [g' [E _]].
    rewrite E. cbn [snd]. now rewrite refreshed_with_graph.
Qed.

(** X23.  A storage that is created on the file that another one has
    written starts with the graph that was written: it answers for nodes
    and edges as the storage that persisted, and logs what it loaded.
    The reader of the file is taken to return the graph that was
    written.  On a directory without a file the storage starts empty. *)
Theorem restart_restores_graph (st : State) (peers : list bool) (a b : string) :
  let persisted :=
    snd (index_done_callback namespace is_multiprocess read_graphml None st) in
  let restarted :=
    post_init _graphml_xml_file read_graphml (graphml_file persisted) peers in
  graph_ok (current st) ->
  read_graphml (current st) = current st ->
  fst (index_done_callback namespace is_multiprocess read_graphml None st) = Ok true ->
  fst (get_node namespace is_multiprocess read_graphml a restarted)
  = fst (get_node namespace is_multiprocess read_graphml a persisted)
  /\ fst (has_edge namespace is_multiprocess read_graphml a b restarted)
     = fst (has_edge namespace is_multiprocess read_graphml a b persisted)
  /\ fst (get_edge namespace is_multiprocess read_graphml a b restarted)
     = fst (get_edge namespace is_multiprocess read_graphml a b persisted)
  /\ logged restarted
     = [(INFO, fstring ["Loaded graph from "; _graphml_xml_file; " with ";
                        str_of_nat (number_of_nodes (current st)); " nodes, ";
                        str_of_nat (number_of_edges (current st)); " edges"])]
  /\ fst (has_node namespace is_multiprocess read_graphml a
            (post_init _graphml_xml_file read_graphml None peers))
     = Ok false.
Proof.
  cbv zeta. intros G R S.
  assert (C : (is_multiprocess && storage_updated st) = false).
  { destruct (is_multiprocess && storage_updated st) eqn:C; [|reflexivity].
    unfold index_done_callback in S. rewrite C in S. discriminate. }
  rewrite index_done_callback_written by exact C. cbn [snd graphml_file].
  unfold post_init, load_nx_graph. cbn [graphml_file]. rewrite R.
  rewrite or_new_graph_of_ok by exact G.
  rewrite !get_node_eq, !has_edge_eq, !get_edge_eq, has_node_eq. cbn [fst].
  rewrite !current_graph_fresh by reflexivity. cbn [_graph logged].
  repeat split;
    match goal with
    | |- context [current_graph _ _ (mkState ?g false ?f ?p ?l)] =>
        now rewrite (@current_graph_fresh is_multiprocess read_graphml
                       (mkState g false f p l) eq_refl)
    end.
Qed.

(** X24.  For two nodes of the graph, [edge_degree] returns the sum of
    their degrees; when there is an edge between them, each of the two
    degrees is at least one. *)
Theorem edge_degree_of_nodes (st : State) (a b : string) :
  graph_ok (current st) ->
  fst (has_node namespace is_multiprocess read_graphml a st) = Ok true ->
  fst (has_node namespace is_multiprocess read_graphml b st) = Ok true ->
  exists da db,
    fst (node_degree namespace is_multiprocess read_graphml a st) = Ok (DegreeInt da)
    /\ fst (node_degree namespace is_multiprocess read_graphml b st) = Ok (DegreeInt db)
    /\ fst (edge_degree namespace is_multiprocess read_graphml a b st) = Ok (da + db)%nat
    /\ (fst (has_edge namespace is_multiprocess read_graphml a b st) = Ok true ->
        (1 <= da)%nat /\ (1 <= db)%nat).
Proof.
  intros G Ha Hb. rewrite has_node_eq in Ha, Hb. cbn [fst] in Ha, Hb.
  assert (K : dict_keys (_adj (current st)) = dict_keys (_node (current st))) by apply G.
  assert (Ma : dict_mem (_adj (current st)) a = true)
    by (rewrite (absent_in_adj _ a K); now inversion Ha).
  assert (Mb : dict_mem (_adj (current st)) b = true)
    by (rewrite (absent_in_adj _ b K); now inversion Hb).
  rewrite !node_degree_eq, edge_degree_eq, has_edge_eq. cbn [fst].
  unfold degree_call. rewrite Ma, Mb. cbn [degree_add].
  eexists. eexists. split; [reflexivity|]. split; [reflexivity|]. split; [reflexivity|].
  intros H. inversion H as [H']. 
  assert (Hba : NX.has_edge (current st) b a = true) by now rewrite has_edge_sym.
  rewrite has_edge_entry in H', Hba. unfold degree_of.
  assert (P : forall (d : dict attrs) k, dict_mem d k = true -> (1 <= List.length d)%nat).
  { intros d k M. destruct d; [discriminate | simpl; lia]. }
  split; [apply P in H' | apply P in Hba]; lia.
Qed.

End Lifecycle.

Lemma removal_in_batches_witness :
  graph_ok (current_graph false read_back state_abc)
  /\ remove_nodes "ns" false read_back (["A"] ++ ["Z"; "B"]) state_abc
     = remove_nodes "ns" false read_back ["Z"; "B"]
         (snd (remove_nodes "ns" false read_back ["A"] state_abc)).
Proof.
  assert (G : graph_ok (current_graph false read_back state_abc))
    by (apply graph_okb_sound; vm_compute; reflexivity).
  split; [exact G|].
  exact (proj1 (@removal_in_batches "ns" false read_back state_abc
                  ["A"] ["Z"; "B"] [] [] G)).
Defined.

Lemma restart_restores_graph_witness :
  graph_ok (current_graph false read_back state_ids)
  /\ fst (index_done_callback "ns" false read_back None state_ids) = Ok true
  /\ fst (get_node "ns" false read_back "a"
            (post_init "graph_ns.graphml" read_back
               (graphml_file (snd (index_done_callback "ns" false read_back None
                                     state_ids)))
               []))
     = Ok (Some [("id", "A"); ("kind", "x")]).
Proof.
  assert (G : graph_ok (current_graph false read_back state_ids))
    by (apply graph_okb_sound; vm_compute; reflexivity).
  split; [exact G|]. split; [reflexivity|].
  destruct (@restart_restores_graph "ns" "graph_ns.graphml" false read_back state_ids
              [] "a" "b" G eq_refl eq_refl) as [H _].
  rewrite H. reflexivity.
Defined.

Lemma edge_degree_of_nodes_witness :
  graph_ok (current_graph false read_back state_abc)
  /\ fst (has_node "ns" false read_back "A" state_abc) = Ok true
  /\ fst (has_node "ns" false read_back "B" state_abc) = Ok true
  /\ exists da db,
      fst (node_degree "ns" false read_back "A" state_abc) = Ok (DegreeInt da)
      /\ fst (node_degree "ns" false read_back "B" state_abc) = Ok (DegreeInt db)
      /\ fst (edge_degree "ns" false read_back "A" "B" state_abc) = Ok (da + db)%nat.
Proof.
  assert (G : graph_ok (current_graph false read_back state_abc))
    by (apply graph_okb_sound; vm_compute; reflexivity).
  split; [exact G|]. split; [reflexivity|]. split; [reflexivity|].
  destruct (@edge_degree_of_nodes "ns" false read_back state_abc "A" "B"
              G eq_refl eq_refl) as [da [db [Ha [Hb [He _]]]]].
  exists da, db. auto.
Defined.

End LifecycleFacts.

(** ** Queries that agree *)

Module ConsistencyFacts.
Import NX Storage Examples PyFacts NXFacts CoherenceFacts CrudFacts UpsertFacts.




Section Consistency.
Variable namespace : string.
Variable is_multiprocess : bool.
Variable read_graphml : Graph -> Graph.

Local Abbreviation current := (current_graph is_multiprocess read_graphml).
Local Abbreviation fresh_state := (refreshed namespace is_multiprocess read_graphml).
Local Abbreviation edge_params := ["self"; "u_of_edge"; "v_of_edge"].

(** X26.  The queries agree: [has_node] holds for the ids for which
    [get_node] finds a node, [has_edge] holds for the pairs for which
    [get_edge] finds an edge, and both ends of an edge are nodes. *)
Theorem queries_agree (st : State) (a b : string) :
  graph_ok (current st) ->
  (fst (has_node namespace is_multiprocess read_graphml a st) = Ok true
   <-> exists node, fst (get_node namespace is_multiprocess read_graphml a st)
                    = Ok (Some node))
  /\ (fst (has_edge namespace is_multiprocess read_graphml a b st) = Ok true
      <-> exists edge, fst (get_edge namespace is_multiprocess read_graphml a b st)
                       = Ok (Some edge))
  /\ (fst (has_edge namespace is_multiprocess read_graphml a b st) = Ok true ->
      fst (has_node namespace is_multiprocess read_graphml a st) = Ok true
      /\ fst (has_node namespace is_multiprocess read_graphml b st) = Ok true).
Proof.
  intros G. rewrite !has_node_eq, get_node_eq, has_edge_eq, get_edge_eq. cbn [fst].
  rewrite has_edge_entry. unfold NX.has_node, nodes_get, dict_mem.
  split; [|split].
  - destruct (dict_get (_node (current st)) a) as [d|]; split; intros H.
    + now exists d.
    + reflexivity.
    + discriminate.
    + now destruct H.
  - destruct (dict_get (adj_of (_adj (current st)) a) b) as [d|]; split; intros H.
    + now exists d.
    + reflexivity.
    + discriminate.
    + now destruct H.
  - intros H.
    destruct (dict_get (adj_of (_adj (current st)) a) b) as [dd|] eqn:E;
      [|discriminate].
    assert (E' : dict_get (adj_of (_adj (current st)) b) a = Some dd)
      by (destruct G as [_ [_ [_ S]]]; now rewrite <- S).
    assert (K : dict_keys (_adj (current st)) = dict_keys (_node (current st)))
      by apply G.
    assert (Ma : dict_mem (_node (current st)) a = true).
    { rewrite <- absent_in_adj by exact K. apply neighbour_is_key with (v := b).
      unfold dict_mem. now rewrite E. }
    assert (Mb : dict_mem (_node (current st)) b = true).
    { rewrite <- absent_in_adj by exact K. apply neighbour_is_key with (v := a).
      unfold dict_mem. now rewrite E'. }
    unfold dict_mem in Ma, Mb.
    destruct (dict_get (_node (current st)) a); [|discriminate].
    destruct (dict_get (_node (current st)) b); [auto | discriminate].
Qed.


End Consistency.

Lemma queries_agree_witness :
  graph_ok (current_graph false read_back state_abc)
  /\ fst (has_edge "ns" false read_back "A" "B" state_abc) = Ok true
  /\ fst (has_node "ns" false read_back "A" state_abc) = Ok true
  /\ fst (has_node "ns" false read_back "B" state_abc) = Ok true.
Proof.
  assert (G : graph_ok (current_graph false read_back state_abc))
    by (apply graph_okb_sound; vm_compute; reflexivity).
  split; [exact G|]. split; [reflexivity|].
  destruct (@queries_agree "ns" false read_back state_abc "A" "B" G) as [_ [_ H]].
  apply H. reflexivity.
Defined.


End ConsistencyFacts.
